(** * The OpenFoodFacts pipeline: fetch, clean, store

    A shallow embedding of [pipeline/fetcher.py], [pipeline/transformer.py],
    the two [save_] functions of [pipeline/storage.py] and [run_pipeline] of
    [pipeline/main.py], with the constants of [pipeline/config.py].

    - [Fetcher]: [fetch_page] (one HTTP exchange under tenacity's retry
      decorator) and [fetch_all_data] (the pagination loop), written in
      state-passing style over an arbitrary server; the state carries a
      trace of the HTTP exchanges and of the calls to [time.sleep].
    - [Transformer]: [raw_to_dataframe] and [clean_dataframe] over a small
      model of pandas data frames kept in a store, so that aliasing between
      the argument and the result of [clean_dataframe] is visible.
    - [Storage]: the paths and timestamps of the saved files, and
      [save_raw_json] and [save_parquet] over an arbitrary clock and disk.
    - [Main]: [run_pipeline], which chains the three. *)

From stdpp Require Import base option list strings gmap pretty.
From Stdlib Require Import ZArith Lia Ascii.

Local Open Scope Z_scope.

(** ** pipeline/fetcher.py *)

Module Fetcher.

(** Constants of [pipeline/config.py]. *)
Definition API_TIMEOUT : Z := 30.
Definition API_RATE_LIMIT : Z := 1.
Definition PAGE_SIZE : Z := 100.
Definition MAX_PAGES : nat := 10.
Definition FIELDS : string :=
  "code,product_name,brands,categories,nutriscore_grade,nova_group,energy_100g,fat_100g,sugars_100g,salt_100g,proteins_100g,ingredients_text,packaging_tags,labels_tags,countries_tags".

(** The query parameters built by [fetch_all_data]. *)
Record params := Params {
  categories_tags : string;
  page : nat;
  page_size : Z;
  fields : string
}.

(** What one pass through the [try] block of [fetch_page] can raise.  The
    first three are httpx exceptions: [HTTPStatusError] is what
    [response.raise_for_status()] raises on a 4xx/5xx answer,
    [TimeoutException] and [TransportError] come from [client.get].
    [OtherException] is any exception that is not an httpx one (for
    instance the [ValueError] of [response.json()] on a malformed body). *)
Inductive exn :=
| HTTPStatusError (status_code : Z)
| TimeoutException
| TransportError
| OtherException.

(** httpx's class hierarchy: [HTTPStatusError], [TimeoutException] and the
    other transport errors all derive from [httpx.HTTPError]. *)
Definition is_HTTPError (e : exn) : bool :=
  match e with
  | HTTPStatusError _ | TimeoutException | TransportError => true
  | OtherException => false
  end.

Definition is_TimeoutException (e : exn) : bool :=
  match e with
  | TimeoutException => true
  | _ => false
  end.

(** [retry_if_exception_type((httpx.HTTPError, httpx.TimeoutException))]. *)
Definition retry_if_exception_type (e : exn) : bool :=
  is_HTTPError e || is_TimeoutException e.

(** [stop_after_attempt(3)]. *)
Definition stop_after_attempt (max_attempt_number attempt_number : nat) : bool :=
  (max_attempt_number <=? attempt_number)%nat.

(** [wait_exponential(multiplier, min, max)] of tenacity, base 2: the wait
    in seconds after attempt number [attempt_number] failed. *)
Definition wait_exponential (multiplier min max : Z) (attempt_number : nat) : Z :=
  let exp := 2 ^ (Z.of_nat attempt_number - 1) in
  let result := multiplier * exp in
  Z.max (Z.max 0 min) (Z.min result max).

Section WithServer.
(** [Record] is a product entry of the API, [World] whatever the network
    and the server depend on. *)
Context {Record World : Type}.

(** The decoded JSON body: its ["products"] entry when it has one. *)
Definition body : Type := option (list Record).

(** [data.get("products", [])]. *)
Definition get_products (data : body) : list Record := default [] data.

(** What the run does to the outside: the HTTP exchanges (request and
    outcome) and the sleeps, in order. *)
Inductive event :=
| HttpGet (endpoint : string) (p : params) (outcome : exn + body)
| Sleep (seconds : Z).

Record state := State { world : World; trace : list event }.

Definition init (w : World) : state := State w [].

Definition emit (e : event) (s : state) : state :=
  State (world s) (trace s ++ [e]).

(** [client.get(url, params)], [raise_for_status()] and [json()]. *)
Variable client_get : World → string → params → (exn + body) * World.

(** The body of [fetch_page]: every [except] clause logs and re-raises. *)
Definition fetch_page_body (endpoint : string) (p : params) (s : state)
  : (exn + body) * state :=
  let '(r, w) := client_get (world s) endpoint p in
  (r, State w (trace s ++ [HttpGet endpoint p r])).

(** tenacity's loop around [fetch_page_body] with [reraise=True].  [left]
    counts the attempts [stop_after_attempt(3)] still allows after the
    current one, so [left = 3 - attempt_number]. *)
Fixpoint retrying (left attempt_number : nat) (endpoint : string) (p : params)
    (s : state) : (exn + body) * state :=
  let '(r, s1) := fetch_page_body endpoint p s in
  match r with
  | inr data => (inr data, s1)
  | inl e =>
      if retry_if_exception_type e then
        match left with
        | O => (inl e, s1)
        | S left' =>
            retrying left' (S attempt_number) endpoint p
              (emit (Sleep (wait_exponential 1 2 10 attempt_number)) s1)
        end
      else (inl e, s1)
  end.

Definition fetch_page (endpoint : string) (p : params) (s : state)
  : (exn + body) * state :=
  retrying 2 1 endpoint p s.

(** [raise ValueError(...)] of [fetch_all_data]. *)
Inductive fetch_error := ValueError (category : string).

Inductive control := Break | Continue.

Definition search_params (category : string) (pg : nat) : params :=
  Params category pg PAGE_SIZE FIELDS.

(** One iteration of the [for page in range(1, MAX_PAGES + 1)] loop. *)
Definition page_step (category : string) (pg : nat)
    (all_products : list Record) (s : state)
  : control * list Record * state :=
  let '(r, s1) := fetch_page "/search" (search_params category pg) s in
  match r with
  | inr data =>
      let products := get_products data in
      match products with
      | [] => (Break, all_products, s1)
      | _ :: _ =>
          let s2 := if (pg <? MAX_PAGES)%nat
                    then emit (Sleep API_RATE_LIMIT) s1 else s1 in
          (Continue, all_products ++ products, s2)
      end
  | inl (HTTPStatusError status_code) =>
      if status_code =? 404 then (Break, all_products, s1)
      else (Continue, all_products, s1)
  | inl _ => (Continue, all_products, s1)
  end.

Fixpoint for_pages (pages : list nat) (category : string)
    (all_products : list Record) (s : state) : list Record * state :=
  match pages with
  | [] => (all_products, s)
  | pg :: rest =>
      match page_step category pg all_products s with
      | (Break, all_products', s') => (all_products', s')
      | (Continue, all_products', s') => for_pages rest category all_products' s'
      end
  end.

(** The statements after the loop. *)
Definition finish (category : string) (r : list Record * state)
  : (fetch_error + list Record) * state :=
  match r with
  | ([], s) => (inl (ValueError category), s)
  | (all_products, s) => (inr all_products, s)
  end.

Definition fetch_all_data (category : string) (s : state)
  : (fetch_error + list Record) * state :=
  finish category (for_pages (seq 1 MAX_PAGES) category [] s).

(** *** Reading a trace *)

(** The products an exchange brought back. *)
Definition event_products (e : event) : list Record :=
  match e with
  | HttpGet _ _ (inr data) => get_products data
  | _ => []
  end.

Definition records_obtained (t : list event) : list Record :=
  concat (map event_products t).

(** The page number of each HTTP request, in order. *)
Definition requested_pages (t : list event) : list nat :=
  omap (λ e, match e with HttpGet _ p _ => Some (page p) | Sleep _ => None end) t.

Definition sleeps (t : list event) : list Z :=
  omap (λ e, match e with Sleep n => Some n | HttpGet _ _ _ => None end) t.

(** The outcomes of the HTTP exchanges, in order. *)
Definition outcomes (t : list event) : list (exn + body) :=
  omap (λ e, match e with HttpGet _ _ r => Some r | Sleep _ => None end) t.

(** The products a call of [fetch_page] hands to its caller. *)
Definition result_products (r : exn + body) : list Record :=
  match r with inr data => get_products data | inl _ => [] end.
End WithServer.

Arguments body : clear implicits.
Arguments event : clear implicits.
Arguments state : clear implicits.

(** *** Servers used in the statements *)

(** A catalogue: page [n] always answers with the products [pages n]. *)
Definition catalogue {Record : Type} (pages : nat → list Record)
  : unit → string → params → (exn + body Record) * unit :=
  λ _ _ p, (inr (Some (pages (page p))), ()).

(** A script, as [Mock(side_effect=[...])] in the tests: the exchanges
    answer with the outcomes of the list in order; once the list is used up
    the call fails with an exception that is not an httpx one. *)
Definition scripted {Record : Type}
  : list (exn + body Record) → string → params
    → (exn + body Record) * list (exn + body Record) :=
  λ w _ _, match w with
           | r :: w' => (r, w')
           | [] => (inl OtherException, [])
           end.

(** The longest prefix of non-empty pages. *)
Fixpoint nonempty_prefix {A : Type} (ls : list (list A)) : list (list A) :=
  match ls with
  | (x :: l) :: ls' => (x :: l) :: nonempty_prefix ls'
  | _ => []
  end.

(** *** Inputs of the worked runs *)

(** Three pages of ten products, then nothing: the scenario of
    [test_fetch_all_data_success], products numbered as there. *)
Definition three_full_pages (pg : nat) : list nat :=
  if (pg <=? 3)%nat then seq (10 * (pg - 1)) 10 else [].

(** An empty first page in front of a page that holds one product. *)
Definition second_page_only (pg : nat) : list nat :=
  if (pg =? 2)%nat then [0%nat] else [].

(** Two answers with status 500, then a page with one product. *)
Definition two_failures_then_data : list (exn + body nat) :=
  [inl (HTTPStatusError 500); inl (HTTPStatusError 500); inr (Some [7%nat])].

(** A page that keeps answering 404. *)
Definition not_found_thrice : list (exn + body nat) :=
  [inl (HTTPStatusError 404); inl (HTTPStatusError 404); inl (HTTPStatusError 404)].

(** A page that keeps answering 503, then the next page with one product. *)
Definition unavailable_then_data : list (exn + body nat) :=
  [inl (HTTPStatusError 503); inl (HTTPStatusError 503); inl (HTTPStatusError 503);
   inr (Some [7%nat]); inr (Some [])].

End Fetcher.

(** ** pipeline/transformer.py *)

Module Transformer.

(** *** Python and pandas primitives

    pandas computes on binary64 numbers, and the exact result of its
    [median], [mean] and [std] depends on how it sums.  These operations,
    the printing and parsing of such numbers and Python's [repr] of a list
    are taken as an interface; everything proved below holds for every
    implementation of it.  [num] holds the numbers other than NaN: a result
    that may be NaN is an [option], and a NaN kept in a column is the cell
    [VNaN]. *)
Class PyPrims := {
  num : Type;
  num_eq_dec :: EqDecision num;
  of_Z : Z → num;
  fltb : num → num → bool;
  fadd : num → num → option num;
  fsub : num → num → option num;
  fmul : num → num → option num;
  median : list num → option num;
  mean : list num → option num;
  std : list num → option num;
  str_of_float : num → string;
  float_of_str : string → option num;
  repr_list : list string → string
}.

(** *** Strings

    Strings are byte strings (UTF-8); white space and letter case are those
    of ASCII.  [lower] and [strip] agree with [str.lower] and [str.strip] on
    ASCII text; the statements about the cleaned frame are written so as
    not to say how a letter or a blank outside ASCII comes out. *)

Definition is_space (a : ascii) : bool :=
  let n := nat_of_ascii a in
  ((9 <=? n) && (n <=? 13) || (28 <=? n) && (n <=? 32))%nat.

Definition to_lower (a : ascii) : ascii :=
  let n := nat_of_ascii a in
  if ((65 <=? n) && (n <=? 90))%nat then ascii_of_nat (n + 32) else a.

(** [str.lower()]. *)
Fixpoint lower (s : string) : string :=
  match s with
  | EmptyString => EmptyString
  | String a s' => String (to_lower a) (lower s')
  end.

Fixpoint lstrip (s : string) : string :=
  match s with
  | EmptyString => EmptyString
  | String a s' => if is_space a then lstrip s' else s
  end.

Fixpoint rstrip (s : string) : string :=
  match s with
  | EmptyString => EmptyString
  | String a s' =>
      match rstrip s' with
      | EmptyString => if is_space a then EmptyString else String a EmptyString
      | t => String a t
      end
  end.

(** [str.strip()]. *)
Definition strip (s : string) : string := rstrip (lstrip s).

Definition digit_of (a : ascii) : option Z :=
  let n := nat_of_ascii a in
  if ((48 <=? n) && (n <=? 57))%nat then Some (Z.of_nat n - 48) else None.

Fixpoint parse_digits (acc : Z) (s : string) : option Z :=
  match s with
  | EmptyString => Some acc
  | String a s' =>
      match digit_of a with
      | Some d => parse_digits (10 * acc + d) s'
      | None => None
      end
  end.

(** An integer literal: an optional sign and at least one digit. *)
Definition parse_int (s : string) : option Z :=
  match s with
  | EmptyString => None
  | String "-"%char (String _ _ as s') => Z.opp <$> parse_digits 0 s'
  | String "+"%char (String _ _ as s') => parse_digits 0 s'
  | _ => parse_digits 0 s
  end.

(** *** Values, columns and frames *)

Section Model.
Context {prims : PyPrims}.

(** A cell, as Python sees it.  [VNone] is [None] and [VNaN] the float NaN:
    the two nulls of pandas.  [VList] is a list of strings, as the API sends
    them for the tag fields. *)
Inductive value :=
| VNone
| VNaN
| VStr (s : string)
| VInt (z : Z)
| VFloat (x : num)
| VBool (b : bool)
| VList (items : list string).

#[export] Instance value_eq_dec : EqDecision value.
Proof. solve_decision. Defined.

(** A record of the API: a Python [dict]. *)
Definition record : Type := list (string * value).

Fixpoint dict_get (key : string) (r : record) : option value :=
  match r with
  | [] => None
  | (k, v) :: r' => if decide (k = key) then Some v else dict_get key r'
  end.

Inductive dtype :=
| object
| string_dtype
| int64
| float64
| bool_dtype
| category (categories : list string) (ordered : bool).

#[export] Instance dtype_eq_dec : EqDecision dtype.
Proof. solve_decision. Defined.

Record column := Column { col_dtype : dtype; col_values : list value }.

#[export] Instance column_eq_dec : EqDecision column.
Proof. solve_decision. Defined.

(** A data frame: the row labels and the columns in order. *)
Record frame := Frame { df_index : list nat; df_columns : list (string * column) }.

#[export] Instance frame_eq_dec : EqDecision frame.
Proof. solve_decision. Defined.

Definition names (f : frame) : list string := (df_columns f).*1.

(** [df[name]] *)
Fixpoint lookup_col (name : string) (cols : list (string * column)) : option column :=
  match cols with
  | [] => None
  | (n, c) :: rest => if decide (n = name) then Some c else lookup_col name rest
  end.

(** [df[name] = c]: the column is replaced where it stands, a new one is
    added last. *)
Fixpoint update_col (name : string) (c : column) (cols : list (string * column))
  : list (string * column) :=
  match cols with
  | [] => [(name, c)]
  | (n, c0) :: rest =>
      if decide (n = name) then (n, c) :: rest else (n, c0) :: update_col name c rest
  end.

Definition get_col (name : string) (f : frame) : option column :=
  lookup_col name (df_columns f).

Definition set_col (name : string) (c : column) (f : frame) : frame :=
  Frame (df_index f) (update_col name c (df_columns f)).

(** [df.empty]: no row or no column. *)
Definition df_empty (f : frame) : bool :=
  match df_index f, df_columns f with
  | [], _ | _, [] => true
  | _, _ => false
  end.

(** *** Series operations *)

(** [isnull()] on a cell. *)
Definition isnull (v : value) : bool :=
  match v with
  | VNone | VNaN => true
  | _ => false
  end.

Definition count (p : value → bool) (c : column) : nat :=
  length (filter (λ v, p v = true) (col_values c)).

(** [s.isnull().sum()] and [s.notna().sum()]. *)
Definition isnull_sum (c : column) : nat := count isnull c.
Definition notna_sum (c : column) : nat := count (λ v, negb (isnull v)) c.

(** The cast pandas applies to a scalar stored in a column of type [d]. *)
Definition cast (d : dtype) (v : value) : value :=
  match d, v with
  | float64, VInt z => VFloat (of_Z z)
  | _, _ => v
  end.

(** [s.fillna(v)]. *)
Definition fillna (v : value) (c : column) : column :=
  Column (col_dtype c)
    (map (λ x, if isnull x then cast (col_dtype c) v else x) (col_values c)).

(** The number a cell stands for in an arithmetic operation. *)
Definition as_float (v : value) : option num :=
  match v with
  | VInt z => Some (of_Z z)
  | VFloat x => Some x
  | VBool b => Some (of_Z (Z.b2z b))
  | _ => None
  end.

(** The numbers of a column, nulls skipped. *)
Definition nums (c : column) : list num := omap as_float (col_values c).

(** [str(v)], which is what [astype(str)] stores. *)
Definition py_str (v : value) : string :=
  match v with
  | VNone => "None"
  | VNaN => "nan"
  | VStr s => s
  | VInt z => pretty z
  | VFloat x => str_of_float x
  | VBool b => if b then "True" else "False"
  | VList items => repr_list items
  end.

(** [s.astype(str)]. *)
Definition astype_str (c : column) : column :=
  Column object (map (λ v, VStr (py_str v)) (col_values c)).

(** [s.astype(str).str.strip().str.lower()]. *)
Definition normalize_text (c : column) : column :=
  Column object (map (λ v, VStr (lower (strip (py_str v)))) (col_values c)).

(** [pd.Categorical(s, categories=cats, ordered=True)] for a column
    without list cells: a value outside the categories becomes NaN.  (A
    list cannot be hashed and pandas raises [TypeError] on it; the theorem
    on the grades takes a column without lists.) *)
Definition Categorical (cats : list string) (c : column) : column :=
  Column (category cats true)
    (map (λ v, match v with
               | VStr s => if decide (s ∈ cats) then VStr s else VNaN
               | _ => VNaN
               end) (col_values c)).

Definition is_int (v : value) : bool :=
  match v with VInt _ => true | _ => false end.

Definition to_float_cell (v : value) : value :=
  match v with VInt z => VFloat (of_Z z) | _ => v end.

(** What [errors='coerce'] makes of one cell of an object column. *)
Definition coerce (v : value) : value :=
  match v with
  | VInt z => VInt z
  | VFloat x => VFloat x
  | VBool b => VInt (Z.b2z b)
  | VStr s =>
      match parse_int s with
      | Some z => VInt z
      | None => match float_of_str s with
                | Some x => VFloat x
                | None => VNaN
                end
      end
  | _ => VNaN
  end.

(** [pd.to_numeric(s, errors='coerce')]: a numeric or Boolean column is
    returned as it is; any other one is parsed cell by cell, to [int64]
    when every cell is an integer and to [float64] otherwise. *)
Definition to_numeric (c : column) : column :=
  match col_dtype c with
  | int64 | float64 | bool_dtype => c
  | _ =>
      let parsed := map coerce (col_values c) in
      if forallb is_int parsed then Column int64 parsed
      else Column float64 (map to_float_cell parsed)
  end.

(** [s < 0] on a cell. *)
Definition is_negative (v : value) : bool :=
  match v with
  | VInt z => z <? 0
  | VFloat x => fltb x (of_Z 0)
  | _ => false
  end.

(** [s < bound] and [s > bound] on a cell; a comparison with NaN is false. *)
Definition lt_bound (bound : option num) (v : value) : bool :=
  match as_float v, bound with
  | Some x, Some b => fltb x b
  | _, _ => false
  end.

Definition gt_bound (bound : option num) (v : value) : bool :=
  match as_float v, bound with
  | Some x, Some b => fltb b x
  | _, _ => false
  end.

(** [df.loc[mask, col] = v] for an integer [v]. *)
Definition assign_int (mask : value → bool) (z : Z) (c : column) : column :=
  Column (col_dtype c)
    (map (λ v, if mask v then cast (col_dtype c) (VInt z) else v) (col_values c)).

(** [df.loc[mask, col] = bound] for a float: nothing is stored under an
    empty mask; otherwise an [int64] column becomes a [float64] one. *)
Definition assign_float (mask : value → bool) (bound : option num) (c : column)
  : column :=
  match bound with
  | Some b =>
      if existsb mask (col_values c) then
        match col_dtype c with
        | int64 =>
            Column float64
              (map (λ v, if mask v then VFloat b else to_float_cell v) (col_values c))
        | d => Column d (map (λ v, if mask v then VFloat b else v) (col_values c))
        end
      else c
  | None => c
  end.

(** [', '.join(x) if isinstance(x, list) else str(x)]. *)
Definition join_list (v : value) : value :=
  match v with
  | VList items => VStr (String.concat ", " items)
  | _ => VStr (py_str v)
  end.

(** [s.apply(f)] for an [f] that returns strings. *)
Definition apply_str (f : value → value) (c : column) : column :=
  Column object (map f (col_values c)).

(** *** Frames in a store

    A [DataFrame] is an object: two names may denote the same frame, and an
    assignment through one is seen through the other.  The store maps the
    references to the frames they denote. *)

Definition loc : Type := nat.

Inductive exn :=
| KeyError (key : string)
| TypeError (message : string)
| ValueError (message : string)
| InvalidReference.  (* a reference the store does not hold: not a Python state *)

Definition M (A : Type) : Type := gmap loc frame → (exn + A) * gmap loc frame.

Definition ret {A : Type} (a : A) : M A := λ h, (inr a, h).

Definition bind {A B : Type} (m : M A) (k : A → M B) : M B :=
  λ h, match m h with
       | (inr a, h') => k a h'
       | (inl e, h') => (inl e, h')
       end.

Definition raise {A : Type} (e : exn) : M A := λ h, (inl e, h).

#[export] Instance M_ret : MRet M := @ret.
#[export] Instance M_bind : MBind M := λ A B k m, bind m k.

Fixpoint for_ {A : Type} (l : list A) (body : A → M unit) : M unit :=
  match l with
  | [] => ret ()
  | x :: l' => body x;; for_ l' body
  end.

Definition read (df : loc) : M frame :=
  λ h, match h !! df with
       | Some f => (inr f, h)
       | None => (inl InvalidReference, h)
       end.

Definition alloc (f : frame) : M loc :=
  λ h, let df := fresh (dom h) in (inr df, <[df := f]> h).

Definition write (df : loc) (f : frame) : M unit :=
  λ h, (inr (), <[df := f]> h).

(** [df.copy()] *)
Definition copy (df : loc) : M loc := f ← read df; alloc f.

(** [col in df.columns] *)
Definition contains (df : loc) (col : string) : M bool :=
  f ← read df; ret (bool_decide (is_Some (get_col col f))).

(** [df[col]]: a missing label raises [KeyError]. *)
Definition getitem (df : loc) (col : string) : M column :=
  f ← read df;
  match get_col col f with
  | Some c => ret c
  | None => raise (KeyError col)
  end.

(** [df[col] = c]: the frame itself is updated. *)
Definition setitem (df : loc) (col : string) (c : column) : M unit :=
  f ← read df; write df (set_col col c f).

(** [df.select_dtypes(include=...).columns] *)
Definition select_names (include : dtype → bool) (f : frame) : list string :=
  (filter (λ p, include (col_dtype p.2) = true) (df_columns f)).*1.

Definition select_dtypes (df : loc) (include : dtype → bool) : M (list string) :=
  f ← read df; ret (select_names include f).

(** [include=['object', 'string']] and [include=['number']]. *)
Definition is_text (d : dtype) : bool :=
  match d with object | string_dtype => true | _ => false end.

Definition is_number (d : dtype) : bool :=
  match d with int64 | float64 => true | _ => false end.

(** **** [drop_duplicates(subset=[key], keep='first')] *)

(** Equality of two keys, as the hash table of [Series.duplicated] sees
    them: [None] equals [None] and [NaN] equals [NaN], but [None] and [NaN]
    are two different keys; numbers and Booleans compare by value, as
    Python's [==] does. *)
Definition as_Z (v : value) : option Z :=
  match v with
  | VInt z => Some z
  | VBool b => Some (Z.b2z b)
  | _ => None
  end.

Definition key_eqb (a b : value) : bool :=
  match a, b with
  | VStr s, VStr t => bool_decide (s = t)
  | VNone, VNone | VNaN, VNaN => true
  | _, _ =>
      match as_Z a, as_Z b with
      | Some x, Some y => x =? y
      | _, _ =>
          match as_float a, as_float b with
          | Some x, Some y => bool_decide (x = y)
          | _, _ => false
          end
      end
  end.

(** [duplicated(keep='first')]: a row is a duplicate when an earlier row
    has an equal key. *)
Fixpoint duplicated (seen : list value) (keys : list value) : list bool :=
  match keys with
  | [] => []
  | k :: keys' => existsb (key_eqb k) seen :: duplicated (k :: seen) keys'
  end.

(** The rows of [l] that [keep] marks. *)
Fixpoint select_rows {A : Type} (keep : list bool) (l : list A) : list A :=
  match keep, l with
  | b :: keep', x :: l' =>
      if b then x :: select_rows keep' l' else select_rows keep' l'
  | _, _ => []
  end.

Definition filter_rows (keep : list bool) (f : frame) : frame :=
  Frame (select_rows keep (df_index f))
    (map (λ p, (p.1, Column (col_dtype p.2) (select_rows keep (col_values p.2))))
       (df_columns f)).

Definition is_list (v : value) : bool :=
  match v with VList _ => true | _ => false end.

(** A missing key column raises [KeyError]; a list among the keys cannot be
    hashed and raises [TypeError]. *)
Definition drop_duplicates_frame (key : string) (f : frame) : exn + frame :=
  match get_col key f with
  | None => inl (KeyError key)
  | Some c =>
      if existsb is_list (col_values c)
      then inl (TypeError "unhashable type: 'list'")
      else inr (filter_rows (map negb (duplicated [] (col_values c))) f)
  end.

(** The result is a new frame. *)
Definition drop_duplicates (df : loc) (key : string) : M loc :=
  f ← read df;
  match drop_duplicates_frame key f with
  | inl e => raise e
  | inr f' => alloc f'
  end.

(** **** [raw_to_dataframe] *)

(** The column labels: the keys of the records, in order of first
    appearance. *)
Fixpoint first_occurrences (seen : list string) (keys : list string) : list string :=
  match keys with
  | [] => []
  | k :: keys' =>
      if decide (k ∈ seen) then first_occurrences seen keys'
      else k :: first_occurrences (k :: seen) keys'
  end.

Definition keys_of (raw_data : list record) : list string :=
  first_occurrences [] (concat (map (λ r : record, r.*1) raw_data)).

(** A key that a record lacks gives NaN. *)
Definition cell (key : string) (r : record) : value :=
  default VNaN (dict_get key r).

Definition is_bool (v : value) : bool :=
  match v with VBool _ => true | _ => false end.

Definition is_None (v : value) : bool :=
  match v with VNone => true | _ => false end.

Definition is_number_or_null (v : value) : bool :=
  match v with
  | VInt _ | VFloat _ | VNone | VNaN => true
  | _ => false
  end.

Definition to_float64_cell (v : value) : value :=
  match v with
  | VInt z => VFloat (of_Z z)
  | VNone => VNaN
  | _ => v
  end.

(** The type pandas infers for a column of Python objects: integers give
    [int64], Booleans [bool], numbers with nulls [float64] (a column of
    [None] alone stays [object]), anything else [object]. *)
Definition infer_column (vs : list value) : column :=
  if forallb is_int vs then Column int64 vs
  else if forallb is_bool vs then Column bool_dtype vs
  else if forallb is_number_or_null vs && negb (forallb is_None vs)
       then Column float64 (map to_float64_cell vs)
       else Column object vs.

(** [pd.DataFrame(raw_data)] for a list of dicts. *)
Definition DataFrame (raw_data : list record) : frame :=
  Frame (seq 0 (length raw_data))
    (map (λ key, (key, infer_column (map (cell key) raw_data))) (keys_of raw_data)).

Definition raw_to_dataframe (raw_data : list record) : M loc :=
  match raw_data with
  | [] => raise (ValueError "Aucune donnée à convertir")
  | _ :: _ => alloc (DataFrame raw_data)
  end.

(** **** [clean_dataframe] *)

Definition SENTINEL : string := "Non renseigné".
Definition text_cols_to_normalize : list string :=
  ["product_name"; "brands"; "categories"].
Definition nutriscore_categories : list string :=
  ["a"; "b"; "c"; "d"; "e"; "non renseigné"].
Definition numeric_cols_to_clean : list string :=
  ["energy_100g"; "fat_100g"; "sugars_100g"; "salt_100g"; "proteins_100g"].
Definition list_cols : list string :=
  ["categories"; "packaging_tags"; "labels_tags"; "countries_tags"].

(** 1. [df_clean.drop_duplicates(subset=['code'], keep='first')] *)
Definition remove_duplicates (df_clean : loc) : M loc :=
  drop_duplicates df_clean "code".

(** 2. Missing values of the text columns. *)
Definition fill_missing_text (df_clean : loc) : M unit :=
  text_cols ← select_dtypes df_clean is_text;
  for_ text_cols (λ col,
    s ← getitem df_clean col;
    let missing_count := isnull_sum s in
    if (0 <? missing_count)%nat
    then setitem df_clean col (fillna (VStr SENTINEL) s)
    else ret ()).

(** 2. Missing values of the numeric columns. *)
Definition fill_missing_numeric (df_clean : loc) : M unit :=
  num_cols ← select_dtypes df_clean is_number;
  for_ num_cols (λ col,
    s ← getitem df_clean col;
    let missing_count := isnull_sum s in
    if (0 <? missing_count)%nat then
      match median (nums s) with
      | Some median_val => setitem df_clean col (fillna (VFloat median_val) s)
      | None => setitem df_clean col (fillna (VInt 0) s)
      end
    else ret ()).

(** 3. Text normalisation. *)
Definition normalize_texts (df_clean : loc) : M unit :=
  for_ text_cols_to_normalize (λ col,
    present ← contains df_clean col;
    if (present : bool) then
      s ← getitem df_clean col;
      setitem df_clean col (normalize_text s)
    else ret ()).

(** 4. Type conversions: the bar code and the Nutri-Score. *)
Definition convert_types (df_clean : loc) : M unit :=
  (present ← contains df_clean "code";
   if (present : bool) then
     s ← getitem df_clean "code";
     setitem df_clean "code" (astype_str s)
   else ret ());;
  (present ← contains df_clean "nutriscore_grade";
   if (present : bool) then
     s ← getitem df_clean "nutriscore_grade";
     setitem df_clean "nutriscore_grade" (Categorical nutriscore_categories s)
   else ret ()).

(** [mean_val - 3 * std_val] and [mean_val + 3 * std_val]. *)
Definition lower_bound (mean_val : option num) (std_val : num) : option num :=
  m ← mean_val; t ← fmul (of_Z 3) std_val; fsub m t.

Definition upper_bound (mean_val : option num) (std_val : num) : option num :=
  m ← mean_val; t ← fmul (of_Z 3) std_val; fadd m t.

(** 5. Numeric values: coercion, negative values, outliers. *)
Definition clean_numeric (df_clean : loc) : M unit :=
  for_ numeric_cols_to_clean (λ col,
    present ← contains df_clean col;
    if (present : bool) then
      s ← getitem df_clean col;
      setitem df_clean col (to_numeric s);;
      s ← getitem df_clean col;
      let negative_count := count is_negative s in
      (if (0 <? negative_count)%nat
       then setitem df_clean col (assign_int is_negative 0 s)
       else ret ());;
      s ← getitem df_clean col;
      if (0 <? notna_sum s)%nat then
        let mean_val := mean (nums s) in
        match std (nums s) with
        | Some std_val =>
            if fltb (of_Z 0) std_val then
              let lo := lower_bound mean_val std_val in
              let hi := upper_bound mean_val std_val in
              let outliers := count (λ v, lt_bound lo v || gt_bound hi v) s in
              if (0 <? outliers)%nat then
                setitem df_clean col (assign_float (lt_bound lo) lo s);;
                s ← getitem df_clean col;
                setitem df_clean col (assign_float (gt_bound hi) hi s)
              else ret ()
            else ret ()
        | None => ret ()
        end
      else ret ()
    else ret ()).

(** 6. Lists in the tag columns. *)
Definition flatten_lists (df_clean : loc) : M unit :=
  for_ list_cols (λ col,
    present ← contains df_clean col;
    if (present : bool) then
      s ← getitem df_clean col;
      setitem df_clean col (apply_str join_list s)
    else ret ()).

(** [clean_dataframe(df)] with [use_ai_suggestions=False]; the suggestions
    are only logged and do not touch the frames. *)
Definition clean_dataframe (df : loc) : M loc :=
  f ← read df;
  if df_empty f then ret df
  else
    df_clean ← copy df;
    df_clean ← remove_duplicates df_clean;
    fill_missing_text df_clean;;
    fill_missing_numeric df_clean;;
    normalize_texts df_clean;;
    convert_types df_clean;;
    clean_numeric df_clean;;
    flatten_lists df_clean;;
    ret df_clean.

(** The pipeline on values: the frame a program leaves behind the reference
    it returns. *)
Definition result_frame (r : (exn + loc) * gmap loc frame) : exn + frame :=
  match r with
  | (inl e, _) => inl e
  | (inr df, h) => from_option inr (inl InvalidReference) (h !! df)
  end.

(** [clean_dataframe] run on a frame that stands alone in the store. *)
Definition clean (f : frame) : exn + frame :=
  result_frame (clean_dataframe 0%nat {[ 0%nat := f ]}).

(** [clean_dataframe(raw_to_dataframe(raw_data))]. *)
Definition clean_records (raw_data : list record) : exn + frame :=
  result_frame ((df ← raw_to_dataframe raw_data; clean_dataframe df) ∅).

(** **** What each block does to the frame it updates

    The blocks of [clean_dataframe] read and assign one column at a time.
    Their effect on the frame behind [df_clean] is given here column by
    column; the proofs relate these functions to the runs of the blocks. *)

Definition fill_text_col (c : column) : column :=
  if (0 <? isnull_sum c)%nat then fillna (VStr SENTINEL) c else c.

Definition fill_numeric_col (c : column) : column :=
  if (0 <? isnull_sum c)%nat then
    match median (nums c) with
    | Some median_val => fillna (VFloat median_val) c
    | None => fillna (VInt 0) c
    end
  else c.

Definition fix_negative (c : column) : column :=
  if (0 <? count is_negative c)%nat then assign_int is_negative 0 c else c.

Definition clip_outliers (c : column) : column :=
  if (0 <? notna_sum c)%nat then
    match std (nums c) with
    | Some std_val =>
        if fltb (of_Z 0) std_val then
          let lo := lower_bound (mean (nums c)) std_val in
          let hi := upper_bound (mean (nums c)) std_val in
          if (0 <? count (λ v, lt_bound lo v || gt_bound hi v) c)%nat
          then assign_float (gt_bound hi) hi (assign_float (lt_bound lo) lo c)
          else c
        else c
    | None => c
    end
  else c.

Definition clean_numeric_col (c : column) : column :=
  clip_outliers (fix_negative (to_numeric c)).

(** The column [col], when the frame has it, goes through [g]. *)
Definition alter_col (col : string) (g : column → column) (f : frame) : frame :=
  match get_col col f with
  | Some c => set_col col (g c) f
  | None => f
  end.

Definition alter_cols (cols : list string) (g : column → column) (f : frame) : frame :=
  foldl (λ f col, alter_col col g f) f cols.

Definition fill_text_frame (f : frame) : frame :=
  alter_cols (select_names is_text f) fill_text_col f.

Definition fill_numeric_frame (f : frame) : frame :=
  alter_cols (select_names is_number f) fill_numeric_col f.

Definition normalize_frame (f : frame) : frame :=
  alter_cols text_cols_to_normalize normalize_text f.

Definition convert_frame (f : frame) : frame :=
  alter_col "nutriscore_grade" (Categorical nutriscore_categories)
    (alter_col "code" astype_str f).

Definition clean_numeric_frame (f : frame) : frame :=
  alter_cols numeric_cols_to_clean clean_numeric_col f.

Definition flatten_frame (f : frame) : frame :=
  alter_cols list_cols (apply_str join_list) f.

(** Blocks 2 to 6 in order. *)
Definition clean_steps (f : frame) : frame :=
  flatten_frame (clean_numeric_frame (convert_frame (normalize_frame
    (fill_numeric_frame (fill_text_frame f))))).

Definition clean_frame (f : frame) : exn + frame :=
  if df_empty f then inr f
  else match drop_duplicates_frame "code" f with
       | inl e => inl e
       | inr f1 => inr (clean_steps f1)
       end.

(** The rows [drop_duplicates] keeps. *)
Definition kept_rows (f : frame) : list bool :=
  match get_col "code" f with
  | Some c => map negb (duplicated [] (col_values c))
  | None => []
  end.

Definition inb (name : string) (l : list string) : bool :=
  existsb (String.eqb name) l.

(** Block 2 on one column: the fill rule of its type, if it has one. *)
Definition fill_col (c : column) : column :=
  let c := if is_text (col_dtype c) then fill_text_col c else c in
  if is_number (col_dtype c) then fill_numeric_col c else c.

(** Blocks 2 to 6 seen from the column called [name]. *)
Definition col_after (name : string) (c : column) : column :=
  let c := fill_col c in
  let c := if inb name text_cols_to_normalize then normalize_text c else c in
  let c := if String.eqb name "code" then astype_str c else c in
  let c := if String.eqb name "nutriscore_grade"
           then Categorical nutriscore_categories c else c in
  let c := if inb name numeric_cols_to_clean then clean_numeric_col c else c in
  if inb name list_cols then apply_str join_list c else c.

(** Rules 3, 4 and 6 seen from one cell of the column called [name]. *)
Definition later_rules (name : string) (v : value) : value :=
  let v := if inb name text_cols_to_normalize
           then VStr (lower (strip (py_str v))) else v in
  let v := if String.eqb name "code" then VStr (py_str v) else v in
  if inb name list_cols then join_list v else v.

(** A column without nulls, and a column of strings. *)
Definition notnull (c : column) : Prop :=
  Forall (λ v, isnull v = false) (col_values c).

Definition all_str (c : column) : Prop :=
  Forall (λ v, ∃ s, v = VStr s) (col_values c).

(** Bar codes that are all strings, or all integers. *)
Definition codes_of_one_kind (vs : list value) : Prop :=
  Forall (λ v, ∃ s, v = VStr s) vs ∨ Forall (λ v, ∃ z, v = VInt z) vs.

(** A block that, run on a store where [df] denotes [f], returns normally
    and changes the store only in that [df] now denotes [F f]. *)
Definition updates (df : loc) (body : M unit) (F : frame → frame) (f : frame) : Prop :=
  ∀ h, h !! df = Some f → body h = (inr (), <[df := F f]> h).

(** A frame as pandas builds them: distinct labels, and as many cells in
    each column as there are rows. *)
Definition wf_frame (f : frame) : Prop :=
  NoDup (names f)
  ∧ Forall (λ p, length (col_values p.2) = length (df_index f)) (df_columns f).

End Model.

(** Case analysis on a column label: one case for each label that a rule
    names, and one for all the others. *)
Ltac by_name name :=
  unfold inb, text_cols_to_normalize, numeric_cols_to_clean, list_cols in *;
  cbn [existsb] in *;
  repeat match goal with
    | |- context [String.eqb name ?s] =>
        destruct (String.eqb_spec name s) as [->|?];
        cbn [String.eqb Ascii.eqb Bool.eqb orb andb negb] in *
    | H : context [String.eqb name ?s] |- _ =>
        destruct (String.eqb_spec name s) as [->|?];
        cbn [String.eqb Ascii.eqb Bool.eqb orb andb negb] in *
    end.

(** A label that is in none of the places a membership claims. *)
Ltac not_in H :=
  exfalso; apply list_elem_of_In in H; simpl in H;
  repeat (destruct H as [H|H]; [congruence|]); exact H.

(** *** A reference arithmetic

    The worked tables below are evaluated with decimal fixed-point numbers
    (six decimals, results truncated) in place of binary64. *)

Module Fixed.

Definition scale : Z := 1000000.

Definition of_Z (z : Z) : Z := z * scale.

Definition mul (x y : Z) : Z := Z.quot (x * y) scale.

Definition sum (l : list Z) : Z := foldr Z.add 0 l.

Fixpoint insert_sorted (x : Z) (l : list Z) : list Z :=
  match l with
  | [] => [x]
  | y :: l' => if x <=? y then x :: l else y :: insert_sorted x l'
  end.

Definition sort (l : list Z) : list Z := foldr insert_sorted [] l.

Definition median (l : list Z) : option Z :=
  let sorted := sort l in
  let n := length l in
  if Nat.even n
  then a ← sorted !! (n / 2 - 1)%nat; b ← sorted !! (n / 2)%nat; Some (Z.quot (a + b) 2)
  else sorted !! (n / 2)%nat.

Definition mean (l : list Z) : option Z :=
  match l with
  | [] => None
  | _ :: _ => Some (Z.quot (sum l) (Z.of_nat (length l)))
  end.

(** The sample standard deviation ([ddof=1]): NaN below two values. *)
Definition std (l : list Z) : option Z :=
  m ← mean l;
  if (length l <? 2)%nat then None
  else Some (Z.sqrt (Z.quot (sum (map (λ x, (x - m) * (x - m)) l))
                             (Z.of_nat (length l) - 1))).

Fixpoint rstrip_zeros (s : string) : string :=
  match s with
  | EmptyString => EmptyString
  | String a s' =>
      match rstrip_zeros s' with
      | EmptyString => if Ascii.eqb a "0" then EmptyString else String a EmptyString
      | t => String a t
      end
  end.

Definition digit_char (d : Z) : ascii := ascii_of_nat (48 + Z.to_nat d).

(** The decimal digits of a natural number; [fuel] bounds their number. *)
Fixpoint decimal (fuel : nat) (n : Z) (acc : string) : string :=
  let acc := String (digit_char (n mod 10)) acc in
  match fuel with
  | O => acc
  | S fuel' => if n / 10 =? 0 then acc else decimal fuel' (n / 10) acc
  end.

Definition of_nonneg (n : Z) : string := decimal (Z.to_nat (Z.log2 n)) n EmptyString.

Definition fraction_digits (r : Z) : string :=
  match of_nonneg (scale + r) with
  | String _ digits =>
      match rstrip_zeros digits with
      | EmptyString => "0"
      | t => t
      end
  | EmptyString => "0"
  end.

(** [str] of a float: [100.0], [12.5], [-0.25]. *)
Definition to_str (x : Z) : string :=
  (if x <? 0 then "-" else "") +:+ of_nonneg (Z.abs x / scale) +:+ "."
  +:+ fraction_digits (Z.abs x mod scale).

Fixpoint split_dot (s : string) : string * option string :=
  match s with
  | EmptyString => (EmptyString, None)
  | String a s' =>
      if Ascii.eqb a "." then (EmptyString, Some s')
      else let '(i, f) := split_dot s' in (String a i, f)
  end.

Fixpoint take_digits (n : nat) (s : string) : string :=
  match n, s with
  | S n', String a s' => String a (take_digits n' s')
  | S n', EmptyString => String "0" (take_digits n' EmptyString)
  | O, _ => EmptyString
  end.

Definition parse_unsigned (s : string) : option Z :=
  match split_dot s with
  | (EmptyString, _) => None
  | (i, None) => of_Z <$> parse_digits 0 i
  | (i, Some f) =>
      ip ← parse_digits 0 i;
      _ ← parse_digits 0 f;
      fp ← parse_digits 0 (take_digits 6 f);
      Some (of_Z ip + fp)
  end.

(** A decimal literal with an optional sign. *)
Definition of_str (s : string) : option Z :=
  match s with
  | String "-"%char s' => Z.opp <$> parse_unsigned s'
  | String "+"%char s' => parse_unsigned s'
  | _ => parse_unsigned s
  end.

(** [repr] of a list of strings that need no escape. *)
Definition repr_list (items : list string) : string :=
  "[" +:+ String.concat ", " (map (λ s, "'" +:+ s +:+ "'") items) +:+ "]".

End Fixed.

#[export] Instance fixed_prims : PyPrims := {|
  num := Z;
  of_Z := Fixed.of_Z;
  fltb := Z.ltb;
  fadd := λ x y, Some (x + y);
  fsub := λ x y, Some (x - y);
  fmul := λ x y, Some (Fixed.mul x y);
  median := Fixed.median;
  mean := Fixed.mean;
  std := Fixed.std;
  str_of_float := Fixed.to_str;
  float_of_str := Fixed.of_str;
  repr_list := Fixed.repr_list
|}.

(** *** Tables of the worked runs

    Floats are written in millionths: [VFloat 12500000] is 12.5. *)

(** [test_clean_dataframe_fill_missing_text]: a text column with one null
    among two rows. *)
Definition one_null_name : list record :=
  [[("code", VStr "123"); ("name", VStr "Test"); ("value", VInt 10)];
   [("code", VStr "456"); ("name", VNone); ("value", VInt 20)]].

Definition one_null_name_cleaned : frame :=
  Frame [0; 1]%nat
    [("code", Column object [VStr "123"; VStr "456"]);
     ("name", Column object [VStr "Test"; VStr "Non renseigné"]);
     ("value", Column int64 [VInt 10; VInt 20])].

(** [test_clean_dataframe_remove_duplicates]. *)
Definition duplicate_codes : list record :=
  [[("code", VStr "123"); ("name", VStr "A"); ("value", VInt 1)];
   [("code", VStr "123"); ("name", VStr "A"); ("value", VInt 1)];
   [("code", VStr "456"); ("name", VStr "B"); ("value", VInt 2)]].

Definition duplicate_codes_cleaned : frame :=
  Frame [0; 2]%nat
    [("code", Column object [VStr "123"; VStr "456"]);
     ("name", Column object [VStr "A"; VStr "B"]);
     ("value", Column int64 [VInt 1; VInt 2])].

(** A bar code given once as a number and once as a string, with the
    energy given as text. *)
Definition mixed_codes : list record :=
  [[("code", VInt 123); ("energy_100g", VStr "abc")];
   [("code", VStr "123"); ("energy_100g", VStr "12.5")]].

(** A product whose energy is [None]. *)
Definition null_energy : list record :=
  [[("code", VStr "1"); ("energy_100g", VNone)]].

(** Energies given as text, one of them missing. *)
Definition text_energy : list record :=
  [[("code", VStr "1"); ("energy_100g", VStr "12.5")];
   [("code", VStr "2"); ("energy_100g", VNone)]].

(** A product without bar code. *)
Definition no_code : list record := [[("product_name", VStr "x")]].

(** Eleven products, ten with energy 0 and one with energy 11. *)
Definition one_outlier : list record :=
  map (λ i : nat, [("code", VStr (pretty i));
                   ("energy_100g", VInt (if (i =? 10)%nat then 11 else 0))])
    (seq 0 11).

End Transformer.

(** *** Reading the trace of a run *)

Module FetcherTrace.
Import Fetcher.

Section TraceShape.
Context {Record : Type}.

(** Each event of a trace with the event that follows it; [after] follows
    the last one. *)
Fixpoint followed_by {A : Type} (after : option A) (t : list A) : list (A * option A) :=
  match t with
  | [] => []
  | e :: t' =>
      (e, match t' with [] => after | e' :: _ => Some e' end) :: followed_by after t'
  end.

(** What may follow an event in a run of [fetch_all_data]. *)
Definition paced (e : event Record) (next : option (event Record)) : Prop :=
  match e with
  | HttpGet _ p (inr data) =>
      next = match get_products data with
             | [] => None
             | _ :: _ => if (page p <? MAX_PAGES)%nat
                         then Some (Sleep API_RATE_LIMIT) else None
             end
  | HttpGet _ p (inl failure) =>
      match next with
      | Some (Sleep seconds) => is_HTTPError failure = true ∧ seconds = 2
      | Some (HttpGet _ p' _) => page p' = S (page p)
      | None => True
      end
  | Sleep _ =>
      match next with
      | Some (HttpGet _ _ _) => True
      | _ => False
      end
  end.

(** The requests of a run in which page [first + i] is asked [attempts !! i]
    times. *)
Definition page_runs (first : nat) (attempts : list nat) : list nat :=
  concat (zip_with replicate attempts (seq first (length attempts))).

(** A request of the run for [category]: the search endpoint, with the
    parameters the loop builds for its page. *)
Definition search_request (category : string) (e : event Record) : Prop :=
  match e with
  | HttpGet endpoint p _ =>
      endpoint = "/search" ∧ p = search_params category (page p)
  | Sleep _ => True
  end.

(** What an iteration of the loop does once [fetch_page] has given [r]:
    whether the loop goes on, and the pause of the rate limit. *)
Definition step_control (r : exn + body Record) : control :=
  match r with
  | inr data => match get_products data with [] => Break | _ :: _ => Continue end
  | inl (HTTPStatusError status_code) =>
      if status_code =? 404 then Break else Continue
  | inl _ => Continue
  end.

Definition step_pause (pg : nat) (r : exn + body Record) : list (event Record) :=
  match r with
  | inr data =>
      match get_products data with
      | [] => []
      | _ :: _ => if (pg <? MAX_PAGES)%nat then [Sleep API_RATE_LIMIT] else []
      end
  | inl _ => []
  end.
End TraceShape.
End FetcherTrace.

(** *** The signs of numbers *)

Module Signs.
Import Transformer.

Section Arithmetic.
Context {prims : PyPrims}.

(** A number that is not negative. *)
Definition nonneg (x : num) : Prop := fltb x (of_Z 0) = false.

(** What the sign rule of block 5 uses of the arithmetic of binary64
    numbers: the conversion of an integer keeps its sign, the order is
    transitive, and the mean of numbers that are not negative, the triple
    of a positive number and the sum of two numbers that are not negative
    are not negative. *)
Record sign_laws : Prop := {
  sign_of_Z : ∀ z, fltb (of_Z z) (of_Z 0) = (z <? 0);
  sign_trans : ∀ x y, fltb x y = true → fltb y (of_Z 0) = true →
                      fltb x (of_Z 0) = true;
  sign_mean : ∀ l m, Forall nonneg l → mean l = Some m → nonneg m;
  sign_fmul : ∀ s t, fltb (of_Z 0) s = true → fmul (of_Z 3) s = Some t → nonneg t;
  sign_fadd : ∀ m t u, nonneg m → nonneg t → fadd m t = Some u → nonneg u
}.
End Arithmetic.
End Signs.

(** ** The shape of a normalised text *)

Module Letters.
Import Transformer.

(** An ASCII capital letter, [A] to [Z]. *)
Definition is_upper (a : ascii) : bool :=
  let n := nat_of_ascii a in ((65 <=? n) && (n <=? 90))%nat.

(** [s] is ASCII text: every byte is below 128. *)
Definition ascii_only (s : string) : bool :=
  forallb (λ a, (nat_of_ascii a <? 128)%nat) (String.list_ascii_of_string s).

(** No byte of [s] is an ASCII capital letter. *)
Definition no_capital (s : string) : Prop :=
  Forall (λ a, is_upper a = false) (String.list_ascii_of_string s).

(** [s] neither starts nor ends with a byte of ASCII white space. *)
Definition trimmed (s : string) : Prop :=
  (∀ a, head (String.list_ascii_of_string s) = Some a → is_space a = false)
  ∧ (∀ a, last (String.list_ascii_of_string s) = Some a → is_space a = false).
End Letters.

(** ** pipeline/storage.py *)

Module Storage.
Import Transformer.

(** A path, as [pathlib] holds it: its parts.  [str] joins them with the
    separator of POSIX, and two paths compare as the lists of their parts. *)
Definition path : Type := list string.

Definition str (p : path) : string := String.concat "/" p.

Fixpoint path_compare (p q : path) : comparison :=
  match p, q with
  | [], [] => Eq
  | [], _ :: _ => Lt
  | _ :: _, [] => Gt
  | a :: p', b :: q' =>
      match String.compare a b with
      | Eq => path_compare p' q'
      | c => c
      end
  end.

(** The directories of [pipeline/config.py]. *)
Definition DATA_DIR : path := ["data"].
Definition RAW_DIR : path := DATA_DIR ++ ["raw"].
Definition PROCESSED_DIR : path := DATA_DIR ++ ["processed"].

(** What [datetime.now()] returns, to the second. *)
Record datetime := Datetime {
  year : Z; month : Z; day : Z;
  hour : Z; minute : Z; second : Z
}.

(** The values a [datetime] can hold, from year 1000 on. *)
Definition valid (d : datetime) : Prop :=
  1000 ≤ year d ≤ 9999 ∧ 1 ≤ month d ≤ 12 ∧ 1 ≤ day d ≤ 31
  ∧ 0 ≤ hour d ≤ 23 ∧ 0 ≤ minute d ≤ 59 ∧ 0 ≤ second d ≤ 59.

(** The order of two comparisons, the first one deciding. *)
Definition lexicographic (c1 c2 : comparison) : comparison :=
  match c1 with Eq => c2 | _ => c1 end.

(** Earlier, same or later: field by field from the year down. *)
Definition datetime_compare (d1 d2 : datetime) : comparison :=
  lexicographic (year d1 ?= year d2)
    (lexicographic (month d1 ?= month d2)
       (lexicographic (day d1 ?= day d2)
          (lexicographic (hour d1 ?= hour d2)
             (lexicographic (minute d1 ?= minute d2)
                (second d1 ?= second d2))))).

(** The last decimal digit of [n]. *)
Definition digit (n : Z) : ascii := ascii_of_N (Z.to_N (48 + n mod 10)).

(** [%m], [%d], [%H], [%M], [%S]: two digits, zero-padded. *)
Definition two_digits (n : Z) : string :=
  String (digit (n / 10)) (String (digit n) EmptyString).

(** [%Y] for a year of four digits. *)
Definition four_digits (n : Z) : string :=
  String (digit (n / 1000)) (String (digit (n / 100)) (two_digits n)).

(** [strftime("%Y%m%d_%H%M%S")] *)
Definition strftime (d : datetime) : string :=
  four_digits (year d) +:+ two_digits (month d) +:+ two_digits (day d) +:+ "_"
  +:+ two_digits (hour d) +:+ two_digits (minute d) +:+ two_digits (second d).

(** [RAW_DIR / f"{name}_{timestamp}.json"] and
    [PROCESSED_DIR / f"{name}_{timestamp}.parquet"], for a [name] that holds
    no separator. *)
Definition raw_json_path (name : string) (now : datetime) : path :=
  RAW_DIR ++ [name +:+ "_" +:+ strftime now +:+ ".json"].

Definition parquet_path (name : string) (now : datetime) : path :=
  PROCESSED_DIR ++ [name +:+ "_" +:+ strftime now +:+ ".parquet"].

(** What the two [save_] functions can raise: the [ValueError] of their
    first check, or whatever the write of the file raises, which they log
    and raise again. *)
Inductive exn :=
| ValueError (message : string)
| WriteError.

Section WithSystem.
Context {prims : PyPrims} {World : Type}.

(** What is handed to the file system: the records for [json.dump], or the
    columns of the frame for [to_parquet(index=False)], which leaves the
    row labels out. *)
Inductive content :=
| JsonDocument (data : list record)
| ParquetTable (columns : list (string * column)).

(** A write that was attempted, and whether it went through. *)
Inductive event := Write (filepath : path) (c : content) (succeeded : bool).

Record state := State { world : World; written : list event }.

(** [datetime.now()], and the [with open(...)] / [to_parquet] block with the
    [stat] that follows it. *)
Variable datetime_now : World → datetime * World.
Variable write_file : World → path → content → bool * World.

Definition save_raw_json (data : list record) (name : string) (s : state)
  : (exn + string) * state :=
  match data with
  | [] => (inl (ValueError "Aucune donnée à sauvegarder"), s)
  | _ :: _ =>
      let '(timestamp, w) := datetime_now (world s) in
      let filepath := raw_json_path name timestamp in
      let '(succeeded, w') := write_file w filepath (JsonDocument data) in
      (if succeeded then inr (str filepath) else inl WriteError,
       State w' (written s ++ [Write filepath (JsonDocument data) succeeded]))
  end.

Definition save_parquet (df : frame) (name : string) (s : state)
  : (exn + string) * state :=
  if df_empty df then (inl (ValueError "DataFrame vide, rien à sauvegarder"), s)
  else
    let '(timestamp, w) := datetime_now (world s) in
    let filepath := parquet_path name timestamp in
    let '(succeeded, w') := write_file w filepath (ParquetTable (df_columns df)) in
    (if succeeded then inr (str filepath) else inl WriteError,
     State w' (written s ++ [Write filepath (ParquetTable (df_columns df)) succeeded])).
End WithSystem.

Arguments content {_}.
Arguments event {_}.
Arguments state {_} _.

End Storage.

(** ** pipeline/main.py *)

Module Main.
Import Transformer.

Section Pipeline.
Context {prims : PyPrims} {World : Type}.

Variable client_get :
  World → string → Fetcher.params → (Fetcher.exn + Fetcher.body record) * World.
Variable datetime_now : World → Storage.datetime * World.
Variable write_file : World → Storage.path → Storage.content → bool * World.

(** The state of a run: the outside world, the HTTP exchanges and sleeps
    so far, the frames in memory and the writes so far. *)
Record state := State {
  world : World;
  requests : list (Fetcher.event record);
  frames : gmap loc frame;
  written : list Storage.event
}.

(** The exception that ends the [try] block. *)
Inductive failure :=
| FetchFailure (e : Fetcher.fetch_error)
| TransformFailure (e : Transformer.exn)
| StorageFailure (e : Storage.exn).

(** [sys.exit(code)] *)
Inductive exit := SystemExit (code : Z).

Definition fetch_all_data (category : string) (s : state)
  : (Fetcher.fetch_error + list record) * state :=
  let '(r, s') := Fetcher.fetch_all_data client_get category
                    (Fetcher.State (world s) (requests s)) in
  (r, State (Fetcher.world s') (Fetcher.trace s') (frames s) (written s)).

Definition save_raw_json (data : list record) (name : string) (s : state)
  : (Storage.exn + string) * state :=
  let '(r, s') := Storage.save_raw_json datetime_now write_file data name
                    (Storage.State (world s) (written s)) in
  (r, State (Storage.world s') (requests s) (frames s) (Storage.written s')).

Definition save_parquet (df : frame) (name : string) (s : state)
  : (Storage.exn + string) * state :=
  let '(r, s') := Storage.save_parquet datetime_now write_file df name
                    (Storage.State (world s) (written s)) in
  (r, State (Storage.world s') (requests s) (frames s) (Storage.written s')).

(** [raw_to_dataframe] and [clean_dataframe] on the frames of the run. *)
Definition transform (raw_data : list record) (s : state)
  : (Transformer.exn + frame) * state :=
  let r := (df ← raw_to_dataframe raw_data; clean_dataframe df) (frames s) in
  (result_frame r, State (world s) (requests s) r.2 (written s)).

(** The [try] block of [run_pipeline], with [use_ai_cleaning=False]. *)
Definition pipeline (category name : string) (s : state)
  : (failure + string) * state :=
  match fetch_all_data category s with
  | (inl e, s) => (inl (FetchFailure e), s)
  | (inr raw_data, s) =>
      match save_raw_json raw_data name s with
      | (inl e, s) => (inl (StorageFailure e), s)
      | (inr raw_file, s) =>
          match transform raw_data s with
          | (inl e, s) => (inl (TransformFailure e), s)
          | (inr df_clean, s) =>
              match save_parquet df_clean name s with
              | (inl e, s) => (inl (StorageFailure e), s)
              | (inr output_path, s) => (inr output_path, s)
              end
          end
      end
  end.

(** [run_pipeline]: a [ValueError] and any other [Exception] of the block
    are logged and end in [sys.exit(1)]. *)
Definition run_pipeline (category name : string) (s : state)
  : (exit + string) * state :=
  match pipeline category name s with
  | (inl _, s) => (inl (SystemExit 1), s)
  | (inr output_path, s) => (inr output_path, s)
  end.
End Pipeline.

Arguments state {_} _.

End Main.

(** ** Inputs of more worked runs *)

Module Examples.
Import Transformer.

(** [test_clean_dataframe_normalize_text]. *)
Definition upper_case_names : list record :=
  [[("code", VStr "123"); ("product_name", VStr "  TEST Product  ");
    ("brands", VStr "  BRAND NAME  ")]].

(** Three grades: one in the list of categories, one missing, one in upper
    case. *)
Definition three_grades : list record :=
  [[("code", VStr "1"); ("nutriscore_grade", VStr "a")];
   [("code", VStr "2"); ("nutriscore_grade", VNone)];
   [("code", VStr "3"); ("nutriscore_grade", VStr "B")]].

(** Lists of categories and of labels, then a product without them. *)
Definition tagged : list record :=
  [[("code", VStr "1"); ("categories", VList ["Snacks"; "Sweet"]);
    ("labels_tags", VList ["en:organic"; "en:vegan"])];
   [("code", VStr "2"); ("categories", VNone); ("labels_tags", VNone)]].

(** [test_clean_dataframe_fill_missing_numeric]. *)
Definition one_null_value : list record :=
  [[("code", VStr "123"); ("value", VInt 10)];
   [("code", VStr "456"); ("value", VNone)];
   [("code", VStr "789"); ("value", VInt 30)]].

(** Three products, two of them without a bar code: [None] for one, NaN
    for the other. *)
Definition null_codes : frame :=
  Frame [0; 1; 2]%nat
    [("code", Column object [VStr "a"; VNone; VNaN]);
     ("value", Column float64 [VFloat 1000000; VNaN; VFloat 5000000])].

(** [test_clean_dataframe_fix_negative_values]. *)
Definition negative_values : list record :=
  [[("code", VStr "123"); ("energy_100g", VInt 100); ("sugars_100g", VInt 20)];
   [("code", VStr "456"); ("energy_100g", VInt (-50)); ("sugars_100g", VInt (-10))]].

(** The last second of January 2025 and the first one of February. *)
Definition end_of_january : Storage.datetime := Storage.Datetime 2025 1 31 23 59 59.
Definition start_of_february : Storage.datetime := Storage.Datetime 2025 2 1 0 0 0.

(** A server that has one page of two products, a clock that stands still
    and a disk that takes every file. *)
Definition one_page : list (Fetcher.exn + Fetcher.body record) :=
  [inr (Some one_null_name); inr (Some [])].
Definition still_clock {World : Type} (w : World) : Storage.datetime * World :=
  (start_of_february, w).
Definition reliable_disk {World : Type} (w : World) (filepath : Storage.path)
    (c : Storage.content) : bool * World := (true, w).

(** The frames [clean] makes of two of these tables. *)
Definition upper_case_names_cleaned : frame :=
  Frame [0]%nat [("code", Column object [VStr "123"]);
                 ("product_name", Column object [VStr "test product"]);
                 ("brands", Column object [VStr "brand name"])].

Definition negative_values_cleaned : frame :=
  Frame [0; 1]%nat
    [("code", Column object [VStr "123"; VStr "456"]);
     ("energy_100g", Column int64 [VInt 100; VInt 0]);
     ("sugars_100g", Column int64 [VInt 20; VInt 0])].
End Examples.


(** * Properties of the fetcher *)

Module FetcherProofs.
Import Fetcher.

Section Generic.
Context {Record World : Type}.
Variable client_get : World → string → params → (exn + body Record) * World.

Abbreviation state := (state Record World).
Abbreviation event := (event Record).

Lemma records_obtained_app (t1 t2 : list event) :
  records_obtained (t1 ++ t2) = records_obtained t1 ++ records_obtained t2.
Proof. unfold records_obtained. by rewrite map_app, concat_app. Qed.

Lemma fetch_page_body_trace endpoint p (s : state) :
  trace (fetch_page_body client_get endpoint p s).2
  = trace s ++ [HttpGet endpoint p (fetch_page_body client_get endpoint p s).1].
Proof. unfold fetch_page_body. by destruct (client_get _ _ _). Qed.

(** Whatever the retry loop does, the records it saw are those of the
    body it returns: failed exchanges bring nothing back. *)
Lemma retrying_obtained left k endpoint p (s : state) :
  ∃ t, trace (retrying client_get left k endpoint p s).2 = trace s ++ t
       ∧ records_obtained t
         = result_products (retrying client_get left k endpoint p s).1.
Proof.
  revert k s. induction left as [|left IH]; intros k s; simpl;
    pose proof (fetch_page_body_trace endpoint p s) as Ht;
    destruct (fetch_page_body client_get endpoint p s) as [[e|data] s1];
    simpl in Ht.
  - exists [HttpGet endpoint p (inl e)].
    by destruct (retry_if_exception_type e).
  - exists [HttpGet endpoint p (inr data)]. split; [done|]. apply app_nil_r.
  - destruct (retry_if_exception_type e); [|by exists [HttpGet endpoint p (inl e)]].
    destruct (IH (S k) (emit (Sleep (wait_exponential 1 2 10 k)) s1))
      as (t & Ht' & Hobt).
    exists ([HttpGet endpoint p (inl e); Sleep (wait_exponential 1 2 10 k)] ++ t).
    split.
    + rewrite Ht'. simpl. rewrite Ht. by rewrite <- !app_assoc.
    + by rewrite records_obtained_app.
  - exists [HttpGet endpoint p (inr data)]. split; [done|]. apply app_nil_r.
Qed.

Lemma page_step_obtained category pg acc (s : state) :
  ∃ t, trace (page_step client_get category pg acc s).2 = trace s ++ t
       ∧ (page_step client_get category pg acc s).1.2 = acc ++ records_obtained t.
Proof.
  unfold page_step, fetch_page.
  destruct (retrying_obtained 2 1 "/search" (search_params category pg) s)
    as (t & Ht & Hobt).
  destruct (retrying client_get 2 1 "/search" (search_params category pg) s)
    as [[e|data] s1]; simpl in *.
  - exists t. rewrite Hobt, app_nil_r.
    destruct e as [code| | |]; try done.
    by destruct (code =? 404).
  - destruct (get_products data) as [|x products] eqn:Hp.
    + exists t. by rewrite Hobt, app_nil_r.
    + destruct (pg <? MAX_PAGES)%nat; simpl.
      * exists (t ++ [Sleep API_RATE_LIMIT]). rewrite Ht, app_assoc. split; [done|].
        rewrite records_obtained_app, Hobt. simpl. by rewrite app_nil_r.
      * exists t. by rewrite Hobt.
Qed.

Lemma for_pages_obtained pages category acc (s : state) :
  ∃ t, trace (for_pages client_get pages category acc s).2 = trace s ++ t
       ∧ (for_pages client_get pages category acc s).1 = acc ++ records_obtained t.
Proof.
  revert acc s. induction pages as [|pg rest IH]; intros acc s; simpl.
  - exists []. by rewrite !app_nil_r.
  - destruct (page_step_obtained category pg acc s) as (t & Ht & Hacc).
    destruct (page_step client_get category pg acc s) as [[c acc'] s']; simpl in *.
    destruct c; [by exists t|].
    destruct (IH acc' s') as (t' & Ht' & Hacc').
    exists (t ++ t'). rewrite Ht', Ht, Hacc', Hacc, records_obtained_app.
    by rewrite !app_assoc.
Qed.

(** C5.  [fetch_all_data] raises its [ValueError] exactly when the HTTP
    exchanges of the run brought back zero records: in particular it
    raises when every exchange of the run carried no product, and a run
    that obtained at least one record returns normally, with exactly the
    records obtained, in the order they came. *)
Theorem fetch_all_data_no_data_iff category (w : World) :
  let r := (fetch_all_data client_get category (init w)).1 in
  let t := trace (fetch_all_data client_get category (init w)).2 in
  (r = inl (ValueError category) ↔ length (records_obtained t) = 0%nat)
  ∧ (Forall (λ e, event_products e = []) t → r = inl (ValueError category))
  ∧ (records_obtained t ≠ [] → r = inr (records_obtained t)).
Proof.
  unfold fetch_all_data.
  destruct (for_pages_obtained (seq 1 MAX_PAGES) category [] (init w))
    as (t & Ht & Hacc).
  destruct (for_pages client_get (seq 1 MAX_PAGES) category [] (init w))
    as [acc s']. simpl in Ht, Hacc. subst acc.
  assert (Hfin : ∀ l : list Record,
    (finish category (l, s')).1
    = match l with [] => inl (ValueError category) | _ => inr l end
    ∧ (finish category (l, s')).2 = s') by (by intros [|x l]).
  destruct (Hfin (records_obtained t)) as [Hr Hs]. cbv zeta.
  rewrite Hr, Hs, Ht. clear Hr Hs Hfin Ht. split_and!.
  - destruct (records_obtained t); simpl; split; congruence.
  - intros Hall. replace (records_obtained t) with (@nil Record); [done|].
    symmetry. unfold records_obtained.
    induction Hall as [|e t' He _ IH]; simpl; [done|]. by rewrite He, IH.
  - by destruct (records_obtained t).
Qed.

(** C4 (amended).  A call of [fetch_page] makes one to three attempts at
    the same request and returns the outcome of the last one.  An
    attempt is followed by another one exactly when it failed with an
    [httpx.HTTPError] and was not the third: that class holds the
    network and timeout failures and the 4xx/5xx status errors alike, so
    a status error is retried too and only surfaces from the third
    attempt; an exception outside the class surfaces at once.  Between
    two attempts the call sleeps, 2 seconds each time: the waits of the
    policy start at 2 seconds, double from the third attempt on and are
    capped at 10 seconds. *)
Theorem fetch_page_retry_policy endpoint p (w : World) :
  let r := (fetch_page client_get endpoint p (init w)).1 in
  let t := trace (fetch_page client_get endpoint p (init w)).2 in
  let n := length (outcomes t) in
  (1 ≤ n ≤ 3)%nat
  ∧ Forall (λ e, match e with
                 | HttpGet endpoint' p' _ => endpoint' = endpoint ∧ p' = p
                 | Sleep _ => True
                 end) t
  ∧ last (outcomes t) = Some r
  ∧ (∀ i o, (S i < n)%nat → outcomes t !! i = Some o →
       ∃ e, o = inl e ∧ is_HTTPError e = true)
  ∧ (∀ e, r = inl e → retry_if_exception_type e = true → n = 3%nat)
  ∧ (∀ e, outcomes t !! 0%nat = Some (inl e) →
       if is_HTTPError e then (2 ≤ n)%nat else n = 1%nat ∧ r = inl e)
  ∧ (∀ e, retry_if_exception_type e = is_HTTPError e)
  ∧ (∀ status_code, is_HTTPError (HTTPStatusError status_code) = true)
  ∧ sleeps t = take (n - 1) [2; 2]
  ∧ (∀ k, (1 ≤ k)%nat → 2 ≤ wait_exponential 1 2 10 k ≤ 10)
  ∧ map (wait_exponential 1 2 10) [1; 2; 3; 4; 5; 6]%nat = [2; 2; 4; 8; 10; 10].
Proof.
  assert (Hretry : ∀ e, retry_if_exception_type e = is_HTTPError e)
    by (by intros []).
  cbv zeta. unfold fetch_page, retrying, fetch_page_body, init, emit. simpl.
  destruct (client_get w endpoint p) as [[e1|d1] w1]; simpl;
    [rewrite (Hretry e1); destruct (is_HTTPError e1) eqn:H1; simpl;
     [destruct (client_get w1 endpoint p) as [[e2|d2] w2]; simpl;
      [rewrite (Hretry e2); destruct (is_HTTPError e2) eqn:H2; simpl;
       [destruct (client_get w2 endpoint p) as [[e3|d3] w3]; simpl;
        [rewrite (Hretry e3); destruct (is_HTTPError e3) eqn:H3; simpl|]|]|]|]|].
  all: split_and!;
    try done;
    try (by repeat constructor);
    try (intros [|[|[|i]]] o Hi Ho; simplify_eq/=; try lia; by eauto);
    try (intros e He Hr; simplify_eq/=; congruence);
    try (intros e He; simplify_eq/=; rewrite ?H1; try done; lia);
    try (intros k Hk; unfold wait_exponential; lia);
    try lia.
Qed.

(** C6 (amended).  When the fetch of a page ends in an HTTP status error,
    the error does not leave [fetch_all_data].  On a 404 the loop is left
    at once: no later page is fetched, and the statements after the loop
    receive the records accumulated so far; they are returned when there
    are any, and with none of them the run ends in the [ValueError] of a
    run without data.  On any other status code the accumulated records
    are kept as they are and the loop goes on with the next page number. *)
Theorem page_status_error_handling category pg rest acc (s : state) status_code :
  (fetch_page client_get "/search" (search_params category pg) s).1
    = inl (HTTPStatusError status_code) →
  let s1 := (fetch_page client_get "/search" (search_params category pg) s).2 in
  (status_code = 404 →
     for_pages client_get (pg :: rest) category acc s = (acc, s1)
     ∧ (acc ≠ [] →
        finish category (for_pages client_get (pg :: rest) category acc s)
        = (inr acc, s1))
     ∧ (acc = [] →
        finish category (for_pages client_get (pg :: rest) category acc s)
        = (inl (ValueError category), s1)))
  ∧ (status_code ≠ 404 →
     for_pages client_get (pg :: rest) category acc s
     = for_pages client_get rest category acc s1).
Proof.
  intros Hr s1. subst s1. simpl. unfold page_step.
  destruct (fetch_page client_get "/search" (search_params category pg) s)
    as [r s1]. simpl in Hr. subst r. simpl. split.
  - intros ->. split_and!; [done|by destruct acc|by intros ->].
  - intros Hne. by destruct (Z.eqb_spec status_code 404).
Qed.
End Generic.

(** *** The catalogue server *)

Section Catalogue.
Context {Record : Type}.
Variable pages : nat → list Record.

Abbreviation state := (state Record unit).

Lemma requested_pages_app (t1 t2 : list (event Record)) :
  requested_pages (t1 ++ t2) = requested_pages t1 ++ requested_pages t2.
Proof. apply omap_app. Qed.

Lemma page_step_catalogue category pg acc (s : state) :
  let step := page_step (catalogue pages) category pg acc s in
  requested_pages (trace step.2) = requested_pages (trace s) ++ [pg]
  ∧ step.1 = match pages pg with
             | [] => (Break, acc)
             | _ :: _ => (Continue, acc ++ pages pg)
             end.
Proof.
  unfold page_step, fetch_page, catalogue. simpl.
  destruct (pages pg); simpl.
  - by rewrite requested_pages_app.
  - destruct (pg <? MAX_PAGES)%nat; simpl;
      by rewrite ?requested_pages_app, ?app_nil_r.
Qed.

Lemma for_pages_catalogue pgs category acc (s : state) :
  let fetched := nonempty_prefix (map pages pgs) in
  let run := for_pages (catalogue pages) pgs category acc s in
  run.1 = acc ++ concat fetched
  ∧ requested_pages (trace run.2)
    = requested_pages (trace s) ++ take (S (length fetched)) pgs.
Proof.
  revert acc s. induction pgs as [|pg pgs IH]; intros acc s; simpl.
  - by rewrite !app_nil_r.
  - destruct (page_step_catalogue category pg acc s) as [Hreq Hstep].
    destruct (page_step (catalogue pages) category pg acc s) as [[c acc'] s'].
    simpl in Hreq, Hstep. destruct (pages pg) as [|x l]; simplify_eq/=.
    + by rewrite app_nil_r.
    + destruct (IH (acc ++ x :: l) s') as [-> ->].
      by rewrite Hreq, <- !app_assoc.
Qed.
End Catalogue.

(** C1 (amended).  For a category whose pages are all served and whose
    first page is not empty, [fetch_all_data] returns the products of the
    consecutive non-empty pages, in page order from page 1 up to the first
    empty page or the limit of [MAX_PAGES] pages; their number is the sum
    of the product counts of these pages, and the pages requested are these
    pages and, below the limit, the empty page that ends the run.  For
    three pages of ten products followed by an empty page the run returns
    30 records after 4 page requests. *)
Theorem fetch_all_data_catalogue :
  (∀ (Record : Type) (pages : nat → list Record) (category : string),
     pages 1%nat ≠ [] →
     let fetched := nonempty_prefix (map pages (seq 1 MAX_PAGES)) in
     let run := fetch_all_data (catalogue pages) category (init ()) in
     run.1 = inr (concat fetched)
     ∧ length (concat fetched) = list_sum (map length fetched)
     ∧ requested_pages (trace run.2)
       = seq 1 (S (length fetched) `min` MAX_PAGES))
  ∧ (let run := fetch_all_data (catalogue three_full_pages) "chocolats" (init ()) in
     ∃ all_products, run.1 = inr all_products
       ∧ length all_products = 30%nat
       ∧ requested_pages (trace run.2) = [1; 2; 3; 4]%nat).
Proof.
  split.
  - intros Record pages category H1 fetched run. subst run. unfold fetch_all_data.
    assert (Hne : concat fetched ≠ []).
    { subst fetched. simpl. by destruct (pages 1%nat). }
    destruct (for_pages_catalogue pages (seq 1 MAX_PAGES) category [] (init ()))
      as [Hacc Hreq]. fold fetched in Hacc, Hreq.
    destruct (for_pages (catalogue pages) (seq 1 MAX_PAGES) category [] (init ()))
      as [acc s']. cbn [fst snd] in Hacc, Hreq.
    rewrite app_nil_l in Hacc. subst acc.
    split_and!.
    + by destruct (concat fetched).
    + apply length_concat.
    + replace (finish category (concat fetched, s')).2 with s'
        by (by destruct (concat fetched)).
      rewrite Hreq. apply take_seq.
  - by eexists.
Qed.

(** The scenario of C1 read off the general statement. *)
Lemma fetch_all_data_catalogue_witness :
  let run := fetch_all_data (catalogue three_full_pages) "chocolats" (init ()) in
  three_full_pages 1%nat ≠ []
  ∧ run.1 = inr (seq 0 30)
  ∧ length (seq 0 30) = 30%nat
  ∧ requested_pages (trace run.2) = [1; 2; 3; 4]%nat.
Proof.
  split; [done|].
  exact (proj1 fetch_all_data_catalogue nat three_full_pages "chocolats"
           (λ H : three_full_pages 1%nat = [], eq_ind (three_full_pages 1%nat)
              (λ l, match l with [] => False | _ :: _ => True end) I [] H)).
Defined.

(** C1 as stated fails: this category has a non-empty page (the second),
    yet the run stops at the empty first page and raises [ValueError]. *)
Lemma fetch_all_data_empty_first_page :
  second_page_only 2%nat = [0%nat]
  ∧ fetch_all_data (catalogue second_page_only) "chocolats" (init ())
    = (inl (ValueError "chocolats"),
       State () [HttpGet "/search" (search_params "chocolats" 1) (inr (Some []))]).
Proof. done. Qed.

(** C4 as stated fails: the first two attempts fail with status 500, and
    the call neither stops nor raises; it sleeps, asks again and returns
    the page of the third attempt. *)
Lemma fetch_page_retries_status_error :
  fetch_page scripted "/search" (search_params "chocolats" 1)
    (init two_failures_then_data)
  = (inr (Some [7%nat]),
     State []
       [HttpGet "/search" (search_params "chocolats" 1) (inl (HTTPStatusError 500));
        Sleep 2;
        HttpGet "/search" (search_params "chocolats" 1) (inl (HTTPStatusError 500));
        Sleep 2;
        HttpGet "/search" (search_params "chocolats" 1) (inr (Some [7%nat]))]).
Proof. reflexivity. Qed.

(** C6 as stated fails: the first page answers 404 at each of the three
    attempts, pagination ends with nothing accumulated, and the run fails
    with [ValueError] instead of returning. *)
Lemma fetch_all_data_not_found_first_page :
  fetch_all_data scripted "chocolats" (init not_found_thrice)
  = (inl (ValueError "chocolats"),
     State []
       [HttpGet "/search" (search_params "chocolats" 1) (inl (HTTPStatusError 404));
        Sleep 2;
        HttpGet "/search" (search_params "chocolats" 1) (inl (HTTPStatusError 404));
        Sleep 2;
        HttpGet "/search" (search_params "chocolats" 1) (inl (HTTPStatusError 404))]).
Proof. reflexivity. Qed.

(** C6 at work: with the records of an earlier page in hand, a page that
    answers 404 ends the run with these records, and a page that answers
    503 is passed over for the next one. *)
Lemma page_status_error_handling_witness :
  (for_pages scripted [3; 4]%nat "chocolats" [1%nat] (init not_found_thrice)).1
    = [1%nat]
  ∧ (finish "chocolats"
       (for_pages scripted [3; 4]%nat "chocolats" [1%nat] (init not_found_thrice))).1
    = inr [1%nat]
  ∧ (for_pages scripted [3; 4; 5]%nat "chocolats" [1%nat]
       (init unavailable_then_data)).1
    = [1; 7]%nat.
Proof.
  pose proof (page_status_error_handling scripted "chocolats" 3 [4%nat] [1%nat]
                (init not_found_thrice) 404 eq_refl) as [H404 _].
  pose proof (page_status_error_handling scripted "chocolats" 3 [4; 5]%nat [1%nat]
                (init unavailable_then_data) 503 eq_refl) as [_ H503].
  destruct (H404 eq_refl) as (Hloop & Hfin & _).
  split; [by rewrite Hloop|]. split; [by rewrite Hfin|].
  rewrite H503; [reflexivity|discriminate].
Defined.

End FetcherProofs.

(** * Properties of the transformer *)

Module TransformerProofs.
Import Transformer.

Section Generic.
Context {prims : PyPrims}.

(** ** Columns by label *)

Lemma lookup_update_eq name c cols :
  lookup_col name (update_col name c cols) = Some c.
Proof.
  induction cols as [|[n c0] cols IH]; simpl.
  - by rewrite decide_True.
  - destruct (decide (n = name)) as [->|Hne]; simpl.
    + by rewrite decide_True.
    + by rewrite decide_False.
Qed.

Lemma lookup_update_ne name name' c cols :
  name ≠ name' →
  lookup_col name' (update_col name c cols) = lookup_col name' cols.
Proof.
  intros Hne. induction cols as [|[n c0] cols IH]; simpl.
  - by rewrite decide_False.
  - destruct (decide (n = name)) as [->|Hn]; simpl.
    + by rewrite !decide_False.
    + by rewrite IH.
Qed.

Lemma update_update name c1 c2 cols :
  update_col name c2 (update_col name c1 cols) = update_col name c2 cols.
Proof.
  induction cols as [|[n c0] cols IH]; simpl.
  - by rewrite decide_True.
  - destruct (decide (n = name)) as [->|Hn]; simpl.
    + by rewrite decide_True.
    + by rewrite decide_False, IH.
Qed.

Lemma update_id name c cols :
  lookup_col name cols = Some c → update_col name c cols = cols.
Proof.
  induction cols as [|[n c0] cols IH]; simpl; [done|].
  destruct (decide (n = name)) as [->|Hn]; intros H; [by simplify_eq|].
  by rewrite IH.
Qed.

Lemma update_names name c cols :
  is_Some (lookup_col name cols) → (update_col name c cols).*1 = cols.*1.
Proof.
  induction cols as [|[n c0] cols IH]; simpl; [by intros [? ?]|].
  destruct (decide (n = name)) as [->|Hn]; intros H; simpl; [done|].
  f_equal. by apply IH.
Qed.

Lemma lookup_col_Some name c cols :
  lookup_col name cols = Some c → (name, c) ∈ cols.
Proof.
  induction cols as [|[n c0] cols IH]; simpl; [done|].
  destruct (decide (n = name)) as [->|Hn]; intros H.
  - simplify_eq. by left.
  - right. by apply IH.
Qed.

Lemma lookup_col_None name cols :
  lookup_col name cols = None ↔ name ∉ cols.*1.
Proof.
  induction cols as [|[n c0] cols IH]; simpl.
  - split; [intros _; apply not_elem_of_nil|done].
  - rewrite not_elem_of_cons. destruct (decide (n = name)) as [->|Hn].
    + split; [done|]. by intros [? _].
    + rewrite IH. split; [by intros H; split; [intros ->|]|by intros [_ ?]].
Qed.

Lemma lookup_col_elem name c cols :
  NoDup cols.*1 → (name, c) ∈ cols → lookup_col name cols = Some c.
Proof.
  induction cols as [|[n c0] cols IH]; simpl; intros Hnd Hin.
  - by apply elem_of_nil in Hin.
  - apply NoDup_cons in Hnd as [Hn Hnd].
    apply elem_of_cons in Hin as [Heq|Hin].
    + simplify_eq. by rewrite decide_True.
    + rewrite decide_False; [by apply IH|].
      intros ->. apply Hn. apply list_elem_of_fmap. by exists (name, c).
Qed.

Lemma lookup_col_map name (g : string → column → column) cols :
  lookup_col name (map (λ p, (p.1, g p.1 p.2)) cols) = g name <$> lookup_col name cols.
Proof.
  induction cols as [|[n c0] cols IH]; simpl; [done|].
  by destruct (decide (n = name)) as [->|Hn].
Qed.

Lemma get_set_col_eq name c f : get_col name (set_col name c f) = Some c.
Proof. apply lookup_update_eq. Qed.

Lemma get_set_col_ne name name' c f :
  name ≠ name' → get_col name' (set_col name c f) = get_col name' f.
Proof. apply lookup_update_ne. Qed.

Lemma set_col_set_col name c1 c2 f :
  set_col name c2 (set_col name c1 f) = set_col name c2 f.
Proof. unfold set_col. simpl. by rewrite update_update. Qed.

Lemma set_col_id name c f : get_col name f = Some c → set_col name c f = f.
Proof. intros H. destruct f. unfold set_col. simpl. f_equal. by apply update_id. Qed.

(** ** The frame-level functions *)

Lemma get_alter_col_eq name g f :
  get_col name (alter_col name g f) = g <$> get_col name f.
Proof.
  unfold alter_col. destruct (get_col name f) as [c|] eqn:E; simpl.
  - apply get_set_col_eq.
  - done.
Qed.

Lemma get_alter_col_ne name name' g f :
  name ≠ name' → get_col name' (alter_col name g f) = get_col name' f.
Proof.
  intros Hne. unfold alter_col. destruct (get_col name f); [|done].
  by apply get_set_col_ne.
Qed.

Lemma names_alter_col name g f : names (alter_col name g f) = names f.
Proof.
  unfold alter_col. destruct (get_col name f) as [c|] eqn:E; [|done].
  unfold names, set_col. simpl. apply update_names. by exists c.
Qed.

Lemma index_alter_col name g f : df_index (alter_col name g f) = df_index f.
Proof. unfold alter_col. by destruct (get_col name f). Qed.

Lemma alter_col_id name g f :
  (∀ c, get_col name f = Some c → g c = c) → alter_col name g f = f.
Proof.
  intros H. unfold alter_col. destruct (get_col name f) as [c|] eqn:E; [|done].
  rewrite (H c eq_refl). by apply set_col_id.
Qed.

Lemma names_alter_cols cols g f : names (alter_cols cols g f) = names f.
Proof.
  unfold alter_cols. revert f. induction cols as [|col cols IH]; intros f; simpl; [done|].
  by rewrite IH, names_alter_col.
Qed.

Lemma index_alter_cols cols g f : df_index (alter_cols cols g f) = df_index f.
Proof.
  unfold alter_cols. revert f. induction cols as [|col cols IH]; intros f; simpl; [done|].
  by rewrite IH, index_alter_col.
Qed.

Lemma get_alter_cols name cols g f :
  NoDup cols →
  get_col name (alter_cols cols g f)
  = if decide (name ∈ cols) then g <$> get_col name f else get_col name f.
Proof.
  unfold alter_cols. intros Hnd. revert f.
  induction Hnd as [|col cols Hcol Hnd IH]; intros f; simpl.
  - done.
  - rewrite IH. destruct (decide (name = col)) as [->|Hne].
    + rewrite decide_False by done. rewrite decide_True by left.
      apply get_alter_col_eq.
    + rewrite (get_alter_col_ne col name) by done.
      destruct (decide (name ∈ cols)).
      * by rewrite decide_True by (by right).
      * rewrite decide_False; [done|]. by intros [?|?]%elem_of_cons.
Qed.

Lemma alter_cols_id cols g f :
  (∀ name c, name ∈ cols → get_col name f = Some c → g c = c) →
  alter_cols cols g f = f.
Proof.
  unfold alter_cols. induction cols as [|col cols IH]; intros H; simpl; [done|].
  rewrite alter_col_id.
  - apply IH. intros name c Hin. apply H. by right.
  - intros c. apply H. by left.
Qed.

(** ** Running the blocks *)

Lemma bind_inr {A B : Type} (m : M A) (k : A → M B) h a h' :
  m h = (inr a, h') → (m ≫= k) h = k a h'.
Proof. intros H. unfold mbind, M_bind, bind. by rewrite H. Qed.

Lemma bind_inl {A B : Type} (m : M A) (k : A → M B) h e h' :
  m h = (inl e, h') → (m ≫= k) h = (inl e, h').
Proof. intros H. unfold mbind, M_bind, bind. by rewrite H. Qed.

Lemma read_run df h f : h !! df = Some f → read df h = (inr f, h).
Proof. intros H. unfold read. by rewrite H. Qed.

Lemma getitem_run df col h f c :
  h !! df = Some f → get_col col f = Some c → getitem df col h = (inr c, h).
Proof.
  intros Hh Hc. unfold getitem. rewrite (bind_inr _ _ _ _ _ (read_run _ _ _ Hh)).
  by rewrite Hc.
Qed.

Lemma setitem_run df col c h f :
  h !! df = Some f → setitem df col c h = (inr (), <[df := set_col col c f]> h).
Proof.
  intros Hh. unfold setitem. by rewrite (bind_inr _ _ _ _ _ (read_run _ _ _ Hh)).
Qed.

Lemma contains_run df col h f :
  h !! df = Some f →
  contains df col h = (inr (bool_decide (is_Some (get_col col f))), h).
Proof.
  intros Hh. unfold contains. by rewrite (bind_inr _ _ _ _ _ (read_run _ _ _ Hh)).
Qed.

Lemma select_dtypes_run df include h f :
  h !! df = Some f → select_dtypes df include h = (inr (select_names include f), h).
Proof.
  intros Hh. unfold select_dtypes. by rewrite (bind_inr _ _ _ _ _ (read_run _ _ _ Hh)).
Qed.

Lemma updates_seq df (m1 m2 : M unit) F1 F2 f :
  updates df m1 F1 f → updates df m2 F2 (F1 f) →
  updates df (m1;; m2) (λ f, F2 (F1 f)) f.
Proof.
  intros H1 H2 h Hh. rewrite (bind_inr _ _ _ _ _ (H1 h Hh)).
  rewrite (H2 (<[df := F1 f]> h)) by apply lookup_insert_eq.
  by rewrite insert_insert_eq.
Qed.

Lemma updates_ret df f : updates df (ret ()) (λ f, f) f.
Proof. intros h Hh. unfold ret. by rewrite insert_id. Qed.

Lemma updates_ext df m F G f : F f = G f → updates df m F f → updates df m G f.
Proof. intros Heq H h Hh. rewrite <- Heq. by apply H. Qed.

Lemma updates_setitem df col (k : column → column) (c : column) f :
  get_col col f = Some c →
  updates df (setitem df col (k c)) (alter_col col k) f.
Proof.
  intros Hc h Hh. rewrite (setitem_run _ _ _ _ _ Hh). unfold alter_col. by rewrite Hc.
Qed.

Lemma updates_getitem df col (k : column → M unit) F f c :
  get_col col f = Some c → updates df (k c) F f →
  updates df (getitem df col ≫= k) F f.
Proof.
  intros Hc H h Hh. rewrite (bind_inr _ _ _ _ _ (getitem_run _ _ _ _ _ Hh Hc)).
  by apply H.
Qed.

Lemma updates_contains df col (k : bool → M unit) F f :
  updates df (k (bool_decide (is_Some (get_col col f)))) F f →
  updates df (contains df col ≫= k) F f.
Proof.
  intros H h Hh. rewrite (bind_inr _ _ _ _ _ (contains_run _ col _ _ Hh)).
  by apply H.
Qed.

Lemma updates_for df (body : string → M unit) (g : column → column)
    (I : frame → Prop) cols f :
  (∀ col f, col ∈ cols → I f → updates df (body col) (alter_col col g) f) →
  (∀ col f, I f → I (alter_col col g f)) →
  I f → updates df (for_ cols body) (alter_cols cols g) f.
Proof.
  intros Hbody Hinv. revert f. unfold alter_cols.
  induction cols as [|col cols IH]; intros f HI; simpl.
  - apply updates_ret.
  - apply (updates_seq df _ _ (alter_col col g)
             (λ f, foldl (λ f col, alter_col col g f) f cols)).
    + apply Hbody; [by left|done].
    + apply IH; [|by apply Hinv].
      intros col' f' Hin. apply Hbody. by right.
Qed.

(** The guarded shape [if col in df.columns: df[col] = g(df[col])]. *)
Lemma updates_guarded df col (g : column → column) f :
  updates df
    (present ← contains df col;
     if (present : bool) then s ← getitem df col; setitem df col (g s) else ret ())
    (alter_col col g) f.
Proof.
  apply updates_contains. destruct (get_col col f) as [c|] eqn:Hc.
  - rewrite bool_decide_true by (by exists c).
    apply (updates_getitem _ _ _ _ _ c Hc). by apply updates_setitem.
  - rewrite bool_decide_false by (by intros [? ?]).
    apply (updates_ext _ _ (λ f, f)); [|apply updates_ret].
    unfold alter_col. by rewrite Hc.
Qed.

Lemma updates_assign df col (g : column → column) (c c' : column) f :
  get_col col f = Some c → c' = g c →
  updates df (setitem df col c') (alter_col col g) f.
Proof. intros Hc ->. by apply updates_setitem. Qed.

Lemma updates_skip df col (g : column → column) (c : column) f :
  get_col col f = Some c → g c = c →
  updates df (ret ()) (alter_col col g) f.
Proof.
  intros Hc Hg. apply (updates_ext _ _ (λ f, f)); [|apply updates_ret].
  symmetry. apply alter_col_id. intros c' Hc'. by simplify_eq.
Qed.

Lemma alter_col_alter_col col g1 g2 f :
  alter_col col g2 (alter_col col g1 f) = alter_col col (λ c, g2 (g1 c)) f.
Proof.
  unfold alter_col at 1. rewrite get_alter_col_eq. unfold alter_col.
  destruct (get_col col f) as [c|]; simpl; [|done].
  apply set_col_set_col.
Qed.

Lemma select_names_present include col f :
  col ∈ select_names include f → is_Some (get_col col f).
Proof.
  unfold select_names. intros Hin.
  apply list_elem_of_fmap in Hin as ([n c] & -> & Hin).
  apply list_elem_of_filter in Hin as [_ Hin]. simpl.
  destruct (get_col n f) as [c'|] eqn:E; [by exists c'|].
  apply lookup_col_None in E. exfalso. apply E.
  apply list_elem_of_fmap. by exists (n, c).
Qed.

Lemma is_Some_get_alter_col col col' g f :
  is_Some (get_col col' f) → is_Some (get_col col' (alter_col col g f)).
Proof.
  intros [c Hc]. destruct (decide (col = col')) as [->|Hne].
  - rewrite get_alter_col_eq, Hc. by eexists.
  - rewrite get_alter_col_ne by done. by exists c.
Qed.

Lemma fill_missing_text_updates df f :
  updates df (fill_missing_text df) fill_text_frame f.
Proof.
  intros h Hh. unfold fill_missing_text, fill_text_frame.
  rewrite (bind_inr _ _ _ _ _ (select_dtypes_run _ is_text _ _ Hh)).
  revert h Hh.
  apply (updates_for df _ fill_text_col
           (λ f', ∀ col, col ∈ select_names is_text f → is_Some (get_col col f'))).
  - intros col f' Hin HI. destruct (HI col Hin) as [c Hc].
    apply (updates_getitem _ _ _ _ _ c Hc). cbv zeta.
    destruct (0 <? isnull_sum c)%nat eqn:E.
    + apply (updates_assign _ _ _ c); [done|]. unfold fill_text_col. by rewrite E.
    + apply (updates_skip _ _ _ c); [done|]. unfold fill_text_col. by rewrite E.
  - intros col f' HI col' Hin. by apply is_Some_get_alter_col, HI.
  - intros col. apply select_names_present.
Qed.

Lemma fill_missing_numeric_updates df f :
  updates df (fill_missing_numeric df) fill_numeric_frame f.
Proof.
  intros h Hh. unfold fill_missing_numeric, fill_numeric_frame.
  rewrite (bind_inr _ _ _ _ _ (select_dtypes_run _ is_number _ _ Hh)).
  revert h Hh.
  apply (updates_for df _ fill_numeric_col
           (λ f', ∀ col, col ∈ select_names is_number f → is_Some (get_col col f'))).
  - intros col f' Hin HI. destruct (HI col Hin) as [c Hc].
    apply (updates_getitem _ _ _ _ _ c Hc). cbv zeta.
    destruct (0 <? isnull_sum c)%nat eqn:E.
    + destruct (median (nums c)) as [median_val|] eqn:Em;
        (apply (updates_assign _ _ _ c); [done|]);
        unfold fill_numeric_col; by rewrite E, Em.
    + apply (updates_skip _ _ _ c); [done|]. unfold fill_numeric_col. by rewrite E.
  - intros col f' HI col' Hin. by apply is_Some_get_alter_col, HI.
  - intros col. apply select_names_present.
Qed.

Lemma normalize_texts_updates df f :
  updates df (normalize_texts df) normalize_frame f.
Proof.
  apply (updates_for df _ normalize_text (λ _, True)); [|done..].
  intros col f' _ _. apply updates_guarded.
Qed.

Lemma convert_types_updates df f :
  updates df (convert_types df) convert_frame f.
Proof.
  apply (updates_seq df _ _ (alter_col "code" astype_str)
           (alter_col "nutriscore_grade" (Categorical nutriscore_categories)));
    apply updates_guarded.
Qed.

Lemma flatten_lists_updates df f :
  updates df (flatten_lists df) flatten_frame f.
Proof.
  apply (updates_for df _ (apply_str join_list) (λ _, True)); [|done..].
  intros col f' _ _. apply updates_guarded.
Qed.

Lemma clean_numeric_body_updates df col f c :
  get_col col f = Some c →
  updates df
    (setitem df col (to_numeric c);;
     s ← getitem df col;
     let negative_count := count is_negative s in
     (if (0 <? negative_count)%nat
      then setitem df col (assign_int is_negative 0 s)
      else ret ());;
     s ← getitem df col;
     if (0 <? notna_sum s)%nat then
       let mean_val := mean (nums s) in
       match std (nums s) with
       | Some std_val =>
           if fltb (of_Z 0) std_val then
             let lo := lower_bound mean_val std_val in
             let hi := upper_bound mean_val std_val in
             let outliers := count (λ v, lt_bound lo v || gt_bound hi v) s in
             if (0 <? outliers)%nat then
               setitem df col (assign_float (lt_bound lo) lo s);;
               s ← getitem df col;
               setitem df col (assign_float (gt_bound hi) hi s)
             else ret ()
           else ret ()
       | None => ret ()
       end
     else ret ())
    (alter_col col clean_numeric_col) f.
Proof.
  intros Hc.
  apply (updates_ext _ _
           (λ f, alter_col col (λ c, clip_outliers (fix_negative c))
                   (alter_col col to_numeric f)));
    [by rewrite alter_col_alter_col|].
  apply (updates_seq df _ _ (alter_col col to_numeric)
           (alter_col col (λ c, clip_outliers (fix_negative c)))).
  { by apply (updates_assign _ _ _ c). }
  assert (Hc1 : get_col col (alter_col col to_numeric f) = Some (to_numeric c))
    by (by rewrite get_alter_col_eq, Hc).
  set (f1 := alter_col col to_numeric f) in *. set (c1 := to_numeric c) in *.
  apply (updates_getitem _ _ _ _ _ c1 Hc1). cbv zeta.
  apply (updates_ext _ _
           (λ f, alter_col col clip_outliers (alter_col col fix_negative f)));
    [by rewrite alter_col_alter_col|].
  apply (updates_seq df _ _ (alter_col col fix_negative) (alter_col col clip_outliers)).
  { destruct (0 <? count is_negative c1)%nat eqn:E.
    - apply (updates_assign _ _ _ c1); [done|]. unfold fix_negative. by rewrite E.
    - apply (updates_skip _ _ _ c1); [done|]. unfold fix_negative. by rewrite E. }
  assert (Hc2 : get_col col (alter_col col fix_negative f1) = Some (fix_negative c1))
    by (by rewrite get_alter_col_eq, Hc1).
  set (f2 := alter_col col fix_negative f1) in *. set (c2 := fix_negative c1) in *.
  apply (updates_getitem _ _ _ _ _ c2 Hc2).
  destruct (0 <? notna_sum c2)%nat eqn:E1;
    [|apply (updates_skip _ _ _ c2); [done|]; unfold clip_outliers; by rewrite E1].
  destruct (std (nums c2)) as [std_val|] eqn:E2;
    [|apply (updates_skip _ _ _ c2); [done|]; unfold clip_outliers; by rewrite E1, E2].
  destruct (fltb (of_Z 0) std_val) eqn:E3;
    [|apply (updates_skip _ _ _ c2); [done|]; unfold clip_outliers; by rewrite E1, E2, E3].
  cbv zeta.
  set (lo := lower_bound (mean (nums c2)) std_val).
  set (hi := upper_bound (mean (nums c2)) std_val).
  destruct (0 <? count (λ v, lt_bound lo v || gt_bound hi v) c2)%nat eqn:E4;
    [|apply (updates_skip _ _ _ c2); [done|]; unfold clip_outliers;
      rewrite E1, E2, E3; fold lo hi; by rewrite E4].
  assert (Hclip : clip_outliers c2
                  = assign_float (gt_bound hi) hi (assign_float (lt_bound lo) lo c2)).
  { unfold clip_outliers. rewrite E1, E2, E3. fold lo hi. by rewrite E4. }
  apply (updates_ext _ _
           (λ f, alter_col col (assign_float (gt_bound hi) hi)
                   (alter_col col (assign_float (lt_bound lo) lo) f))).
  { rewrite alter_col_alter_col. unfold alter_col. by rewrite Hc2, Hclip. }
  apply (updates_seq df _ _ (alter_col col (assign_float (lt_bound lo) lo))
           (alter_col col (assign_float (gt_bound hi) hi))).
  { by apply (updates_assign _ _ _ c2). }
  assert (Hc3 : get_col col (alter_col col (assign_float (lt_bound lo) lo) f2)
                = Some (assign_float (lt_bound lo) lo c2))
    by (by rewrite get_alter_col_eq, Hc2).
  apply (updates_getitem _ _ _ _ _ _ Hc3).
  by apply (updates_assign _ _ _ (assign_float (lt_bound lo) lo c2)).
Qed.

Lemma clean_numeric_updates df f :
  updates df (clean_numeric df) clean_numeric_frame f.
Proof.
  apply (updates_for df _ clean_numeric_col (λ _, True)); [|done..].
  intros col f' _ _. apply updates_contains.
  destruct (get_col col f') as [c|] eqn:Hc.
  - rewrite bool_decide_true by (by exists c).
    apply (updates_getitem _ _ _ _ _ c Hc).
    by apply clean_numeric_body_updates.
  - rewrite bool_decide_false by (by intros [? ?]).
    apply (updates_ext _ _ (λ f, f)); [|apply updates_ret].
    unfold alter_col. by rewrite Hc.
Qed.

Lemma clean_steps_updates df f :
  updates df
    (fill_missing_text df;; fill_missing_numeric df;; normalize_texts df;;
     convert_types df;; clean_numeric df;; flatten_lists df)
    clean_steps f.
Proof.
  unfold clean_steps.
  apply (updates_seq df _ _ fill_text_frame
           (λ f, flatten_frame (clean_numeric_frame (convert_frame (normalize_frame
              (fill_numeric_frame f)))))); [apply fill_missing_text_updates|].
  apply (updates_seq df _ _ fill_numeric_frame
           (λ f, flatten_frame (clean_numeric_frame (convert_frame
              (normalize_frame f))))); [apply fill_missing_numeric_updates|].
  apply (updates_seq df _ _ normalize_frame
           (λ f, flatten_frame (clean_numeric_frame (convert_frame f))));
    [apply normalize_texts_updates|].
  apply (updates_seq df _ _ convert_frame
           (λ f, flatten_frame (clean_numeric_frame f)));
    [apply convert_types_updates|].
  apply (updates_seq df _ _ clean_numeric_frame flatten_frame);
    [apply clean_numeric_updates|apply flatten_lists_updates].
Qed.

(** The run of [clean_dataframe]: an empty frame is returned as it is, by
    the same reference; otherwise the copy and the frame without
    duplicates are new objects, and only the latter is assigned to. *)
Lemma clean_dataframe_run df h f :
  h !! df = Some f →
  clean_dataframe df h
  = if df_empty f then (inr df, h)
    else
      let copied := fresh (dom h) in
      let h1 := <[copied := f]> h in
      match drop_duplicates_frame "code" f with
      | inl e => (inl e, h1)
      | inr f1 =>
          let df_clean := fresh (dom h1) in
          (inr df_clean, <[df_clean := clean_steps f1]> h1)
      end.
Proof.
  intros Hh. unfold clean_dataframe.
  rewrite (bind_inr _ _ _ _ _ (read_run _ _ _ Hh)).
  destruct (df_empty f); [done|]. cbv zeta.
  set (copied := fresh (dom h)). set (h1 := <[copied := f]> h).
  assert (Hcopy : copy df h = (inr copied, h1)).
  { unfold copy. by rewrite (bind_inr _ _ _ _ _ (read_run _ _ _ Hh)). }
  rewrite (bind_inr _ _ _ _ _ Hcopy).
  assert (Hh1 : h1 !! copied = Some f) by apply lookup_insert_eq.
  assert (Hdd : remove_duplicates copied h1
                = match drop_duplicates_frame "code" f with
                  | inl e => (inl e, h1)
                  | inr f1 => (inr (fresh (dom h1)), <[fresh (dom h1) := f1]> h1)
                  end).
  { unfold remove_duplicates, drop_duplicates.
    rewrite (bind_inr _ _ _ _ _ (read_run _ _ _ Hh1)).
    by destruct (drop_duplicates_frame "code" f). }
  destruct (drop_duplicates_frame "code" f) as [e|f1].
  - by rewrite (bind_inl _ _ _ _ _ Hdd).
  - set (df_clean := fresh (dom h1)) in *. set (h2 := <[df_clean := f1]> h1) in *.
    rewrite (bind_inr _ _ _ _ _ Hdd).
    assert (Hh2 : h2 !! df_clean = Some f1) by apply lookup_insert_eq.
    pose proof (clean_steps_updates df_clean f1 h2 Hh2) as Hrun.
    assert (Hassoc : ∀ (m1 m2 m3 m4 m5 m6 : M unit) (k : M loc) h,
      (m1;; m2;; m3;; m4;; m5;; m6;; k) h
      = ((m1;; m2;; m3;; m4;; m5;; m6) ≫= λ _, k) h).
    { intros. unfold mbind, M_bind, bind.
      destruct (m1 h0) as [[?|?] ?]; [done|].
      destruct (m2 g) as [[?|?] ?]; [done|].
      destruct (m3 g0) as [[?|?] ?]; [done|].
      destruct (m4 g1) as [[?|?] ?]; [done|].
      destruct (m5 g2) as [[?|?] ?]; [done|].
      by destruct (m6 g3) as [[?|?] ?]. }
    rewrite Hassoc, (bind_inr _ _ _ _ _ Hrun).
    unfold h2. by rewrite insert_insert_eq.
Qed.

(** [clean] computes [clean_frame]. *)
Lemma clean_clean_frame f : clean f = clean_frame f.
Proof.
  unfold clean, clean_frame.
  rewrite (clean_dataframe_run 0%nat {[0%nat := f]} f) by apply lookup_singleton_eq.
  destruct (df_empty f); simpl; [by rewrite lookup_singleton_eq|].
  destruct (drop_duplicates_frame "code" f) as [e|f1]; simpl; [done|].
  by rewrite lookup_insert_eq.
Qed.

(** ** The columns of the cleaned frame *)

Lemma inb_decide {A : Type} name l (x y : A) :
  (if decide (name ∈ l) then x else y) = if inb name l then x else y.
Proof.
  unfold inb. destruct (existsb (String.eqb name) l) eqn:E.
  - apply existsb_exists in E as (n & Hin & Heq%String.eqb_eq). subst n.
    by rewrite decide_True by (by apply list_elem_of_In).
  - rewrite decide_False; [done|]. intros Hin%list_elem_of_In.
    assert (existsb (String.eqb name) l = true); [|congruence].
    apply existsb_exists. exists name. split; [done|apply String.eqb_refl].
Qed.

Lemma eqb_decide {A : Type} (name name' : string) (x y : A) :
  (if decide (name = name') then x else y) = if String.eqb name name' then x else y.
Proof.
  destruct (String.eqb_spec name name') as [->|Hne].
  - by rewrite decide_True.
  - by rewrite decide_False.
Qed.

Lemma get_alter_col name name' g f :
  get_col name (alter_col name' g f)
  = (λ c, if String.eqb name name' then g c else c) <$> get_col name f.
Proof.
  destruct (String.eqb_spec name name') as [->|Hne].
  - apply get_alter_col_eq.
  - rewrite get_alter_col_ne by done. by destruct (get_col name f).
Qed.

Lemma get_alter_cols_inb name cols g f :
  NoDup cols →
  get_col name (alter_cols cols g f)
  = (λ c, if inb name cols then g c else c) <$> get_col name f.
Proof.
  intros Hnd. rewrite get_alter_cols by done. rewrite inb_decide.
  destruct (inb name cols); [done|]. by destruct (get_col name f).
Qed.

Lemma NoDup_select_names include f : NoDup (names f) → NoDup (select_names include f).
Proof.
  unfold names, select_names. intros Hnd.
  eapply sublist_NoDup; [exact Hnd|]. apply fmap_sublist, sublist_filter.
Qed.

Lemma elem_of_select_names include name f :
  NoDup (names f) →
  name ∈ select_names include f
  ↔ ∃ c, get_col name f = Some c ∧ include (col_dtype c) = true.
Proof.
  intros Hnd. unfold select_names. rewrite list_elem_of_fmap. split.
  - intros ([n c] & -> & [Hc Hin]%list_elem_of_filter). exists c.
    split; [|done]. by apply lookup_col_elem.
  - intros (c & Hc & Hinc). exists (name, c). split; [done|].
    apply list_elem_of_filter. split; [done|]. by apply lookup_col_Some.
Qed.

Lemma get_alter_selected include name g f :
  NoDup (names f) →
  get_col name (alter_cols (select_names include f) g f)
  = (λ c, if include (col_dtype c) then g c else c) <$> get_col name f.
Proof.
  intros Hnd. rewrite get_alter_cols by by apply NoDup_select_names.
  destruct (decide (name ∈ select_names include f)) as [Hin|Hin].
  - apply elem_of_select_names in Hin as (c & Hc & Hinc); [|done].
    rewrite Hc. simpl. by rewrite Hinc.
  - destruct (get_col name f) as [c|] eqn:Hc; [|done]. simpl.
    destruct (include (col_dtype c)) eqn:Hinc; [|done].
    exfalso. apply Hin. apply elem_of_select_names; [done|]. by exists c.
Qed.

Lemma col_dtype_fill_text_col c : col_dtype (fill_text_col c) = col_dtype c.
Proof. unfold fill_text_col. by destruct (0 <? isnull_sum c)%nat. Qed.

Lemma col_dtype_fill_numeric_col c : col_dtype (fill_numeric_col c) = col_dtype c.
Proof.
  unfold fill_numeric_col. destruct (0 <? isnull_sum c)%nat; [|done].
  by destruct (median (nums c)).
Qed.

Lemma names_clean_steps f : names (clean_steps f) = names f.
Proof.
  unfold clean_steps, flatten_frame, clean_numeric_frame, convert_frame,
    normalize_frame, fill_numeric_frame, fill_text_frame.
  by rewrite !names_alter_cols, !names_alter_col, !names_alter_cols.
Qed.

Lemma index_clean_steps f : df_index (clean_steps f) = df_index f.
Proof.
  unfold clean_steps, flatten_frame, clean_numeric_frame, convert_frame,
    normalize_frame, fill_numeric_frame, fill_text_frame.
  by rewrite !index_alter_cols, !index_alter_col, !index_alter_cols.
Qed.

Lemma NoDup_text_cols_to_normalize : NoDup text_cols_to_normalize.
Proof. apply (bool_decide_unpack _). by vm_compute. Qed.

Lemma NoDup_numeric_cols_to_clean : NoDup numeric_cols_to_clean.
Proof. apply (bool_decide_unpack _). by vm_compute. Qed.

Lemma NoDup_list_cols : NoDup list_cols.
Proof. apply (bool_decide_unpack _). by vm_compute. Qed.

(** Blocks 2 to 6 act on each column by [col_after]. *)
Lemma get_clean_steps name f :
  NoDup (names f) →
  get_col name (clean_steps f) = col_after name <$> get_col name f.
Proof.
  intros Hnd. unfold clean_steps, flatten_frame, clean_numeric_frame, convert_frame,
    normalize_frame, fill_numeric_frame.
  rewrite get_alter_cols_inb by apply NoDup_list_cols.
  rewrite get_alter_cols_inb by apply NoDup_numeric_cols_to_clean.
  rewrite !get_alter_col.
  rewrite get_alter_cols_inb by apply NoDup_text_cols_to_normalize.
  assert (Hnd2 : NoDup (names (fill_text_frame f)))
    by (unfold fill_text_frame; by rewrite names_alter_cols).
  rewrite get_alter_selected by done.
  unfold fill_text_frame. rewrite get_alter_selected by done.
  destruct (get_col name f) as [c|]; [|done]. simpl. by unfold col_after, fill_col.
Qed.

Lemma get_filter_rows name keep f :
  get_col name (filter_rows keep f)
  = (λ c, Column (col_dtype c) (select_rows keep (col_values c))) <$> get_col name f.
Proof.
  unfold get_col, filter_rows. simpl.
  apply (lookup_col_map name (λ _ c, Column (col_dtype c) (select_rows keep (col_values c)))).
Qed.

Lemma names_filter_rows keep f : names (filter_rows keep f) = names f.
Proof.
  unfold names, filter_rows. simpl.
  induction (df_columns f) as [|[n c] cols IH]; simpl; [done|]. by f_equal.
Qed.

(** ** Strings *)

Lemma to_lower_idemp a : to_lower (to_lower a) = to_lower a.
Proof. by destruct a as [[] [] [] [] [] [] [] []]. Qed.

Lemma is_space_to_lower a : is_space (to_lower a) = is_space a.
Proof. by destruct a as [[] [] [] [] [] [] [] []]. Qed.

Lemma lower_idemp s : lower (lower s) = lower s.
Proof. induction s as [|a s IH]; simpl; [done|]. by rewrite to_lower_idemp, IH. Qed.

Lemma lstrip_lower s : lstrip (lower s) = lower (lstrip s).
Proof.
  induction s as [|a s IH]; simpl; [done|].
  rewrite is_space_to_lower. by destruct (is_space a).
Qed.

Lemma rstrip_lower s : rstrip (lower s) = lower (rstrip s).
Proof.
  induction s as [|a s IH]; simpl; [done|].
  rewrite IH, is_space_to_lower.
  destruct (rstrip s); simpl; [|done]. by destruct (is_space a).
Qed.

Lemma strip_lower s : strip (lower s) = lower (strip s).
Proof. unfold strip. by rewrite lstrip_lower, rstrip_lower. Qed.

Lemma rstrip_idemp s : rstrip (rstrip s) = rstrip s.
Proof.
  induction s as [|a s IH]; simpl; [done|].
  destruct (rstrip s) as [|b t] eqn:E.
  - destruct (is_space a) eqn:Ea; simpl; [done|]. by rewrite Ea.
  - simpl in *. by rewrite IH.
Qed.

Lemma lstrip_head s :
  lstrip s = EmptyString ∨ ∃ a t, lstrip s = String a t ∧ is_space a = false.
Proof.
  induction s as [|a s IH]; simpl; [by left|].
  destruct (is_space a) eqn:Ea; [done|]. right. by exists a, s.
Qed.

Lemma rstrip_head a t :
  is_space a = false → ∃ t', rstrip (String a t) = String a t'.
Proof. intros Ha. simpl. rewrite Ha. destruct (rstrip t); by eexists. Qed.

Lemma strip_idemp s : strip (strip s) = strip s.
Proof.
  unfold strip. destruct (lstrip_head s) as [->|(a & t & -> & Ha)]; [done|].
  destruct (rstrip_head a t Ha) as [t' Ht']. rewrite Ht'.
  change (lstrip (String a t')) with (if is_space a then lstrip t' else String a t').
  rewrite Ha, <- Ht'. apply rstrip_idemp.
Qed.

Lemma lower_strip_idemp s : lower (strip (lower (strip s))) = lower (strip s).
Proof. by rewrite strip_lower, strip_idemp, lower_idemp. Qed.

(** ** Nulls *)

Lemma count_zero p c :
  count p c = 0%nat ↔ Forall (λ v, p v = false) (col_values c).
Proof.
  unfold count. induction (col_values c) as [|v vs IH]; simpl.
  - split; [by constructor|done].
  - rewrite filter_cons. destruct (decide (p v = true)) as [Hp|Hp]; simpl.
    + split; [done|]. intros [Hv _]%Forall_cons. congruence.
    + rewrite IH. rewrite Forall_cons. apply not_true_is_false in Hp. tauto.
Qed.

Lemma ltb_count_false p c :
  (0 <? count p c)%nat = false ↔ Forall (λ v, p v = false) (col_values c).
Proof. rewrite <- count_zero, Nat.ltb_ge. lia. Qed.

Lemma isnull_cast d v : isnull (cast d v) = isnull v.
Proof. by destruct d, v. Qed.

Lemma fillna_values v c :
  col_values (fillna v c)
  = map (λ x, if isnull x then cast (col_dtype c) v else x) (col_values c).
Proof. done. Qed.

Lemma notnull_fillna v c : isnull v = false → notnull (fillna v c).
Proof.
  intros Hv. unfold notnull. rewrite fillna_values. apply Forall_map, Forall_forall.
  intros x _. simpl. destruct (isnull x) eqn:Hx; [|done]. by rewrite isnull_cast.
Qed.

Lemma notnull_fill_text_col c : notnull (fill_text_col c).
Proof.
  unfold fill_text_col. destruct (0 <? isnull_sum c)%nat eqn:E.
  - by apply notnull_fillna.
  - by apply ltb_count_false in E.
Qed.

Lemma notnull_fill_numeric_col c : notnull (fill_numeric_col c).
Proof.
  unfold fill_numeric_col. destruct (0 <? isnull_sum c)%nat eqn:E.
  - destruct (median (nums c)); by apply notnull_fillna.
  - by apply ltb_count_false in E.
Qed.

Lemma fill_text_col_id c : notnull c → fill_text_col c = c.
Proof.
  intros H. unfold fill_text_col, isnull_sum.
  by rewrite (proj2 (ltb_count_false isnull c) H).
Qed.

Lemma fill_numeric_col_id c : notnull c → fill_numeric_col c = c.
Proof.
  intros H. unfold fill_numeric_col, isnull_sum.
  by rewrite (proj2 (ltb_count_false isnull c) H).
Qed.

(** The cells of a filled text column. *)
Lemma fill_text_col_values c :
  col_values (fill_text_col c)
  = map (λ v, if isnull v then VStr SENTINEL else v) (col_values c).
Proof.
  unfold fill_text_col. destruct (0 <? isnull_sum c)%nat eqn:E.
  - rewrite fillna_values. apply map_ext. intros v. by destruct (col_dtype c).
  - apply ltb_count_false in E. symmetry. rewrite <- (map_id (col_values c)) at 2.
    apply map_ext_Forall. eapply Forall_impl; [exact E|].
    intros v Hv. simpl in Hv. by rewrite Hv.
Qed.

Lemma all_str_notnull c : all_str c → notnull c.
Proof. intros H. eapply Forall_impl; [exact H|]. by intros v [s ->]. Qed.

Lemma all_str_normalize_text c : all_str (normalize_text c).
Proof. apply Forall_map, Forall_forall. intros v _. by eexists. Qed.

Lemma all_str_astype_str c : all_str (astype_str c).
Proof. apply Forall_map, Forall_forall. intros v _. by eexists. Qed.

Lemma all_str_apply_join_list c : all_str (apply_str join_list c).
Proof. apply Forall_map, Forall_forall. intros v _. destruct v; by eexists. Qed.

Lemma notnull_to_numeric c :
  is_number (col_dtype c) = true → to_numeric c = c.
Proof. unfold to_numeric. by destruct (col_dtype c). Qed.

Lemma notnull_assign_int p z c : notnull c → notnull (assign_int p z c).
Proof.
  unfold notnull, assign_int. simpl. intros H. apply Forall_map.
  eapply Forall_impl; [exact H|]. intros v Hv. simpl.
  destruct (p v); [|done]. by rewrite isnull_cast.
Qed.

Lemma notnull_assign_float p b c : notnull c → notnull (assign_float p b c).
Proof.
  unfold notnull, assign_float. intros H. destruct b as [b|]; [|done].
  destruct (existsb p (col_values c)); [|done].
  destruct (col_dtype c); simpl; apply Forall_map;
    (eapply Forall_impl; [exact H|]); intros v Hv; simpl;
    destruct (p v); try done; by destruct v.
Qed.

Lemma notnull_fix_negative c : notnull c → notnull (fix_negative c).
Proof.
  intros H. unfold fix_negative. destruct (0 <? count is_negative c)%nat; [|done].
  by apply notnull_assign_int.
Qed.

Lemma notnull_clip_outliers c : notnull c → notnull (clip_outliers c).
Proof.
  intros H. unfold clip_outliers.
  destruct (0 <? notna_sum c)%nat; [|done].
  destruct (std (nums c)) as [std_val|]; [|done].
  destruct (fltb (of_Z 0) std_val); [|done]. cbv zeta.
  destruct (0 <? count _ c)%nat; [|done].
  by do 2 apply notnull_assign_float.
Qed.

(** ** Rows *)

Lemma select_rows_all {A : Type} (keep : list bool) (l : list A) :
  Forall (λ b, b = true) keep → (length l ≤ length keep)%nat → select_rows keep l = l.
Proof.
  intros Hall. revert l. induction Hall as [|b keep -> _ IH]; intros [|x l] Hlen;
    simpl in *; try done; [lia|]. f_equal. apply IH. lia.
Qed.

Lemma elem_of_select_rows {A : Type} (keep : list bool) (l : list A) x :
  x ∈ select_rows keep l → x ∈ l.
Proof.
  revert l. induction keep as [|b keep IH]; intros [|y l]; simpl;
    try (by intros ?%elem_of_nil).
  destruct b.
  - intros [->|Hin]%elem_of_cons; [by left|]. right. by apply IH.
  - intros Hin. right. by apply IH.
Qed.

Lemma Forall_select_rows {A : Type} (P : A → Prop) keep (l : list A) :
  Forall P l → Forall P (select_rows keep l).
Proof.
  rewrite !Forall_forall. intros H x Hin. by apply H, (elem_of_select_rows keep).
Qed.

Lemma length_select_rows {A B : Type} keep (l : list A) (l' : list B) :
  length l = length l' → length (select_rows keep l) = length (select_rows keep l').
Proof.
  revert l l'. induction keep as [|b keep IH]; intros [|x l] [|y l'] Hlen;
    simpl in *; try done.
  destruct b; simpl; [f_equal|]; apply IH; lia.
Qed.

Section Keys.
Variable P : value → Prop.
Hypothesis key_eqb_eq : ∀ a b, P a → P b → key_eqb a b = bool_decide (a = b).

Lemma existsb_key_eqb k seen :
  P k → Forall P seen → existsb (key_eqb k) seen = bool_decide (k ∈ seen).
Proof.
  intros Hk. induction 1 as [|s seen Hs _ IH]; simpl.
  - done.
  - rewrite IH, key_eqb_eq by done.
    destruct (decide (k = s)) as [->|Hne].
    + rewrite (bool_decide_true (s = s)) by done. simpl.
      by rewrite bool_decide_true by left.
    + rewrite (bool_decide_false (k = s)) by done. simpl.
      apply bool_decide_ext. rewrite elem_of_cons. tauto.
Qed.

(** The keys that are kept are distinct and were not seen before. *)
Lemma kept_keys_NoDup seen ks :
  Forall P seen → Forall P ks →
  NoDup (select_rows (map negb (duplicated seen ks)) ks)
  ∧ ∀ k, k ∈ select_rows (map negb (duplicated seen ks)) ks → k ∉ seen.
Proof.
  intros Hseen Hks. revert seen Hseen.
  induction Hks as [|k ks Hk Hks IH]; intros seen Hseen; simpl.
  - split; [constructor|]. by intros k ?%elem_of_nil.
  - rewrite existsb_key_eqb by done.
    destruct (IH (k :: seen)) as [Hnd Hnot]; [by constructor|].
    destruct (decide (k ∈ seen)) as [Hin|Hin].
    + rewrite bool_decide_true by done. simpl. split; [done|].
      intros k' Hk'. apply Hnot in Hk'. by intros ?; apply Hk'; right.
    + rewrite bool_decide_false by done. simpl. split.
      * constructor; [|done]. intros Hk'%Hnot. apply Hk'. by left.
      * intros k' [->|Hk']%elem_of_cons; [done|].
        apply Hnot in Hk'. by intros ?; apply Hk'; right.
Qed.

(** Distinct keys: nothing is a duplicate. *)
Lemma duplicated_NoDup seen ks :
  Forall P seen → Forall P ks → NoDup ks → (∀ k, k ∈ ks → k ∉ seen) →
  Forall (λ b, b = true) (map negb (duplicated seen ks)).
Proof.
  intros Hseen Hks Hnd. revert seen Hseen.
  induction Hnd as [|k ks Hk Hnd IH]; intros seen Hseen Hnot; simpl; [constructor|].
  apply Forall_cons in Hks as [HPk Hks]. constructor.
  - rewrite existsb_key_eqb by done.
    rewrite bool_decide_false; [done|]. apply Hnot. by left.
  - apply IH; [done|by constructor|].
    intros k' Hk' [->|Hin]%elem_of_cons; [done|].
    by apply (Hnot k'); [right|].
Qed.
End Keys.

Lemma key_eqb_str a b :
  (∃ s, a = VStr s) → (∃ s, b = VStr s) → key_eqb a b = bool_decide (a = b).
Proof.
  intros [s ->] [t ->]. simpl. apply bool_decide_ext. split; [by intros ->|].
  by intros [= ->].
Qed.

Lemma key_eqb_int a b :
  (∃ z, a = VInt z) → (∃ z, b = VInt z) → key_eqb a b = bool_decide (a = b).
Proof.
  intros [x ->] [y ->]. simpl. destruct (Z.eqb_spec x y) as [->|Hne].
  - by rewrite bool_decide_true.
  - rewrite bool_decide_false; [done|]. by intros [= ->].
Qed.

Lemma length_duplicated seen ks : length (duplicated seen ks) = length ks.
Proof. revert seen. induction ks as [|k ks IH]; intros seen; simpl; [done|]. by rewrite IH. Qed.

(** ** One column through the blocks *)

Lemma col_dtype_fill_col c : col_dtype (fill_col c) = col_dtype c.
Proof.
  unfold fill_col. destruct (is_text (col_dtype c)) eqn:Et; cbv zeta.
  - rewrite col_dtype_fill_text_col.
    destruct (is_number (col_dtype c)); [|apply col_dtype_fill_text_col].
    by rewrite col_dtype_fill_numeric_col, col_dtype_fill_text_col.
  - destruct (is_number (col_dtype c)); [|done]. apply col_dtype_fill_numeric_col.
Qed.

Lemma notnull_fill_col c :
  is_text (col_dtype c) = true ∨ is_number (col_dtype c) = true → notnull (fill_col c).
Proof.
  unfold fill_col. intros [Ht|Hn]; cbv zeta.
  - rewrite Ht, col_dtype_fill_text_col.
    destruct (is_number (col_dtype c));
      [apply notnull_fill_numeric_col|apply notnull_fill_text_col].
  - destruct (is_text (col_dtype c)).
    + rewrite col_dtype_fill_text_col, Hn. apply notnull_fill_numeric_col.
    + rewrite Hn. apply notnull_fill_numeric_col.
Qed.

Lemma fill_col_id c : notnull c → fill_col c = c.
Proof.
  intros H. unfold fill_col. rewrite (fill_text_col_id c H).
  destruct (is_text (col_dtype c)); cbv zeta; rewrite (fill_numeric_col_id c H);
    by destruct (is_number (col_dtype c)).
Qed.

Lemma fill_col_text_values c :
  is_text (col_dtype c) = true →
  col_values (fill_col c)
  = map (λ v, if isnull v then VStr SENTINEL else v) (col_values c).
Proof.
  intros Ht. unfold fill_col. rewrite Ht. cbv zeta. rewrite col_dtype_fill_text_col.
  replace (is_number (col_dtype c)) with false by (by destruct (col_dtype c)).
  apply fill_text_col_values.
Qed.

Lemma length_fill_col c : length (col_values (fill_col c)) = length (col_values c).
Proof.
  assert (Hf : ∀ v c, length (col_values (fillna v c)) = length (col_values c))
    by (intros; apply length_map).
  assert (Ht : ∀ c, length (col_values (fill_text_col c)) = length (col_values c)).
  { intros c0. unfold fill_text_col. by destruct (0 <? isnull_sum c0)%nat. }
  assert (Hn : ∀ c, length (col_values (fill_numeric_col c)) = length (col_values c)).
  { intros c0. unfold fill_numeric_col. destruct (0 <? isnull_sum c0)%nat; [|done].
    by destruct (median (nums c0)). }
  unfold fill_col. cbv zeta.
  destruct (is_text (col_dtype c)); destruct (is_number _); by rewrite ?Hn, ?Ht.
Qed.

Lemma length_to_numeric c : length (col_values (to_numeric c)) = length (col_values c).
Proof.
  unfold to_numeric. destruct (col_dtype c); try done;
    destruct (forallb is_int _); simpl; by rewrite ?length_map.
Qed.

Lemma length_assign_float p b c :
  length (col_values (assign_float p b c)) = length (col_values c).
Proof.
  unfold assign_float. destruct b; [|done]. destruct (existsb p _); [|done].
  destruct (col_dtype c); simpl; by rewrite length_map.
Qed.

Lemma length_clean_numeric_col c :
  length (col_values (clean_numeric_col c)) = length (col_values c).
Proof.
  unfold clean_numeric_col. rewrite <- (length_to_numeric c).
  set (c1 := to_numeric c).
  assert (H2 : length (col_values (fix_negative c1)) = length (col_values c1)).
  { unfold fix_negative. destruct (0 <? _)%nat; [apply length_map|done]. }
  rewrite <- H2. set (c2 := fix_negative c1). unfold clip_outliers.
  destruct (0 <? notna_sum c2)%nat; [|done].
  destruct (std (nums c2)) as [std_val|]; [|done].
  destruct (fltb (of_Z 0) std_val); [|done]. cbv zeta.
  destruct (0 <? count _ c2)%nat; [|done].
  by rewrite !length_assign_float.
Qed.

Lemma length_col_after name c :
  length (col_values (col_after name c)) = length (col_values c).
Proof.
  unfold col_after. cbv zeta. rewrite <- (length_fill_col c).
  set (c0 := fill_col c).
  destruct (inb name list_cols), (inb name numeric_cols_to_clean),
    (String.eqb name "nutriscore_grade"), (String.eqb name "code"),
    (inb name text_cols_to_normalize);
    unfold apply_str, Categorical, astype_str, normalize_text; simpl;
    rewrite ?length_map, ?length_clean_numeric_col; simpl; by rewrite ?length_map.
Qed.

Lemma astype_str_id c : all_str c → col_dtype c = object → astype_str c = c.
Proof.
  destruct c as [d vs]. unfold all_str, astype_str. simpl. intros H ->. f_equal.
  induction H as [|v vs [s ->] _ IH]; simpl; [done|]. by f_equal.
Qed.

Lemma apply_join_list_id c :
  all_str c → col_dtype c = object → apply_str join_list c = c.
Proof.
  destruct c as [d vs]. unfold all_str, apply_str. simpl. intros H ->. f_equal.
  induction H as [|v vs [s ->] _ IH]; simpl; [done|]. by f_equal.
Qed.

Lemma normalize_text_idemp c : normalize_text (normalize_text c) = normalize_text c.
Proof.
  unfold normalize_text. simpl. f_equal. rewrite map_map. apply map_ext.
  intros v. simpl. by rewrite lower_strip_idemp.
Qed.

Lemma Categorical_idemp cats c : Categorical cats (Categorical cats c) = Categorical cats c.
Proof.
  unfold Categorical. simpl. f_equal. rewrite map_map. apply map_ext.
  intros [| |s| | | |]; try done. destruct (decide (s ∈ cats)) as [Hin|]; [|done].
  by rewrite decide_True.
Qed.

Lemma notnull_clean_numeric_col c :
  is_number (col_dtype c) = true → notnull c → notnull (clean_numeric_col c).
Proof.
  intros Hn H. unfold clean_numeric_col. rewrite (notnull_to_numeric c Hn).
  by apply notnull_clip_outliers, notnull_fix_negative.
Qed.

Lemma notnull_col_after name c :
  name ≠ "nutriscore_grade" →
  (name ∈ numeric_cols_to_clean → is_number (col_dtype c) = true) →
  is_text (col_dtype c) = true ∨ is_number (col_dtype c) = true →
  notnull (col_after name c).
Proof.
  intros Hnutri Hnum Hfill. unfold col_after. cbv zeta.
  pose proof (notnull_fill_col c Hfill) as H0.
  pose proof (col_dtype_fill_col c) as Hd.
  set (c0 := fill_col c) in *.
  assert (Hin : ∀ n, n ∈ numeric_cols_to_clean → n = name →
                     notnull (clean_numeric_col c0)).
  { intros n Hn ->. apply notnull_clean_numeric_col; [|done]. rewrite Hd. by apply Hnum. }
  by_name name; try done;
    try (by apply all_str_notnull;
         first [apply all_str_apply_join_list | apply all_str_astype_str
               | apply all_str_normalize_text]);
    try (eapply Hin; [|reflexivity]; by repeat constructor).
Qed.

(** ** The cleaned frame *)

Lemma clean_inv f f' :
  clean f = inr f' →
  (df_empty f = true ∧ f' = f)
  ∨ (df_empty f = false
     ∧ ∃ c, get_col "code" f = Some c
            ∧ existsb is_list (col_values c) = false
            ∧ kept_rows f = map negb (duplicated [] (col_values c))
            ∧ f' = clean_steps (filter_rows (kept_rows f) f)).
Proof.
  rewrite clean_clean_frame. unfold clean_frame, drop_duplicates_frame, kept_rows.
  destruct (df_empty f); [intros [= <-]; by left|].
  destruct (get_col "code" f) as [c|]; [|done].
  destruct (existsb is_list (col_values c)) eqn:E; [done|].
  intros [= <-]. right. split; [done|]. by exists c.
Qed.

Lemma get_col_cleaned name keep f :
  NoDup (names f) →
  get_col name (clean_steps (filter_rows keep f))
  = (λ c, col_after name (Column (col_dtype c) (select_rows keep (col_values c))))
      <$> get_col name f.
Proof.
  intros Hnd. rewrite get_clean_steps by by rewrite names_filter_rows.
  rewrite get_filter_rows. by destruct (get_col name f).
Qed.

Lemma empty_frame_values name f c :
  wf_frame f → df_empty f = true → get_col name f = Some c → col_values c = [].
Proof.
  intros [_ Hlen] Hempty Hc. apply lookup_col_Some in Hc.
  rewrite Forall_forall in Hlen. specialize (Hlen _ Hc). simpl in Hlen.
  unfold df_empty in Hempty. destruct (df_index f).
  - by destruct (col_values c).
  - destruct (df_columns f); [|done]. by apply elem_of_nil in Hc.
Qed.

Lemma select_rows_nil {A : Type} keep : select_rows keep (@nil A) = [].
Proof. by destruct keep. Qed.

Lemma py_str_inj_one_kind vs :
  codes_of_one_kind vs →
  ∀ x y, x ∈ vs → y ∈ vs → VStr (py_str x) = VStr (py_str y) → x = y.
Proof.
  intros [H|H] x y Hx Hy [= Heq]; rewrite Forall_forall in H.
  - destruct (H x Hx) as [s ->], (H y Hy) as [t ->]. simpl in Heq. by subst.
  - destruct (H x Hx) as [a ->], (H y Hy) as [b ->]. simpl in Heq.
    by apply (inj pretty) in Heq as ->.
Qed.

Lemma kept_codes_NoDup vs :
  codes_of_one_kind vs →
  NoDup (select_rows (map negb (duplicated [] vs)) vs).
Proof.
  intros [H|H].
  - by apply (kept_keys_NoDup _ key_eqb_str [] vs).
  - by apply (kept_keys_NoDup _ key_eqb_int [] vs).
Qed.

Lemma codes_of_one_kind_select keep vs :
  codes_of_one_kind vs → codes_of_one_kind (select_rows keep vs).
Proof. intros [H|H]; [left|right]; by apply Forall_select_rows. Qed.

Lemma codes_of_one_kind_notnull d vs : codes_of_one_kind vs → notnull (Column d vs).
Proof.
  unfold notnull. simpl.
  intros [H|H]; (eapply Forall_impl; [exact H|]); by intros v [? ->].
Qed.

Lemma col_after_code c : notnull c → col_after "code" c = astype_str c.
Proof. intros H. unfold col_after. cbv zeta. by rewrite (fill_col_id c H). Qed.

(** C2 (amended).  On a frame with distinct labels and full columns that
    [clean] accepts: when the bar codes are all strings, or all integers,
    the [code] column of the result has no duplicate; and a column that had
    a fill rule (text or numeric type) holds no null in the result, unless
    it is [nutriscore_grade] or a nutritional column of text type, whose
    later conversion may produce nulls again. *)
Theorem clean_unique_codes_no_nulls f f' :
  wf_frame f → clean f = inr f' →
  (∀ c c', get_col "code" f = Some c → codes_of_one_kind (col_values c) →
           get_col "code" f' = Some c' → NoDup (col_values c'))
  ∧ (∀ name c c', get_col name f = Some c → get_col name f' = Some c' →
       is_text (col_dtype c) = true ∨ is_number (col_dtype c) = true →
       name ≠ "nutriscore_grade" →
       (name ∈ numeric_cols_to_clean → is_number (col_dtype c) = true) →
       notnull c').
Proof.
  intros Hwf Hclean.
  destruct (clean_inv f f' Hclean)
    as [[Hempty ->]|(Hne & code & Hcode & _ & Hkept & ->)].
  - split.
    + intros c c' Hc _ Hc'. rewrite (empty_frame_values _ _ _ Hwf Hempty Hc'). constructor.
    + intros name c c' _ Hc' _ _ _. unfold notnull.
      rewrite (empty_frame_values _ _ _ Hwf Hempty Hc'). constructor.
  - destruct Hwf as [Hnd _]. split.
    + intros c c' Hc Hkind. rewrite get_col_cleaned, Hc by done. simpl.
      intros [= <-]. rewrite Hcode in Hc. injection Hc as ->.
      rewrite Hkept.
      rewrite col_after_code
        by by apply codes_of_one_kind_notnull, codes_of_one_kind_select.
      unfold astype_str. simpl.
      apply (NoDup_fmap_2_strong (λ v, VStr (py_str v))); [|by apply kept_codes_NoDup].
      apply py_str_inj_one_kind. by apply codes_of_one_kind_select.
    + intros name c c' Hc. rewrite get_col_cleaned, Hc by done. simpl.
      intros [= <-] Hfill Hnutri Hnum. by apply notnull_col_after.
Qed.

Lemma col_after_values name c :
  name ≠ "nutriscore_grade" → name ∉ numeric_cols_to_clean →
  col_values (col_after name c) = map (later_rules name) (col_values (fill_col c)).
Proof.
  intros Hnutri Hnum. unfold col_after, later_rules. cbv zeta.
  set (c0 := fill_col c).
  assert (Hout : ∀ n, n ∈ numeric_cols_to_clean → n ≠ name)
    by (by intros n Hn ->).
  assert (Hid : col_values c0 = map (λ v, v) (col_values c0)) by (by rewrite map_id).
  by_name name; try done; simpl; rewrite ?map_map; try done;
    try (exfalso; eapply Hout; [|reflexivity]; by repeat constructor).
Qed.

Lemma later_rules_other name v :
  name ∉ text_cols_to_normalize → name ≠ "code" → name ∉ list_cols →
  later_rules name v = v.
Proof.
  intros Hn Hc Hl. unfold later_rules. cbv zeta.
  by_name name; try done; exfalso;
    first [by apply Hn; repeat constructor | by apply Hl; repeat constructor].
Qed.

Lemma later_rules_plain name v :
  name ∉ text_cols_to_normalize →
  later_rules name v
  = if String.eqb name "code" then VStr (py_str v)
    else if inb name list_cols then join_list v else v.
Proof.
  intros Hn. unfold later_rules. cbv zeta.
  by_name name; try done; exfalso; by apply Hn; repeat constructor.
Qed.

(** C8 (amended).  Take a text-typed column of the input other than
    [nutriscore_grade], the nutritional columns and the three columns that
    are trimmed and lower-cased ([product_name], [brands], [categories]).
    In the rows that [clean] keeps, its cells are those of the input with
    each null replaced by the sentinel ["Non renseigné"]; the bar code is
    then converted to a string and the cells of a tag column are flattened.
    So a null comes out as the sentinel, spelt as the fill wrote it; and in
    a column that no later rule names, every other cell comes out as it
    was. *)
Theorem clean_fills_text f f' name c :
  wf_frame f → clean f = inr f' →
  get_col name f = Some c → is_text (col_dtype c) = true →
  name ≠ "nutriscore_grade" → name ∉ numeric_cols_to_clean →
  name ∉ text_cols_to_normalize →
  ∃ c', get_col name f' = Some c'
    ∧ let kept := select_rows (kept_rows f) (col_values c) in
      let filled := map (λ v, if isnull v then VStr SENTINEL else v) kept in
      col_values c'
      = (if String.eqb name "code" then map (λ v, VStr (py_str v)) filled
         else if inb name list_cols then map join_list filled
         else filled)
      ∧ Forall2 (λ v v', isnull v = true → v' = VStr SENTINEL) kept (col_values c')
      ∧ (name ≠ "code" → name ∉ list_cols →
         Forall2 (λ v v', isnull v = false → v' = v) kept (col_values c')).
Proof.
  intros Hwf Hclean Hc Htext Hnutri Hnum Hnorm.
  assert (Hvalues : ∃ c', get_col name f' = Some c'
    ∧ col_values c'
      = map (λ v, later_rules name (if isnull v then VStr SENTINEL else v))
          (select_rows (kept_rows f) (col_values c))).
  { destruct (clean_inv f f' Hclean)
      as [[Hempty ->]|(Hne & code & Hcode & _ & Hkept & ->)].
    - exists c. split; [done|].
      rewrite (empty_frame_values _ _ _ Hwf Hempty Hc). by rewrite select_rows_nil.
    - destruct Hwf as [Hnd _]. eexists. rewrite get_col_cleaned, Hc by done.
      split; [done|]. rewrite col_after_values by done.
      rewrite fill_col_text_values by done. simpl. by rewrite map_map. }
  destruct Hvalues as (c' & Hc' & Hvalues). exists c'. split; [done|]. cbv zeta.
  rewrite Hvalues. split_and!.
  - rewrite <- (map_map (λ v, if isnull v then VStr SENTINEL else v)
                  (later_rules name)).
    set (filled := map _ (select_rows _ _)).
    destruct (String.eqb name "code") eqn:Hcode;
      [|destruct (inb name list_cols) eqn:Hlist];
      [apply map_ext|apply map_ext|rewrite <- (map_id filled) at 2; apply map_ext];
      intros v; by rewrite later_rules_plain, Hcode, ?Hlist.
  - apply Forall2_fmap_r, Forall_Forall2_diag, Forall_forall.
    intros v _ ->. rewrite later_rules_plain by done.
    destruct (String.eqb name "code"); [done|]. by destruct (inb name list_cols).
  - intros Hcode Hl. apply Forall2_fmap_r, Forall_Forall2_diag, Forall_forall.
    intros v _ ->. by apply later_rules_other.
Qed.

(** ** Cleaning a cleaned frame *)

Lemma col_dtype_text_or_number_out name c :
  name ∉ numeric_cols_to_clean →
  is_text (col_dtype (col_after name c)) = true
  ∨ is_number (col_dtype (col_after name c)) = true →
  notnull (col_after name c).
Proof.
  intros Hnum. unfold col_after. cbv zeta.
  pose proof (col_dtype_fill_col c) as Hd.
  pose proof (notnull_fill_col c) as H0.
  set (c0 := fill_col c) in *.
  by_name name; intros Hout;
    try (by apply all_str_notnull;
         first [apply all_str_apply_join_list | apply all_str_astype_str
               | apply all_str_normalize_text]);
    try (by destruct Hout);
    try (by exfalso; apply Hnum; repeat constructor).
  apply H0. by rewrite <- Hd.
Qed.

Lemma col_after_normalized name c :
  name ∈ text_cols_to_normalize →
  normalize_text (col_after name c) = col_after name c.
Proof.
  intros Hin. unfold col_after. cbv zeta. set (c0 := fill_col c).
  assert (Hn : ∀ n, n ∈ text_cols_to_normalize → n = name →
    normalize_text (normalize_text c0) = normalize_text c0
    ∧ apply_str join_list (normalize_text c0) = normalize_text c0).
  { intros _ _ _. split; [apply normalize_text_idemp|].
    apply apply_join_list_id; [apply all_str_normalize_text|done]. }
  by_name name;
    try (by destruct (Hn _ Hin eq_refl) as [H1 H2]; rewrite ?H2, H1);
    not_in Hin.
Qed.

Lemma col_after_code_str c : astype_str (col_after "code" c) = col_after "code" c.
Proof.
  unfold col_after. cbv zeta.
  change (astype_str (astype_str (fill_col c)) = astype_str (fill_col c)).
  apply astype_str_id; [apply all_str_astype_str|done].
Qed.

Lemma col_after_nutriscore c :
  Categorical nutriscore_categories (col_after "nutriscore_grade" c)
  = col_after "nutriscore_grade" c.
Proof.
  unfold col_after. cbv zeta.
  change (Categorical nutriscore_categories
            (Categorical nutriscore_categories (fill_col c))
          = Categorical nutriscore_categories (fill_col c)).
  apply Categorical_idemp.
Qed.

Lemma col_after_flattened name c :
  name ∈ list_cols → apply_str join_list (col_after name c) = col_after name c.
Proof.
  intros Hin. unfold col_after. cbv zeta.
  assert (Hl : ∀ c1, apply_str join_list (apply_str join_list c1)
                     = apply_str join_list c1).
  { intros c1. apply apply_join_list_id; [apply all_str_apply_join_list|done]. }
  by_name name; try apply Hl;
    not_in Hin.
Qed.

Lemma get_col_elem name c f :
  NoDup (names f) → (name, c) ∈ df_columns f → get_col name f = Some c.
Proof. apply lookup_col_elem. Qed.

Lemma elem_get_col name c f :
  get_col name f = Some c → (name, c) ∈ df_columns f.
Proof. apply lookup_col_Some. Qed.

Lemma filter_rows_all keep f :
  Forall (λ b, b = true) keep →
  (length (df_index f) ≤ length keep)%nat →
  Forall (λ p, (length (col_values p.2) ≤ length keep)%nat) (df_columns f) →
  filter_rows keep f = f.
Proof.
  intros Hall Hidx Hcols. destruct f as [idx cols]. unfold filter_rows. simpl in *.
  rewrite select_rows_all by done. f_equal.
  induction Hcols as [|[n [d vs]] cols Hlen _ IH]; simpl in *; [done|].
  by rewrite select_rows_all, IH.
Qed.

Lemma wf_frame_cleaned keep f :
  wf_frame f → wf_frame (clean_steps (filter_rows keep f)).
Proof.
  intros [Hnd Hlen]. split.
  - by rewrite names_clean_steps, names_filter_rows.
  - rewrite Forall_forall in Hlen |- *. intros [n c'] Hin.
    assert (Hnd' : NoDup (names (clean_steps (filter_rows keep f))))
      by (by rewrite names_clean_steps, names_filter_rows).
    apply (get_col_elem n c' _ Hnd') in Hin.
    rewrite get_col_cleaned in Hin by done.
    destruct (get_col n f) as [c|] eqn:Hc; [|done].
    injection Hin as <-. cbn [snd].
    rewrite length_col_after, index_clean_steps. simpl.
    apply length_select_rows. by apply (Hlen (n, c)), lookup_col_Some.
Qed.

Lemma cleaned_column name f1 c' :
  NoDup (names f1) →
  (∀ n, n ∈ numeric_cols_to_clean → get_col n f1 = None) →
  get_col name (clean_steps f1) = Some c' →
  (name ∉ numeric_cols_to_clean) ∧ (∃ c1, c' = col_after name c1).
Proof.
  intros Hnd Hnum. rewrite get_clean_steps by done.
  destruct (get_col name f1) as [c1|] eqn:Hc1; [|done]. intros [= <-]. split.
  - intros Hin. by rewrite (Hnum name Hin) in Hc1.
  - by exists c1.
Qed.

(** A cleaned frame without nutritional columns is a fixed point of blocks
    2 to 6. *)
Lemma clean_steps_fixed f1 :
  NoDup (names f1) →
  (∀ n, n ∈ numeric_cols_to_clean → get_col n f1 = None) →
  let f' := clean_steps f1 in
  fill_text_frame f' = f' ∧ fill_numeric_frame f' = f' ∧ normalize_frame f' = f'
  ∧ convert_frame f' = f' ∧ clean_numeric_frame f' = f' ∧ flatten_frame f' = f'.
Proof.
  intros Hnd Hnum f'.
  assert (Hnd' : NoDup (names f')) by (subst f'; by rewrite names_clean_steps).
  assert (Hcol : ∀ name c', get_col name f' = Some c' →
            (name ∉ numeric_cols_to_clean) ∧ (∃ c1, c' = col_after name c1)).
  { intros name c'. by apply cleaned_column. }
  clearbody f'. split_and!.
  - apply alter_cols_id. intros name c' Hin Hc'.
    apply elem_of_select_names in Hin as (c'' & Hc'' & Ht); [|done].
    rewrite Hc' in Hc''. injection Hc'' as <-.
    destruct (Hcol name c' Hc') as (Hn & c1 & ->).
    apply fill_text_col_id, col_dtype_text_or_number_out; [done|by left].
  - apply alter_cols_id. intros name c' Hin Hc'.
    apply elem_of_select_names in Hin as (c'' & Hc'' & Ht); [|done].
    rewrite Hc' in Hc''. injection Hc'' as <-.
    destruct (Hcol name c' Hc') as (Hn & c1 & ->).
    apply fill_numeric_col_id, col_dtype_text_or_number_out; [done|by right].
  - apply alter_cols_id. intros name c' Hin Hc'.
    destruct (Hcol name c' Hc') as (Hn & c1 & ->). by apply col_after_normalized.
  - unfold convert_frame.
    assert (Hcode : alter_col "code" astype_str f' = f').
    { apply alter_col_id. intros c' Hc'.
      destruct (Hcol _ c' Hc') as (Hn & c1 & ->). apply col_after_code_str. }
    rewrite Hcode. apply alter_col_id. intros c' Hc'.
    destruct (Hcol _ c' Hc') as (Hn & c1 & ->). apply col_after_nutriscore.
  - apply alter_cols_id. intros name c' Hin Hc'.
    by destruct (Hcol name c' Hc') as (Hn & _).
  - apply alter_cols_id. intros name c' Hin Hc'.
    destruct (Hcol name c' Hc') as (Hn & c1 & ->). by apply col_after_flattened.
Qed.

Lemma clean_steps_idemp f1 :
  NoDup (names f1) →
  (∀ n, n ∈ numeric_cols_to_clean → get_col n f1 = None) →
  clean_steps (clean_steps f1) = clean_steps f1.
Proof.
  intros Hnd Hnum.
  destruct (clean_steps_fixed f1 Hnd Hnum) as (H1 & H2 & H3 & H4 & H5 & H6).
  unfold clean_steps at 1. by rewrite H1, H2, H3, H4, H5, H6.
Qed.

(** On a cleaned frame whose bar codes were of one kind, [drop_duplicates]
    finds nothing to drop. *)
Lemma drop_duplicates_cleaned f code :
  wf_frame f → get_col "code" f = Some code →
  codes_of_one_kind (col_values code) →
  let f' := clean_steps (filter_rows (map negb (duplicated [] (col_values code))) f) in
  drop_duplicates_frame "code" f' = inr f'.
Proof.
  intros Hwf Hcode Hkind f'.
  set (keep := map negb (duplicated [] (col_values code))) in *.
  pose proof (wf_frame_cleaned keep f Hwf) as [Hnd' Hlen']. fold f' in Hnd', Hlen'.
  destruct Hwf as [Hnd _].
  set (c1 := Column (col_dtype code) (select_rows keep (col_values code))).
  assert (Hc' : get_col "code" f' = Some (astype_str c1)).
  { unfold f'. rewrite get_col_cleaned, Hcode by done. simpl. fold c1.
    by rewrite col_after_code
      by by apply codes_of_one_kind_notnull, codes_of_one_kind_select. }
  clearbody f'. unfold drop_duplicates_frame. rewrite Hc'.
  assert (Hstr : Forall (λ v, ∃ s, v = VStr s) (col_values (astype_str c1)))
    by apply all_str_astype_str.
  assert (Hlist : existsb is_list (col_values (astype_str c1)) = false).
  { apply not_true_is_false. intros (v & Hin & Hv)%existsb_exists.
    apply list_elem_of_In in Hin. rewrite Forall_forall in Hstr.
    by destruct (Hstr v Hin) as [s ->]. }
  rewrite Hlist. f_equal.
  assert (Hndv : NoDup (col_values (astype_str c1))).
  { unfold astype_str. simpl.
    apply (NoDup_fmap_2_strong (λ v, VStr (py_str v))); [|by apply kept_codes_NoDup].
    apply py_str_inj_one_kind. by apply codes_of_one_kind_select. }
  assert (Hlenc : length (col_values (astype_str c1)) = length (df_index f')).
  { rewrite Forall_forall in Hlen'.
    apply (Hlen' ("code", astype_str c1)). by apply elem_get_col. }
  apply filter_rows_all.
  - apply (duplicated_NoDup _ key_eqb_str); [constructor|done|done|].
    intros k _. apply not_elem_of_nil.
  - rewrite length_map, length_duplicated. lia.
  - eapply Forall_impl; [exact Hlen'|]. intros [n c] Hl. simpl in *.
    rewrite length_map, length_duplicated. lia.
Qed.

(** C3 (amended).  On a frame with distinct labels and full columns that
    has none of the five nutritional columns and whose bar codes are all
    strings, or all integers, cleaning the cleaned frame gives the cleaned
    frame again; and when the frame is not empty, each rule run on the
    cleaned frame leaves it as it is: [drop_duplicates] returns an equal
    frame, and the blocks that assign columns leave the store
    unchanged. *)
Theorem clean_idempotent f f' :
  wf_frame f → clean f = inr f' →
  (∀ name, name ∈ numeric_cols_to_clean → get_col name f = None) →
  (∀ c, get_col "code" f = Some c → codes_of_one_kind (col_values c)) →
  clean f' = inr f'
  ∧ (df_empty f = false → ∀ h df, h !! df = Some f' →
       remove_duplicates df h = (inr (fresh (dom h)), <[fresh (dom h) := f']> h)
       ∧ fill_missing_text df h = (inr (), h)
       ∧ fill_missing_numeric df h = (inr (), h)
       ∧ normalize_texts df h = (inr (), h)
       ∧ convert_types df h = (inr (), h)
       ∧ clean_numeric df h = (inr (), h)
       ∧ flatten_lists df h = (inr (), h)).
Proof.
  intros Hwf Hclean Hnum Hkind.
  destruct (clean_inv f f' Hclean)
    as [[Hempty ->]|(Hne & code & Hcode & _ & Hkept & ->)].
  { split; [done|]. by rewrite Hempty. }
  rewrite Hkept.
  set (keep := map negb (duplicated [] (col_values code))).
  set (f1 := filter_rows keep f). set (f' := clean_steps f1).
  pose proof (drop_duplicates_cleaned f code Hwf Hcode (Hkind code Hcode)) as Hdd.
  fold keep f1 f' in Hdd.
  assert (Hnd1 : NoDup (names f1))
    by (unfold f1; rewrite names_filter_rows; apply Hwf).
  assert (Hnum1 : ∀ n, n ∈ numeric_cols_to_clean → get_col n f1 = None).
  { intros n Hin. unfold f1. by rewrite get_filter_rows, (Hnum n Hin). }
  destruct (clean_steps_fixed f1 Hnd1 Hnum1) as (H1 & H2 & H3 & H4 & H5 & H6).
  fold f' in H1, H2, H3, H4, H5, H6. split.
  - rewrite clean_clean_frame. unfold clean_frame.
    destruct (df_empty f'); [done|]. rewrite Hdd. f_equal.
    unfold clean_steps. by rewrite H1, H2, H3, H4, H5, H6.
  - intros _ h df Hh. split_and!.
    + unfold remove_duplicates, drop_duplicates.
      rewrite (bind_inr _ _ _ _ _ (read_run _ _ _ Hh)). by rewrite Hdd.
    + rewrite (fill_missing_text_updates df f' h Hh), H1. by rewrite insert_id.
    + rewrite (fill_missing_numeric_updates df f' h Hh), H2. by rewrite insert_id.
    + rewrite (normalize_texts_updates df f' h Hh), H3. by rewrite insert_id.
    + rewrite (convert_types_updates df f' h Hh), H4. by rewrite insert_id.
    + rewrite (clean_numeric_updates df f' h Hh), H5. by rewrite insert_id.
    + rewrite (flatten_lists_updates df f' h Hh), H6. by rewrite insert_id.
Qed.

(** ** The argument of [clean_dataframe] *)

Lemma insert_fresh_subseteq (h : gmap loc frame) f : h ⊆ <[fresh (dom h) := f]> h.
Proof. apply insert_subseteq, not_elem_of_dom, is_fresh. Qed.

(** C9.  [clean_dataframe] assigns to no frame that existed before the
    call: every reference of the store, the argument among them, denotes
    after the call the frame it denoted before, whether the call returns or
    raises. *)
Theorem clean_dataframe_keeps_store (h : gmap loc frame) (df : loc) :
  h ⊆ (clean_dataframe df h).2
  ∧ (∀ f, h !! df = Some f → (clean_dataframe df h).2 !! df = Some f).
Proof.
  assert (Hsub : h ⊆ (clean_dataframe df h).2).
  { destruct (h !! df) as [f|] eqn:Hh.
    - rewrite (clean_dataframe_run df h f Hh).
      destruct (df_empty f); [done|]. cbv zeta.
      destruct (drop_duplicates_frame "code" f) as [e|f1]; simpl.
      + apply insert_fresh_subseteq.
      + etrans; [apply (insert_fresh_subseteq h f)|apply insert_fresh_subseteq].
    - unfold clean_dataframe, mbind, M_bind, bind, read. by rewrite Hh. }
  split; [done|]. intros f Hh. by apply (lookup_weaken h).
Qed.

(** An empty frame comes back by the same reference, and nothing is
    created. *)
Lemma clean_dataframe_empty h df f :
  h !! df = Some f → df_empty f = true → clean_dataframe df h = (inr df, h).
Proof. intros Hh He. by rewrite (clean_dataframe_run df h f Hh), He. Qed.

(** Without a [code] column, a frame that is not empty makes
    [drop_duplicates] raise. *)
Lemma clean_missing_code f :
  df_empty f = false → get_col "code" f = None → clean f = inl (KeyError "code").
Proof.
  intros He Hc. rewrite clean_clean_frame. unfold clean_frame, drop_duplicates_frame.
  by rewrite He, Hc.
Qed.

(** ** [raw_to_dataframe] *)

Lemma infer_column_values vs :
  col_values (infer_column vs)
  = map (λ v, if decide (col_dtype (infer_column vs) = float64)
              then to_float64_cell v else v) vs.
Proof.
  unfold infer_column.
  destruct (forallb is_int vs); [by rewrite map_id|].
  destruct (forallb is_bool vs); [by rewrite map_id|].
  destruct (forallb is_number_or_null vs && negb (forallb is_None vs)); simpl.
  - done.
  - by rewrite map_id.
Qed.

(** C10.  [raw_to_dataframe] raises [ValueError] on the empty list, and on
    a non-empty list it returns a new frame with one row per record: the
    rows are numbered from 0, every column has one cell per record, and the
    cell of row [i] under a key is the value record [i] has for the key
    (NaN when it has none), converted to a float in a [float64] column. *)
Theorem raw_to_dataframe_rows :
  (∀ h, raw_to_dataframe [] h = (inl (ValueError "Aucune donnée à convertir"), h))
  ∧ (∀ raw_data h, raw_data ≠ [] →
       let f := DataFrame raw_data in
       raw_to_dataframe raw_data h = (inr (fresh (dom h)), <[fresh (dom h) := f]> h)
       ∧ h !! fresh (dom h) = None
       ∧ df_index f = seq 0 (length raw_data)
       ∧ names f = keys_of raw_data
       ∧ Forall (λ p, length (col_values p.2) = length raw_data) (df_columns f)
       ∧ ∀ key c i r, (key, c) ∈ df_columns f → raw_data !! i = Some r →
           col_values c !! i
           = Some (if decide (col_dtype c = float64)
                   then to_float64_cell (cell key r) else cell key r)).
Proof.
  split; [done|]. intros raw_data h Hne f.
  assert (Hcols : ∀ key c, (key, c) ∈ df_columns f →
            c = infer_column (map (cell key) raw_data)).
  { intros key c Hin. unfold f, DataFrame in Hin. simpl in Hin.
    apply list_elem_of_In, in_map_iff in Hin as (k & [= <- <-] & _). done. }
  split_and!.
  - by destruct raw_data.
  - apply not_elem_of_dom, is_fresh.
  - done.
  - unfold names, f, DataFrame. simpl.
    induction (keys_of raw_data) as [|k ks IH]; simpl; [done|]. by f_equal.
  - apply Forall_forall. intros [key c] Hin. simpl.
    rewrite (Hcols key c Hin), infer_column_values. by rewrite !length_map.
  - intros key c i r Hin Hr. rewrite (Hcols key c Hin), infer_column_values.
    change (map ?g (map ?k raw_data)) with (g <$> (k <$> raw_data)).
    by rewrite !list_lookup_fmap, Hr.
Qed.

Lemma first_occurrences_NoDup seen keys :
  NoDup (first_occurrences seen keys)
  ∧ ∀ k, k ∈ first_occurrences seen keys → k ∉ seen.
Proof.
  revert seen. induction keys as [|k keys IH]; intros seen; simpl.
  - split; [constructor|]. by intros k ?%elem_of_nil.
  - destruct (decide (k ∈ seen)) as [Hin|Hin]; [apply IH|].
    destruct (IH (k :: seen)) as [Hnd Hnot]. split.
    + constructor; [|done]. intros Hk%Hnot. apply Hk. by left.
    + intros k' [->|Hk']%elem_of_cons; [done|].
      apply Hnot in Hk'. intros ?. apply Hk'. by right.
Qed.

(** The frames [raw_to_dataframe] builds are well formed. *)
Lemma wf_frame_DataFrame raw_data : wf_frame (DataFrame raw_data).
Proof.
  split.
  - replace (names (DataFrame raw_data)) with (keys_of raw_data).
    + apply first_occurrences_NoDup.
    + unfold names, DataFrame. simpl.
      induction (keys_of raw_data) as [|k ks IH]; simpl; [done|]. by f_equal.
  - apply Forall_forall. intros [key c] Hin. simpl in *.
    apply list_elem_of_In, in_map_iff in Hin as (k & [= <- <-] & _).
    by rewrite infer_column_values, length_seq, !length_map.
Qed.

End Generic.

(** ** Worked runs *)

(** The frames of the tables. *)
Lemma DataFrame_mixed_codes :
  DataFrame mixed_codes
  = Frame [0; 1]%nat
      [("code", Column object [VInt 123; VStr "123"]);
       ("energy_100g", Column object [VStr "abc"; VStr "12.5"])].
Proof. repeat split; reflexivity. Qed.

(** C2 as stated fails.  The two bar codes differ for [drop_duplicates]
    (a number and a string), so both rows are kept, and both come out as
    the string ["123"]; and the energy column, a text column, comes out
    with a null where the text was no number. *)
Lemma clean_mixed_codes :
  get_col "energy_100g" (DataFrame mixed_codes)
    = Some (Column object [VStr "abc"; VStr "12.5"])
  ∧ clean (DataFrame mixed_codes)
    = inr (Frame [0; 1]%nat
             [("code", Column object [VStr "123"; VStr "123"]);
              ("energy_100g", Column float64 [VNaN; VFloat 12500000])]).
Proof. repeat split; reflexivity. Qed.

(** The theorem of C2 on the table of [test_clean_dataframe_remove_duplicates]. *)
Lemma clean_unique_codes_no_nulls_witness :
  wf_frame (DataFrame duplicate_codes)
  ∧ clean (DataFrame duplicate_codes) = inr duplicate_codes_cleaned
  ∧ NoDup [VStr "123"; VStr "456"]
  ∧ notnull (Column object [VStr "A"; VStr "B"]).
Proof.
  pose proof (wf_frame_DataFrame duplicate_codes) as Hwf.
  assert (Hclean : clean (DataFrame duplicate_codes) = inr duplicate_codes_cleaned)
    by reflexivity.
  destruct (clean_unique_codes_no_nulls _ _ Hwf Hclean) as [Hcodes Hnulls].
  split_and!; [done|done|..].
  - apply (Hcodes (Column object [VStr "123"; VStr "123"; VStr "456"])
             (Column object [VStr "123"; VStr "456"])); [done| |done].
    left. repeat constructor; by eexists.
  - apply (Hnulls "name" (Column object [VStr "A"; VStr "A"; VStr "B"])
             (Column object [VStr "A"; VStr "B"])); [done|done|by left|done|].
    intros Hin. by not_in Hin.
Defined.

(** C3 as stated fails.  The energy, [None] in a text column, is filled
    with the sentinel and then coerced to NaN; cleaning the result again
    finds a numeric column with a null and fills it with 0. *)
Lemma clean_twice_null_energy :
  clean (DataFrame null_energy)
    = inr (Frame [0]%nat
             [("code", Column object [VStr "1"]);
              ("energy_100g", Column float64 [VNaN])])
  ∧ clean (Frame [0]%nat
             [("code", Column object [VStr "1"]);
              ("energy_100g", Column float64 [VNaN])])
    = inr (Frame [0]%nat
             [("code", Column object [VStr "1"]);
              ("energy_100g", Column float64 [VFloat 0])]).
Proof. repeat split; reflexivity. Qed.

(** Clipping is not stable either: the bounds are computed again from the
    clipped column, and the value clipped to 10.949872 is clipped once more,
    to 10.899972. *)
Lemma clean_twice_one_outlier :
  ∃ f1 f2, clean (DataFrame one_outlier) = inr f1 ∧ clean f1 = inr f2
    ∧ (col_values <$> get_col "energy_100g" f1) ≫= last = Some (VFloat 10949872)
    ∧ (col_values <$> get_col "energy_100g" f2) ≫= last = Some (VFloat 10899972).
Proof.
  let v := eval vm_compute in (clean (DataFrame one_outlier)) in
  match v with
  | inr ?f1 =>
      exists f1;
      let w := eval vm_compute in (clean f1) in
      match w with inr ?f2 => exists f2 end
  end.
  repeat split; reflexivity.
Qed.

(** The theorem of C3 on the table of
    [test_clean_dataframe_fill_missing_text]. *)
Lemma clean_idempotent_witness :
  wf_frame (DataFrame one_null_name)
  ∧ clean (DataFrame one_null_name) = inr one_null_name_cleaned
  ∧ clean one_null_name_cleaned = inr one_null_name_cleaned.
Proof.
  pose proof (wf_frame_DataFrame one_null_name) as Hwf.
  assert (Hclean : clean (DataFrame one_null_name) = inr one_null_name_cleaned)
    by reflexivity.
  split_and!; [done|done|].
  apply (clean_idempotent _ _ Hwf Hclean).
  - intros name Hin. apply list_elem_of_In in Hin. simpl in Hin.
    repeat (destruct Hin as [<-|Hin]; [reflexivity|]). done.
  - intros c Hc.
    assert (Hcode : get_col "code" (DataFrame one_null_name)
                    = Some (Column object [VStr "123"; VStr "456"])) by reflexivity.
    rewrite Hcode in Hc. injection Hc as <-.
    left. repeat constructor; by eexists.
Defined.

(** C8 as stated fails.  The energy column is a text column with one null;
    after [clean] the null is still a null, not the sentinel, and the other
    cell is no longer the text it was. *)
Lemma clean_text_energy :
  get_col "energy_100g" (DataFrame text_energy)
    = Some (Column object [VStr "12.5"; VNone])
  ∧ clean (DataFrame text_energy)
    = inr (Frame [0; 1]%nat
             [("code", Column object [VStr "1"; VStr "2"]);
              ("energy_100g", Column float64 [VFloat 12500000; VNaN])]).
Proof. repeat split; reflexivity. Qed.

(** The theorem of C8 on a text column with one null among two rows: the
    null becomes the sentinel and the other cell stays as it was. *)
Lemma clean_fills_text_witness :
  wf_frame (DataFrame one_null_name)
  ∧ clean (DataFrame one_null_name) = inr one_null_name_cleaned
  ∧ get_col "name" (DataFrame one_null_name) = Some (Column object [VStr "Test"; VNone])
  ∧ ∃ c', get_col "name" one_null_name_cleaned = Some c'
          ∧ col_values c' = [VStr "Test"; VStr "Non renseigné"].
Proof.
  pose proof (wf_frame_DataFrame one_null_name) as Hwf.
  assert (Hclean : clean (DataFrame one_null_name) = inr one_null_name_cleaned)
    by reflexivity.
  assert (Hc : get_col "name" (DataFrame one_null_name)
               = Some (Column object [VStr "Test"; VNone])) by reflexivity.
  split_and!; [done|done|done|].
  destruct (clean_fills_text _ _ "name" _ Hwf Hclean Hc eq_refl)
    as (c' & Hc' & Hvalues & _).
  - done.
  - intros Hin. by not_in Hin.
  - intros Hin. by not_in Hin.
  - exists c'. split; [done|]. rewrite Hvalues. reflexivity.
Defined.

(** C7 at the failing input: the frame of a record without bar code is not
    empty, and [clean_dataframe] raises [KeyError] on it. *)
Lemma clean_dataframe_no_code :
  DataFrame no_code = Frame [0]%nat [("product_name", Column object [VStr "x"])]
  ∧ clean_records no_code = inl (KeyError "code")
  ∧ clean (DataFrame no_code) = inl (KeyError "code").
Proof. repeat split; reflexivity. Qed.

(** C10 at work. *)
Lemma raw_to_dataframe_one_null_name :
  result_frame (raw_to_dataframe one_null_name ∅)
  = inr (Frame [0; 1]%nat
           [("code", Column object [VStr "123"; VStr "456"]);
            ("name", Column object [VStr "Test"; VNone]);
            ("value", Column int64 [VInt 10; VInt 20])])
  ∧ result_frame (raw_to_dataframe [] ∅)
    = inl (ValueError "Aucune donnée à convertir").
Proof. repeat split; reflexivity. Qed.

End TransformerProofs.

(** * The requests and the pauses of a run *)

Module FetcherTraceProofs.
Import Fetcher FetcherTrace.

Section Generic.
Context {Record World : Type}.
Variable client_get : World → string → params → (exn + body Record) * World.

Abbreviation state := (state Record World).
Abbreviation event := (event Record).

Lemma followed_by_app {A : Type} (after : option A) (t1 t2 : list A) :
  followed_by after (t1 ++ t2)
  = followed_by (match t2 with [] => after | e :: _ => Some e end) t1
    ++ followed_by after t2.
Proof.
  induction t1 as [|e t1 IH]; [done|]. simpl. rewrite IH. f_equal.
  by destruct t1, t2.
Qed.

(** The exchanges of one call of [fetch_page]: up to two failures with an
    [httpx.HTTPError], each followed by a wait of 2 seconds, and the
    exchange whose outcome is returned. *)
Lemma fetch_page_shape endpoint p (s : state) :
  let r := (fetch_page client_get endpoint p s).1 in
  ∃ es : list exn,
    trace (fetch_page client_get endpoint p s).2
    = trace s ++ flat_map (λ e, [HttpGet endpoint p (inl e); Sleep 2]) es
              ++ [HttpGet endpoint p r]
    ∧ (length es ≤ 2)%nat
    ∧ Forall (λ e, is_HTTPError e = true) es.
Proof.
  assert (Hretry : ∀ e, retry_if_exception_type e = is_HTTPError e)
    by (by intros []).
  cbv zeta. unfold fetch_page, retrying, fetch_page_body, emit. simpl.
  destruct (client_get (world s) endpoint p) as [[e1|d1] w1]; simpl;
    [rewrite (Hretry e1); destruct (is_HTTPError e1) eqn:H1; simpl;
     [destruct (client_get w1 endpoint p) as [[e2|d2] w2]; simpl;
      [rewrite (Hretry e2); destruct (is_HTTPError e2) eqn:H2; simpl;
       [destruct (client_get w2 endpoint p) as [[e3|d3] w3]; simpl|]|]|]|].
  all: try destruct (retry_if_exception_type e3); simpl.
  all: first
    [ exists []; split_and!; [by rewrite <- ?app_assoc|simpl; lia|by constructor]
    | exists [e1]; split_and!;
      [by rewrite <- ?app_assoc|simpl; lia|by repeat constructor]
    | exists [e1; e2]; split_and!;
      [by rewrite <- ?app_assoc|simpl; lia|by repeat constructor] ].
Qed.

Lemma outcomes_app (t1 t2 : list event) :
  outcomes (t1 ++ t2) = outcomes t1 ++ outcomes t2.
Proof. apply omap_app. Qed.

Lemma requested_pages_concat (t1 t2 : list event) :
  requested_pages (t1 ++ t2) = requested_pages t1 ++ requested_pages t2.
Proof. apply omap_app. Qed.

Lemma requested_pages_failures endpoint p (es : list exn) :
  requested_pages
    (flat_map (λ e, [HttpGet (Record:=Record) endpoint p (inl e); Sleep 2]) es)
  = replicate (length es) (page p).
Proof. induction es as [|e es IH]; [done|]. simpl. by rewrite <- IH. Qed.

Lemma outcomes_failures endpoint p (es : list exn) :
  length (outcomes
    (flat_map (λ e, [HttpGet (Record:=Record) endpoint p (inl e); Sleep 2]) es))
  = length es.
Proof. induction es as [|e es IH]; [done|]. simpl. by rewrite <- IH. Qed.

(** One iteration of the loop: the exchanges of [fetch_page], then the
    pause of the rate limit after a page that brought products, unless it
    is the last page. *)
Lemma page_step_shape category pg acc (s : state) :
  let G := HttpGet "/search" (search_params category pg) in
  ∃ (es : list exn) (r : exn + body Record),
    (length es ≤ 2)%nat
    ∧ Forall (λ e, is_HTTPError e = true) es
    ∧ (page_step client_get category pg acc s).1
      = (step_control r, acc ++ result_products r)
    ∧ trace (page_step client_get category pg acc s).2
      = trace s ++ flat_map (λ e, [G (inl e); Sleep 2]) es ++ [G r]
        ++ step_pause pg r.
Proof.
  cbv zeta. unfold page_step.
  destruct (fetch_page_shape "/search" (search_params category pg) s)
    as (es & Ht & Hlen & Hes).
  destruct (fetch_page client_get "/search" (search_params category pg) s)
    as [r [w1 t1]]. simpl in Ht. subst t1.
  exists es, r. split_and!; [done..| |].
  - destruct r as [e|data]; simpl.
    + destruct e as [code| | |]; simpl; rewrite ?app_nil_r; try done.
      by destruct (code =? 404).
    + destruct (get_products data) as [|x products]; simpl;
        by rewrite ?app_nil_r.
  - destruct r as [e|data]; simpl.
    + destruct e as [code| | |]; simpl; try done.
      by destruct (code =? 404).
    + destruct (get_products data) as [|x products]; [done|].
      destruct (pg <? MAX_PAGES)%nat; simpl; [|done].
      by rewrite <- !app_assoc.
Qed.

Lemma search_request_failures category pg (es : list exn) :
  Forall (search_request category)
    (flat_map (λ e, [HttpGet (Record:=Record) "/search" (search_params category pg)
                       (inl e); Sleep 2]) es).
Proof. induction es; simpl; by repeat constructor. Qed.

Lemma search_request_pause category pg (r : exn + body Record) :
  Forall (search_request category) (step_pause pg r).
Proof.
  destruct r as [e|data]; simpl; [done|].
  destruct (get_products data); [done|].
  destruct (pg <? MAX_PAGES)%nat; by repeat constructor.
Qed.

Lemma step_pause_silent pg (r : exn + body Record) :
  requested_pages (step_pause pg r) = [] ∧ outcomes (step_pause pg r) = [].
Proof.
  destruct r as [e|data]; simpl; [done|].
  destruct (get_products data); [done|].
  by destruct (pg <? MAX_PAGES)%nat.
Qed.

(** The requests of the loop over [pages]: the pages are asked in order,
    each one to three times in a row, up to the page that ends the loop. *)
Lemma for_pages_requests pages category acc (s : state) :
  ∃ (attempts : list nat) (t : list event),
    trace (for_pages client_get pages category acc s).2 = trace s ++ t
    ∧ (length attempts ≤ length pages)%nat
    ∧ (pages ≠ [] → attempts ≠ [])
    ∧ Forall (λ k, (1 ≤ k ≤ 3)%nat) attempts
    ∧ requested_pages t = concat (zip_with replicate attempts pages)
    ∧ length (outcomes t) = sum_list attempts
    ∧ Forall (search_request category) t.
Proof.
  revert acc s. induction pages as [|pg rest IH]; intros acc s; simpl.
  - exists [], []. rewrite app_nil_r. split_and!; by try constructor.
  - destruct (page_step_shape category pg acc s) as (es & r & Hlen & Hes & Hstep & Ht).
    destruct (page_step client_get category pg acc s) as [[c acc'] s'].
    cbn [fst snd] in Hstep, Ht. injection Hstep as -> ->.
    destruct (step_pause_silent pg r) as [Hp1 Hp2].
    assert (Hreq : requested_pages
              (flat_map (λ e, [HttpGet "/search" (search_params category pg) (inl e);
                               Sleep 2]) es
               ++ [HttpGet "/search" (search_params category pg) r]
               ++ step_pause pg r)
            = replicate (S (length es)) pg).
    { rewrite !requested_pages_concat, requested_pages_failures, Hp1. simpl.
      rewrite ?app_nil_r. change [pg] with (replicate 1 pg).
      rewrite <- replicate_add. by rewrite Nat.add_1_r. }
    assert (Hout : length (outcomes
              (flat_map (λ e, [HttpGet "/search" (search_params category pg) (inl e);
                               Sleep 2]) es
               ++ [HttpGet "/search" (search_params category pg) r]
               ++ step_pause pg r))
            = S (length es)).
    { rewrite !outcomes_app, !length_app, outcomes_failures, Hp2. simpl. lia. }
    assert (Hsr : Forall (search_request category)
              (flat_map (λ e, [HttpGet "/search" (search_params category pg) (inl e);
                               Sleep 2]) es
               ++ [HttpGet "/search" (search_params category pg) r]
               ++ step_pause pg r)).
    { apply Forall_app. split; [apply search_request_failures|].
      apply Forall_cons. split; [done|]. apply search_request_pause. }
    set (chunk := flat_map (λ e, [HttpGet "/search" (search_params category pg) (inl e);
                                   Sleep 2]) es
                  ++ [HttpGet "/search" (search_params category pg) r]
                  ++ step_pause pg r) in *.
    clearbody chunk.
    destruct (step_control r).
    + exists [S (length es)], chunk.
      split_and!; simpl; rewrite ?app_nil_r; try lia; try done.
      constructor; [lia|constructor].
    + destruct (IH (acc ++ result_products r) s')
        as (attempts & t' & Ht' & Hlen' & _ & Hall & Hreq' & Hout' & Hsr').
      exists (S (length es) :: attempts), (chunk ++ t').
      split_and!; simpl; try lia; try done.
      * by rewrite Ht', Ht, <- app_assoc.
      * constructor; [lia|done].
      * by rewrite requested_pages_concat, Hreq, Hreq'.
      * by rewrite outcomes_app, length_app, Hout, Hout'.
      * by apply Forall_app.
Qed.

Lemma zip_with_replicate_seq (attempts : list nat) first n :
  (length attempts ≤ n)%nat →
  zip_with replicate attempts (seq first n)
  = zip_with replicate attempts (seq first (length attempts)).
Proof.
  revert first n. induction attempts as [|k attempts IH]; intros first n Hn; [done|].
  destruct n as [|n]; simpl in *; [lia|]. f_equal. apply IH. lia.
Qed.

Lemma sum_list_bound (l : list nat) b :
  Forall (λ k, (1 ≤ k ≤ b)%nat) l → (length l ≤ sum_list l ≤ b * length l)%nat.
Proof. induction 1; simpl; lia. Qed.

(** X1.  Whatever the server answers, a run of [fetch_all_data] asks for
    the pages 1, 2, ... in order, neither skipping a page nor going back,
    up to some page that is at most [MAX_PAGES]; each page is asked one to
    three times in a row, the attempts of [fetch_page].  So a run makes
    between 1 and 30 HTTP requests, and every one goes to ["/search"] with
    the category of the run, [PAGE_SIZE] and [FIELDS]. *)
Theorem fetch_all_data_requests category (w : World) :
  let t := trace (fetch_all_data client_get category (init w)).2 in
  ∃ attempts : list nat,
    (1 ≤ length attempts ≤ MAX_PAGES)%nat
    ∧ Forall (λ k, (1 ≤ k ≤ 3)%nat) attempts
    ∧ requested_pages t = page_runs 1 attempts
    ∧ length (outcomes t) = sum_list attempts
    ∧ (1 ≤ length (outcomes t) ≤ 3 * MAX_PAGES)%nat
    ∧ Forall (search_request category) t.
Proof.
  cbv zeta. unfold fetch_all_data.
  destruct (for_pages_requests (seq 1 MAX_PAGES) category [] (init w))
    as (attempts & t & Ht & Hlen & Hne & Hall & Hreq & Hout & Hsr).
  destruct (for_pages client_get (seq 1 MAX_PAGES) category [] (init w))
    as [acc s']. cbn [fst snd] in Ht.
  replace (finish category (acc, s')).2 with s' by (by destruct acc).
  rewrite Ht. simpl. rewrite length_seq in Hlen.
  pose proof (sum_list_bound attempts 3 Hall) as Hsum.
  assert (attempts ≠ []) as Hne' by (by apply Hne).
  assert (1 ≤ length attempts)%nat by (destruct attempts; simpl; [done|lia]).
  exists attempts. split_and!; try done.
  - rewrite Hreq. unfold page_runs. by rewrite zip_with_replicate_seq.
  - lia.
  - unfold MAX_PAGES in *. lia.
Qed.

Lemma paced_failures endpoint p (es : list exn) (r : exn + body Record) after :
  Forall (λ e, is_HTTPError e = true) es →
  Forall (λ en, paced en.1 en.2)
    (followed_by (Some (HttpGet endpoint p r))
       (flat_map (λ e, [HttpGet endpoint p (inl e); Sleep 2]) es)
     ++ followed_by after []).
Proof.
  intros Hes. rewrite app_nil_r.
  induction Hes as [|e es He _ IH]; simpl; [constructor|].
  constructor; [done|]. constructor; [|done]. simpl. by destruct es.
Qed.

(** The events of the loop over the pages [a], [a + 1], ... up to
    [MAX_PAGES]. *)
Lemma for_pages_paced n a category acc (s : state) :
  (a + n = S MAX_PAGES)%nat →
  ∃ t, trace (for_pages client_get (seq a n) category acc s).2 = trace s ++ t
    ∧ Forall (λ en, paced en.1 en.2) (followed_by None t)
    ∧ match t with
      | [] => n = 0%nat
      | e :: _ => ∃ r, e = HttpGet "/search" (search_params category a) r
      end.
Proof.
  revert a acc s. induction n as [|n IH]; intros a acc s Han; simpl.
  - exists []. rewrite app_nil_r. split_and!; by try constructor.
  - destruct (page_step_shape category a acc s) as (es & r & _ & Hes & Hstep & Ht).
    destruct (page_step client_get category a acc s) as [[c acc'] s'].
    cbn [fst snd] in Hstep, Ht. injection Hstep as -> ->.
    pose proof (paced_failures "/search" (search_params category a) es r None Hes)
      as HF. rewrite app_nil_r in HF.
    set (F := flat_map (λ e, [HttpGet "/search" (search_params category a) (inl e);
                               Sleep 2]) es) in *.
    assert (Hhead : ∀ t' (Q : Prop),
              match F ++ HttpGet "/search" (search_params category a) r :: t' with
              | [] => Q
              | e :: _ => ∃ r', e = HttpGet "/search" (search_params category a) r'
              end).
    { intros t' Q. subst F. destruct es; simpl; by eexists. }
    clearbody F.
    destruct (IH (S a) (acc ++ result_products r) s' ltac:(lia))
      as (t' & Ht' & Hpaced' & Hhead').
    assert (Hlast : n = 0%nat → t' = []).
    { intros ->. simpl in Ht'. by apply (inj (app (trace s'))); rewrite app_nil_r. }
    destruct r as [e|data]; simpl in *.
    + (* the page failed *)
      assert (Hbreak :
        Forall (λ en, paced en.1 en.2)
          (followed_by None (F ++ [HttpGet "/search" (search_params category a)
                                     (inl e)]))).
      { rewrite followed_by_app. apply Forall_app. split; [done|by repeat constructor]. }
      assert (Hcont :
        Forall (λ en, paced en.1 en.2)
          (followed_by None ((F ++ [HttpGet "/search" (search_params category a)
                                      (inl e)]) ++ t'))).
      { rewrite <- app_assoc, followed_by_app. apply Forall_app. split; [done|].
        simpl. constructor; [|done]. simpl.
        destruct t' as [|e' t'']; [done|]. by destruct Hhead' as [r' ->]. }
      rewrite ?app_nil_r in Ht.
      destruct e as [code| | |]; [destruct (code =? 404)|..].
      * eexists. split; [exact Ht|]. split; [done|]. apply (Hhead []).
      * exists ((F ++ [HttpGet "/search" (search_params category a)
                          (inl (HTTPStatusError code))]) ++ t').
        split_and!; [by rewrite Ht', Ht, <- !app_assoc|done|].
        rewrite <- app_assoc. apply (Hhead t').
      * exists ((F ++ [HttpGet "/search" (search_params category a)
                          (inl TimeoutException)]) ++ t').
        split_and!; [by rewrite Ht', Ht, <- !app_assoc|done|].
        rewrite <- app_assoc. apply (Hhead t').
      * exists ((F ++ [HttpGet "/search" (search_params category a)
                          (inl TransportError)]) ++ t').
        split_and!; [by rewrite Ht', Ht, <- !app_assoc|done|].
        rewrite <- app_assoc. apply (Hhead t').
      * exists ((F ++ [HttpGet "/search" (search_params category a)
                          (inl OtherException)]) ++ t').
        split_and!; [by rewrite Ht', Ht, <- !app_assoc|done|].
        rewrite <- app_assoc. apply (Hhead t').
    + (* the page was served *)
      destruct (get_products data) as [|x products] eqn:Hp.
      * rewrite ?app_nil_r in Ht. eexists. split; [exact Ht|]. split; [|apply (Hhead [])].
        rewrite followed_by_app. apply Forall_app. split; [done|].
        repeat constructor. simpl. by rewrite Hp.
      * destruct (Nat.ltb_spec a MAX_PAGES) as [Hlt|Hge].
        -- exists ((F ++ [HttpGet "/search" (search_params category a) (inr data);
                          Sleep API_RATE_LIMIT]) ++ t').
           split_and!.
           ++ by rewrite Ht', Ht, <- !app_assoc.
           ++ destruct t' as [|e' t'']; [lia|]. destruct Hhead' as [r' ->].
              rewrite <- app_assoc, followed_by_app. apply Forall_app. split; [done|].
              simpl. constructor.
              { simpl. rewrite Hp.
                by destruct (Nat.ltb_spec a MAX_PAGES); [|lia]. }
              constructor; [done|]. exact Hpaced'.
           ++ rewrite <- app_assoc. apply (Hhead (Sleep API_RATE_LIMIT :: t')).
        -- rewrite (Hlast ltac:(lia)) in Ht'. rewrite ?app_nil_r in Ht'.
           rewrite ?app_nil_r in Ht. eexists. split; [by rewrite Ht', Ht|].
           split; [|apply (Hhead [])].
           rewrite followed_by_app. apply Forall_app. split; [done|].
           repeat constructor. simpl. rewrite Hp.
           by destruct (Nat.ltb_spec a MAX_PAGES); [lia|].
Qed.

Lemma followed_by_last {A : Type} (after : option A) (t : list A) e :
  last t = Some e → (e, after) ∈ followed_by after t.
Proof.
  induction t as [|x t IH]; [done|]. destruct t as [|y t].
  - intros [= ->]. by left.
  - intros Hl. right. by apply IH.
Qed.

(** X2.  The pauses of a run of [fetch_all_data].  An exchange that brought
    products is followed by the pause of the rate limit ([API_RATE_LIMIT],
    one second), unless its page is the last one, which ends the run; an
    exchange that brought an empty page ends the run.  A failed exchange is
    followed by the 2-second wait of a retry, which happens only after an
    [httpx.HTTPError], or at once, with no pause, by the request for the
    next page, or by nothing.  A sleep is always followed by a request.
    The run starts with the request for page 1 and ends with an HTTP
    exchange, never with a sleep. *)
Theorem fetch_all_data_pacing category (w : World) :
  let t := trace (fetch_all_data client_get category (init w)).2 in
  Forall (λ en, paced en.1 en.2) (followed_by None t)
  ∧ (∃ r, head t = Some (HttpGet "/search" (search_params category 1) r))
  ∧ (∃ endpoint p r, last t = Some (HttpGet endpoint p r)).
Proof.
  cbv zeta. unfold fetch_all_data.
  destruct (for_pages_paced MAX_PAGES 1 category [] (init w) eq_refl)
    as (t & Ht & Hpaced & Hhead).
  destruct (for_pages client_get (seq 1 MAX_PAGES) category [] (init w))
    as [acc s']. cbn [fst snd] in Ht.
  replace (finish category (acc, s')).2 with s' by (by destruct acc).
  rewrite Ht. simpl. destruct t as [|e t]; [done|]. destruct Hhead as [r ->].
  split_and!; [done|by eexists|].
  destruct (last (HttpGet "/search" (search_params category 1) r :: t))
    as [e|] eqn:Hlast.
  - apply (followed_by_last None) in Hlast.
    apply (proj1 (Forall_forall _ _) Hpaced) in Hlast. destruct e; [by eauto|done].
  - by apply last_None in Hlast.
Qed.

End Generic.
End FetcherTraceProofs.

(** * More properties of the transformer *)

Module TransformerMore.
Import Transformer TransformerProofs Signs Letters Examples.

Section Generic.
Context {prims : PyPrims}.

(** A column of the cleaned frame, from the column of the same name of the
    input: the rows [drop_duplicates] keeps, through the rules that apply
    to the name. *)
Lemma cleaned_from f f' name :
  wf_frame f → clean f = inr f' → df_empty f = false →
  get_col name f'
  = (λ c, col_after name
            (Column (col_dtype c) (select_rows (kept_rows f) (col_values c))))
      <$> get_col name f.
Proof.
  intros [Hnd _] Hclean Hne.
  destruct (clean_inv f f' Hclean) as [[Hempty _]|(_ & code & _ & _ & _ & ->)];
    [congruence|].
  by apply get_col_cleaned.
Qed.

(** X4.  The object that [clean_dataframe] returns.  For an empty frame it
    is the argument itself: no copy is made and the store stays as it was.
    For a frame that is not empty, when the call returns, the reference it
    returns is a new one: it differs from the argument, the store did not
    hold it before the call, and after the call it denotes the cleaned
    frame. *)
Theorem clean_dataframe_result_object h df f :
  h !! df = Some f →
  if df_empty f
  then clean_dataframe df h = (inr df, h)
  else ∀ df_clean, (clean_dataframe df h).1 = inr df_clean →
         df_clean ≠ df ∧ h !! df_clean = None
         ∧ ∃ f', (clean_dataframe df h).2 !! df_clean = Some f'
                 ∧ clean f = inr f'.
Proof.
  intros Hdf. rewrite (clean_dataframe_run df h f Hdf).
  pose proof (clean_clean_frame f) as Hclean. unfold clean_frame in Hclean.
  destruct (df_empty f); [done|]. cbv zeta.
  destruct (drop_duplicates_frame "code" f) as [e|f1]; [done|].
  simpl. intros df_clean [= <-].
  set (h1 := <[fresh (dom h) := f]> h).
  assert (Hfresh : h1 !! fresh (dom h1) = None)
    by apply not_elem_of_dom, is_fresh.
  assert (Hsub : h ⊆ h1) by apply insert_fresh_subseteq.
  split_and!.
  - intros Heq. rewrite Heq in Hfresh.
    by rewrite (lookup_weaken _ _ _ _ Hdf Hsub) in Hfresh.
  - destruct (h !! fresh (dom h1)) eqn:E; [|done].
    by rewrite (lookup_weaken _ _ _ _ E Hsub) in Hfresh.
  - exists (clean_steps f1). by rewrite lookup_insert_eq.
Qed.

Lemma sublist_select_rows {A : Type} keep (l : list A) :
  sublist (select_rows keep l) l.
Proof.
  revert keep. induction l as [|x l IH]; intros [|[] keep]; simpl;
    try apply sublist_nil_l; [by apply sublist_skip|by apply sublist_cons].
Qed.

Lemma head_kept_rows {A : Type} (vs : list value) (idx : list A) :
  length vs = length idx →
  head (select_rows (map negb (duplicated [] vs)) idx) = head idx.
Proof. destruct vs, idx; done. Qed.

Lemma df_empty_same f g :
  names g = names f → head (df_index g) = head (df_index f) →
  df_empty g = df_empty f.
Proof.
  unfold df_empty, names. destruct f as [idx cols], g as [idx' cols']. simpl.
  intros Hn Hh. destruct idx, idx'; try done. by destruct cols, cols'.
Qed.

(** The labels of the cleaned frame: the columns of the input, and the row
    labels that [drop_duplicates] keeps. *)
Lemma cleaned_labels f f' :
  clean f = inr f' → df_empty f = false →
  names f' = names f
  ∧ df_index f' = select_rows (kept_rows f) (df_index f).
Proof.
  intros Hclean Hne.
  destruct (clean_inv f f' Hclean) as [[Hempty _]|(_ & code & _ & _ & _ & ->)];
    [congruence|].
  by rewrite names_clean_steps, names_filter_rows, index_clean_steps.
Qed.

(** The first row is never a duplicate. *)
Lemma cleaned_head f f' :
  wf_frame f → clean f = inr f' → head (df_index f') = head (df_index f).
Proof.
  intros Hwf Hclean.
  destruct (clean_inv f f' Hclean)
    as [[Hempty ->]|(Hne & code & Hcode & _ & Hkept & _)]; [done|].
  destruct (cleaned_labels f f' Hclean Hne) as [_ ->].
  destruct Hwf as [_ Hlen]. rewrite Forall_forall in Hlen.
  specialize (Hlen _ (lookup_col_Some _ _ _ Hcode)).
  rewrite Hkept. by apply head_kept_rows.
Qed.

Lemma cleaned_empty f f' :
  wf_frame f → clean f = inr f' → df_empty f' = df_empty f.
Proof.
  intros Hwf Hclean. destruct (df_empty f) eqn:Hempty.
  - destruct (clean_inv f f' Hclean) as [[_ ->]|(Hne & _)]; [done|congruence].
  - rewrite <- Hempty. apply df_empty_same.
    + by apply cleaned_labels.
    + by apply cleaned_head.
Qed.

(** X5.  The shape of the cleaned frame.  The column labels are those of
    the input, in the same order.  The row labels are a subsequence of
    those of the input: rows are only dropped, the rows that stay keep
    their label, and the first row always stays.  The result is empty
    exactly when the input is, and it has distinct labels and full
    columns. *)
Theorem clean_shape f f' :
  wf_frame f → clean f = inr f' →
  names f' = names f
  ∧ sublist (df_index f') (df_index f)
  ∧ head (df_index f') = head (df_index f)
  ∧ df_empty f' = df_empty f
  ∧ wf_frame f'.
Proof.
  intros Hwf Hclean.
  split_and!; [| |by apply cleaned_head|by apply cleaned_empty|].
  - destruct (df_empty f) eqn:Hempty; [|by apply cleaned_labels].
    destruct (clean_inv f f' Hclean) as [[_ ->]|(Hne & _)]; [done|congruence].
  - destruct (df_empty f) eqn:Hempty.
    + destruct (clean_inv f f' Hclean) as [[_ ->]|(Hne & _)]; [done|congruence].
    + destruct (cleaned_labels f f' Hclean Hempty) as [_ ->].
      apply sublist_select_rows.
  - destruct (clean_inv f f' Hclean) as [[_ ->]|(_ & _ & _ & _ & _ & ->)]; [done|].
    by apply wf_frame_cleaned.
Qed.

(** *** Text normalisation *)

Lemma is_upper_to_lower a : is_upper (to_lower a) = false.
Proof. by destruct a as [[] [] [] [] [] [] [] []]. Qed.

Lemma no_capital_lower s : no_capital (lower s).
Proof.
  unfold no_capital. induction s as [|a s IH]; simpl; [constructor|].
  constructor; [apply is_upper_to_lower|done].
Qed.

Lemma last_rstrip s a :
  last (String.list_ascii_of_string (rstrip s)) = Some a → is_space a = false.
Proof.
  induction s as [|b s IH]; simpl; [done|].
  destruct (rstrip s) as [|c t] eqn:E.
  - destruct (is_space b) eqn:Eb; simpl; [done|]. by intros [= <-].
  - simpl in *. exact IH.
Qed.

Lemma trimmed_strip s : trimmed (strip s).
Proof.
  unfold trimmed, strip. split; [|apply last_rstrip].
  destruct (lstrip_head s) as [->|(b & t & -> & Hb)]; [done|].
  destruct (rstrip_head b t Hb) as [t' ->]. simpl. by intros a [= <-].
Qed.

Lemma no_capital_SENTINEL : ¬ no_capital SENTINEL.
Proof. intros H. by apply Forall_cons in H as [H _]. Qed.

Lemma normalized_shape x :
  let s := lower (strip x) in no_capital s ∧ trimmed s ∧ s ≠ SENTINEL.
Proof.
  cbv zeta. split_and!.
  - apply no_capital_lower.
  - rewrite <- strip_lower. apply trimmed_strip.
  - intros Heq. apply no_capital_SENTINEL. rewrite <- Heq. apply no_capital_lower.
Qed.

Lemma col_after_normalize_values name c :
  name ∈ text_cols_to_normalize →
  col_values (col_after name c)
  = map (λ v, VStr (lower (strip (py_str v)))) (col_values (fill_col c)).
Proof.
  intros Hin. apply list_elem_of_In in Hin. simpl in Hin.
  destruct Hin as [<-|[<-|[<-|[]]]];
    (rewrite col_after_values;
     [done|done|intros Hnum; by not_in Hnum]).
Qed.

(** X6.  After [clean], every cell of [product_name], [brands] and
    [categories] is a string that holds no ASCII capital letter ([A] to
    [Z]) and that neither starts nor ends with ASCII white space; how
    letters and blanks outside ASCII come out is not stated.  In particular
    no cell is the sentinel ["Non renseigné"] the way block 2 writes it,
    with its capital letter. *)
Theorem clean_normalizes_text f f' name c' :
  wf_frame f → clean f = inr f' →
  name ∈ text_cols_to_normalize → get_col name f' = Some c' →
  Forall (λ v, ∃ s, v = VStr s ∧ no_capital s ∧ trimmed s ∧ s ≠ SENTINEL)
    (col_values c').
Proof.
  intros Hwf Hclean Hname Hc'.
  destruct (df_empty f) eqn:Hempty.
  - destruct (clean_inv f f' Hclean) as [[_ ->]|(Hne & _)]; [|congruence].
    rewrite (empty_frame_values _ _ _ Hwf Hempty Hc'). constructor.
  - rewrite (cleaned_from f f' name Hwf Hclean Hempty) in Hc'.
    destruct (get_col name f) as [c|]; [|done]. injection Hc' as <-.
    rewrite col_after_normalize_values by done.
    apply Forall_fmap, Forall_forall. intros v _. simpl.
    eexists. split; [done|]. apply normalized_shape.
Qed.

(** *** The Nutri-Score *)

Lemma Categorical_values cats c c0 :
  Forall2 (λ v v0, v0 = v ∨ (isnull v = true ∧ ∀ s, v0 ≠ VStr s ∨ s ∉ cats))
    (col_values c) (col_values c0) →
  Categorical cats c0 = Categorical cats c.
Proof.
  intros H. unfold Categorical. f_equal.
  induction H as [|v v0 vs vs0 Hv _ IH]; simpl; [done|]. f_equal; [|done].
  destruct Hv as [->|[Hnull Hv0]]; [done|].
  destruct v; try done; destruct v0 as [| |s| | | |]; try done;
    destruct (Hv0 s) as [?|?]; try done; by rewrite decide_False.
Qed.

Lemma SENTINEL_not_category : SENTINEL ∉ nutriscore_categories.
Proof.
  intros H. apply list_elem_of_In in H. simpl in H. unfold SENTINEL in H.
  repeat (destruct H as [H|H]; [discriminate|]). done.
Qed.

(** The fill of block 2 does not show through [Categorical]: what it writes
    is not a category. *)
Lemma Categorical_fill_col c :
  Categorical nutriscore_categories (fill_col c)
  = Categorical nutriscore_categories c.
Proof.
  apply Categorical_values. unfold fill_col. cbv zeta.
  assert (Hrefl : ∀ vs : list value,
    Forall2 (λ v v0, v0 = v ∨ (isnull v = true
                                ∧ ∀ s, v0 ≠ VStr s ∨ s ∉ nutriscore_categories))
      vs vs).
  { intros vs. apply Forall_Forall2_diag, Forall_forall. by left. }
  assert (Hfill : ∀ w c1, (∀ s, cast (col_dtype c1) w ≠ VStr s
                                 ∨ s ∉ nutriscore_categories) →
    Forall2 (λ v v0, v0 = v ∨ (isnull v = true
                                ∧ ∀ s, v0 ≠ VStr s ∨ s ∉ nutriscore_categories))
      (col_values c1) (col_values (fillna w c1))).
  { intros w c1 Hw. rewrite fillna_values. apply Forall2_fmap_r.
    apply Forall_Forall2_diag, Forall_forall. intros v _. simpl.
    destruct (isnull v) eqn:E; [by right|by left]. }
  destruct (is_text (col_dtype c)) eqn:Htext.
  - rewrite col_dtype_fill_text_col.
    replace (is_number (col_dtype c)) with false by (by destruct (col_dtype c)).
    unfold fill_text_col. destruct (0 <? isnull_sum c)%nat; [|done].
    apply Hfill. intros s. destruct (col_dtype c); try done; simpl;
      destruct (decide (s = SENTINEL)) as [->|Hne];
      first [right; apply SENTINEL_not_category | left; congruence].
  - destruct (is_number (col_dtype c)) eqn:Hnum; [|done].
    unfold fill_numeric_col. destruct (0 <? isnull_sum c)%nat; [|done].
    destruct (median (nums c)); apply Hfill; intros s; left;
      by destruct (col_dtype c).
Qed.

Lemma col_after_nutriscore_grade c :
  col_after "nutriscore_grade" c = Categorical nutriscore_categories c.
Proof. unfold col_after. cbv zeta. simpl. apply Categorical_fill_col. Qed.

(** X7.  Take a column [nutriscore_grade] without a list cell
    ([pd.Categorical] cannot hash a list and raises [TypeError] on it).
    The result is [pd.Categorical] of the cells of the input in the rows
    kept: the fill of block 2 never shows.  A null grade comes out as NaN,
    and so does the sentinel ["Non renseigné"], which is not the category
    ["non renseigné"]; a cell of the result that is not NaN is the cell of
    the input, one of the six categories. *)
Theorem clean_nutriscore_grade f f' c :
  wf_frame f → clean f = inr f' → df_empty f = false →
  get_col "nutriscore_grade" f = Some c →
  existsb is_list (col_values c) = false →
  let kept := Column (col_dtype c) (select_rows (kept_rows f) (col_values c)) in
  get_col "nutriscore_grade" f' = Some (Categorical nutriscore_categories kept)
  ∧ Forall2 (λ v v', (isnull v = true → v' = VNaN)
                     ∧ (v = VStr SENTINEL → v' = VNaN)
                     ∧ (v' ≠ VNaN → v' = v ∧ ∃ s, v = VStr s ∧ s ∈ nutriscore_categories))
      (col_values kept) (col_values (Categorical nutriscore_categories kept)).
Proof.
  intros Hwf Hclean Hne Hc _ kept.
  rewrite (cleaned_from f f' _ Hwf Hclean Hne), Hc. simpl.
  rewrite col_after_nutriscore_grade. split; [done|].
  unfold Categorical. simpl. apply Forall2_fmap_r, Forall_Forall2_diag, Forall_forall.
  intros v _. unfold compose. destruct v as [| |s| | | |]; try done.
  destruct (decide (s ∈ nutriscore_categories)) as [Hin|Hnot]; [|done].
  split_and!; [done| |by eauto]. intros [= ->]. by apply SENTINEL_not_category in Hin.
Qed.

(** *** Lists of tags *)

(** The cells of a text column that neither the Nutri-Score rule nor the
    numeric rule names: the kept cells, filled, through the later rules. *)
Lemma cleaned_text_values f f' name c :
  wf_frame f → clean f = inr f' →
  get_col name f = Some c → is_text (col_dtype c) = true →
  name ≠ "nutriscore_grade" → name ∉ numeric_cols_to_clean →
  ∃ c', get_col name f' = Some c'
    ∧ col_values c'
      = map (λ v, later_rules name (if isnull v then VStr SENTINEL else v))
          (select_rows (kept_rows f) (col_values c)).
Proof.
  intros Hwf Hclean Hc Htext Hnutri Hnum.
  destruct (clean_inv f f' Hclean)
    as [[Hempty ->]|(Hne & code & Hcode & _ & Hkept & ->)].
  - exists c. split; [done|].
    rewrite (empty_frame_values _ _ _ Hwf Hempty Hc). by rewrite select_rows_nil.
  - destruct Hwf as [Hnd _]. eexists. rewrite get_col_cleaned, Hc by done.
    split; [done|]. rewrite col_after_values by done.
    rewrite fill_col_text_values by done. simpl. by rewrite map_map.
Qed.

(** X8.  The list columns of a text type, in the rows kept.  In
    [packaging_tags], [labels_tags] and [countries_tags] a list of strings
    comes out as its items joined by [", "], a null as the sentinel and any
    other cell as its string.  In [categories] the join of block 6 never
    applies: block 3 has turned every cell into a string before, so each
    cell comes out as one and the same function [norm] of the string of
    the cell, which for a list is the [repr] of the list and for a null the
    sentinel.  [norm] is the trimming and lower-casing of block 3: on ASCII
    text it strips and then lower-cases; what it makes of characters
    outside ASCII is not pinned down here. *)
Theorem clean_flattens_lists :
  ∃ norm : string → string,
    (∀ s, ascii_only s = true → norm s = lower (strip s))
    ∧ ∀ f f' name c,
        wf_frame f → clean f = inr f' →
        get_col name f = Some c → is_text (col_dtype c) = true →
        name ∈ list_cols →
        let kept := select_rows (kept_rows f) (col_values c) in
        ∃ c', get_col name f' = Some c'
          ∧ col_values c'
            = map (λ v,
                if String.eqb name "categories"
                then VStr (norm match v with
                                | VList items => repr_list items
                                | _ => py_str (if isnull v then VStr SENTINEL else v)
                                end)
                else match v with
                     | VList items => VStr (String.concat ", " items)
                     | _ => VStr (py_str (if isnull v then VStr SENTINEL else v))
                     end) kept.
Proof.
  exists (λ s, lower (strip s)). split; [done|].
  intros f f' name c Hwf Hclean Hc Htext Hname kept.
  destruct (cleaned_text_values f f' name c Hwf Hclean Hc Htext)
    as (c' & Hc' & Hvalues).
  - intros ->. by not_in Hname.
  - intros Hnum. apply list_elem_of_In in Hname. simpl in Hname.
    destruct Hname as [<-|[<-|[<-|[<-|[]]]]]; by not_in Hnum.
  - exists c'. split; [done|]. rewrite Hvalues. apply map_ext. intros v.
    apply list_elem_of_In in Hname. simpl in Hname.
    destruct Hname as [<-|[<-|[<-|[<-|[]]]]]; by destruct v.
Qed.

(** *** Missing numbers *)

Lemma fill_numeric_col_values c :
  col_values (fill_numeric_col c)
  = map (λ v, if isnull v
              then cast (col_dtype c)
                     match median (nums c) with
                     | Some median_val => VFloat median_val
                     | None => VInt 0
                     end
              else v) (col_values c).
Proof.
  unfold fill_numeric_col. destruct (0 <? isnull_sum c)%nat eqn:E.
  - destruct (median (nums c)); by rewrite fillna_values.
  - apply ltb_count_false in E. symmetry.
    rewrite <- (map_id (col_values c)) at 2. apply map_ext_Forall.
    eapply Forall_impl; [exact E|]. by intros v ->.
Qed.

(** X9.  A numeric column (int64 or float64) that no later rule names.  In
    the rows kept, each null is replaced by the median of the cells of
    these rows that are not null (the median is taken after the duplicates
    are dropped), or by 0 when there is no such cell; the other cells and
    the type of the column stay as they were. *)
Theorem clean_fills_numeric f f' name c :
  wf_frame f → clean f = inr f' →
  get_col name f = Some c → is_number (col_dtype c) = true →
  name ∉ text_cols_to_normalize → name ≠ "code" → name ≠ "nutriscore_grade" →
  name ∉ numeric_cols_to_clean → name ∉ list_cols →
  let kept := select_rows (kept_rows f) (col_values c) in
  let fill := cast (col_dtype c)
                match median (omap as_float kept) with
                | Some median_val => VFloat median_val
                | None => VInt 0
                end in
  ∃ c', get_col name f' = Some c'
    ∧ col_dtype c' = col_dtype c
    ∧ col_values c' = map (λ v, if isnull v then fill else v) kept.
Proof.
  intros Hwf Hclean Hc Hnumber Hn Hcode Hnutri Hnum Hl kept fill.
  destruct (df_empty f) eqn:Hempty.
  - destruct (clean_inv f f' Hclean) as [[_ ->]|(Hne & _)]; [|congruence].
    exists c. split_and!; [done..|]. subst kept.
    rewrite (empty_frame_values _ _ _ Hwf Hempty Hc). by rewrite select_rows_nil.
  - rewrite (cleaned_from f f' name Hwf Hclean Hempty), Hc. simpl.
    eexists. split; [done|].
    set (kc := Column (col_dtype c) kept).
    assert (Hafter : col_after name kc = fill_numeric_col kc).
    { assert (Hfill : fill_col kc = fill_numeric_col kc).
      { unfold fill_col. cbv zeta. simpl.
        replace (is_text (col_dtype c)) with false by (by destruct (col_dtype c)).
        simpl. by rewrite Hnumber. }
      unfold col_after. cbv zeta. rewrite Hfill.
      by_name name; try done; exfalso;
        first [by apply Hn; repeat constructor
              |by apply Hnum; repeat constructor
              |by apply Hl; repeat constructor]. }
    change (Column (col_dtype c) (select_rows (kept_rows f) (col_values c))) with kc.
    rewrite Hafter. split.
    + by rewrite col_dtype_fill_numeric_col.
    + by rewrite fill_numeric_col_values.
Qed.

(** *** The bar codes that are kept *)

Lemma kept_keys_complete (P : value → Prop) seen ks :
  (∀ a b, P a → P b → key_eqb a b = bool_decide (a = b)) →
  Forall P seen → Forall P ks →
  ∀ k, k ∈ ks → k ∉ seen → k ∈ select_rows (map negb (duplicated seen ks)) ks.
Proof.
  intros Heq Hseen Hks. revert seen Hseen.
  induction Hks as [|x ks Hx Hks IH]; intros seen Hseen k Hk Hnot.
  - by apply elem_of_nil in Hk.
  - simpl. rewrite (existsb_key_eqb P Heq) by done.
    destruct (decide (x ∈ seen)) as [Hin|Hin].
    + rewrite bool_decide_true by done. simpl.
      apply elem_of_cons in Hk as [->|Hk]; [done|].
      apply IH; [by constructor|done|]. intros [->|?]%elem_of_cons; done.
    + rewrite bool_decide_false by done. simpl.
      destruct (decide (k = x)) as [->|Hne]; [by left|]. right.
      apply elem_of_cons in Hk as [->|Hk]; [done|].
      apply IH; [by constructor|done|]. intros [->|?]%elem_of_cons; done.
Qed.

(** X10.  With bar codes that are all strings, or all integers, [clean]
    neither loses nor invents a code: each code of the input is, as a
    string, in the column [code] of the result, and each cell of that
    column is the string of a code of the input. *)
Theorem clean_keeps_every_code f f' c c' :
  wf_frame f → clean f = inr f' →
  get_col "code" f = Some c → codes_of_one_kind (col_values c) →
  get_col "code" f' = Some c' →
  (∀ v, v ∈ col_values c → VStr (py_str v) ∈ col_values c')
  ∧ (∀ v', v' ∈ col_values c' → ∃ v, v ∈ col_values c ∧ v' = VStr (py_str v)).
Proof.
  intros Hwf Hclean Hc Hkind Hc'.
  destruct (clean_inv f f' Hclean)
    as [[Hempty ->]|(Hne & code & Hcode & _ & Hkept & ->)].
  - rewrite Hc in Hc'. injection Hc' as <-.
    rewrite (empty_frame_values _ _ _ Hwf Hempty Hc).
    split; intros v Hv; by apply elem_of_nil in Hv.
  - destruct Hwf as [Hnd _]. rewrite get_col_cleaned, Hc in Hc' by done.
    simpl in Hc'. injection Hc' as <-.
    rewrite Hc in Hcode. injection Hcode as <-. rewrite Hkept.
    rewrite col_after_code
      by by apply codes_of_one_kind_notnull, codes_of_one_kind_select.
    unfold astype_str. simpl. split.
    + intros v Hv. apply list_elem_of_fmap. exists v. split; [done|].
      destruct Hkind as [H|H].
      * apply (kept_keys_complete _ [] _ key_eqb_str); try done.
        by intros ?%elem_of_nil.
      * apply (kept_keys_complete _ [] _ key_eqb_int); try done.
        by intros ?%elem_of_nil.
    + intros v' (v & -> & Hv)%list_elem_of_fmap. exists v. split; [|done].
      by apply elem_of_select_rows in Hv.
Qed.

(** *** Columns without a rule *)

(** X12.  A column that no rule of [clean_dataframe] names and that has
    nothing to fill (it holds no null, or its type is neither text nor
    numeric) comes out as it was, restricted to the rows kept. *)
Theorem clean_keeps_other_columns f f' name c :
  wf_frame f → clean f = inr f' →
  get_col name f = Some c →
  name ∉ text_cols_to_normalize → name ≠ "code" → name ≠ "nutriscore_grade" →
  name ∉ numeric_cols_to_clean → name ∉ list_cols →
  notnull c ∨ (is_text (col_dtype c) = false ∧ is_number (col_dtype c) = false) →
  get_col name f'
  = Some (Column (col_dtype c) (select_rows (kept_rows f) (col_values c))).
Proof.
  intros Hwf Hclean Hc Hn Hcode Hnutri Hnum Hl Hfill.
  destruct (df_empty f) eqn:Hempty.
  - destruct (clean_inv f f' Hclean) as [[_ ->]|(Hne & _)]; [|congruence].
    pose proof (empty_frame_values _ _ _ Hwf Hempty Hc) as Hnil.
    rewrite Hc, Hnil, select_rows_nil. f_equal.
    destruct c as [d vs]. simpl in *. by subst vs.
  - rewrite (cleaned_from f f' name Hwf Hclean Hempty), Hc. simpl. f_equal.
    set (kc := Column (col_dtype c) (select_rows (kept_rows f) (col_values c))).
    assert (Hid : fill_col kc = kc).
    { destruct Hfill as [Hnn|[Ht Hnb]].
      - apply fill_col_id. by apply Forall_select_rows.
      - unfold fill_col. cbv zeta. simpl. rewrite Ht. simpl. by rewrite Hnb. }
    unfold col_after. cbv zeta. rewrite Hid.
    by_name name; try done; exfalso;
      first [by apply Hn; repeat constructor
            |by apply Hnum; repeat constructor
            |by apply Hl; repeat constructor].
Qed.

(** *** Negative values *)

Section Sign.
Hypothesis laws : sign_laws.

Lemma nonneg_as_float v x :
  is_negative v = false → as_float v = Some x → nonneg x.
Proof.
  destruct v as [| |s|z|y|b|l]; try done; simpl; intros Hv [= <-]; unfold nonneg.
  - by rewrite sign_of_Z.
  - done.
  - rewrite sign_of_Z by done. by destruct b.
Qed.

Lemma nonneg_nums c :
  Forall (λ v, is_negative v = false) (col_values c) → Forall nonneg (nums c).
Proof.
  unfold nums. induction 1 as [|v vs Hv _ IH]; simpl; [constructor|].
  destruct (as_float v) as [x|] eqn:E; [|done].
  constructor; [by eapply nonneg_as_float|done].
Qed.

Lemma is_negative_to_float_cell v :
  is_negative v = false → is_negative (to_float_cell v) = false.
Proof. destruct v; try done. simpl. by rewrite sign_of_Z. Qed.

Lemma fix_negative_nonneg c :
  Forall (λ v, is_negative v = false) (col_values (fix_negative c)).
Proof.
  unfold fix_negative. destruct (0 <? count is_negative c)%nat eqn:E.
  - unfold assign_int. simpl. apply Forall_fmap, Forall_forall. intros v _. simpl.
    destruct (is_negative v) eqn:Hv; [|done].
    destruct (col_dtype c); simpl; try done. by rewrite sign_of_Z.
  - by apply ltb_count_false in E.
Qed.

Lemma assign_float_lower_nonneg lo c :
  Forall (λ v, is_negative v = false) (col_values c) →
  Forall (λ v, is_negative v = false) (col_values (assign_float (lt_bound lo) lo c)).
Proof.
  intros Hc. unfold assign_float. destruct lo as [b|]; [|done].
  destruct (existsb (lt_bound (Some b)) (col_values c)); [|done].
  assert (Hb : ∀ v, is_negative v = false → lt_bound (Some b) v = true →
                    is_negative (VFloat b) = false).
  { intros v Hv Hlt. unfold lt_bound in Hlt.
    destruct (as_float v) as [x|] eqn:E; [|done]. simpl.
    destruct (fltb b (of_Z 0)) eqn:Hneg; [|done].
    pose proof (nonneg_as_float v x Hv E) as Hx. unfold nonneg in Hx.
    by rewrite (sign_trans laws x b Hlt Hneg) in Hx. }
  destruct (col_dtype c); simpl; apply Forall_fmap;
    (eapply Forall_impl; [exact Hc|]); intros v Hv; simpl;
    destruct (lt_bound (Some b) v) eqn:Hlt;
    first [by apply (Hb v)|by apply is_negative_to_float_cell|done].
Qed.

Lemma assign_float_upper_nonneg hi c :
  (∀ b, hi = Some b → nonneg b) →
  Forall (λ v, is_negative v = false) (col_values c) →
  Forall (λ v, is_negative v = false) (col_values (assign_float (gt_bound hi) hi c)).
Proof.
  intros Hhi Hc. unfold assign_float. destruct hi as [b|]; [|done].
  destruct (existsb (gt_bound (Some b)) (col_values c)); [|done].
  specialize (Hhi b eq_refl).
  destruct (col_dtype c); simpl; apply Forall_fmap;
    (eapply Forall_impl; [exact Hc|]); intros v Hv; simpl;
    destruct (gt_bound (Some b) v);
    first [done|by apply is_negative_to_float_cell].
Qed.

Lemma upper_bound_nonneg l std_val b :
  Forall nonneg l → fltb (of_Z 0) std_val = true →
  upper_bound (mean l) std_val = Some b → nonneg b.
Proof.
  intros Hl Hstd. unfold upper_bound.
  destruct (mean l) as [m|] eqn:Hm; [|done]. simpl.
  destruct (fmul (of_Z 3) std_val) as [t|] eqn:Ht; [|done]. simpl.
  intros Hadd. eapply (sign_fadd laws); [|  |exact Hadd].
  - by eapply (sign_mean laws).
  - by eapply (sign_fmul laws).
Qed.

Lemma clip_outliers_nonneg c :
  Forall (λ v, is_negative v = false) (col_values c) →
  Forall (λ v, is_negative v = false) (col_values (clip_outliers c)).
Proof.
  intros Hc. unfold clip_outliers.
  destruct (0 <? notna_sum c)%nat; [|done].
  destruct (std (nums c)) as [std_val|]; [|done].
  destruct (fltb (of_Z 0) std_val) eqn:Hstd; [|done]. cbv zeta.
  destruct (0 <? count _ c)%nat; [|done].
  apply assign_float_upper_nonneg.
  - intros b Hb. eapply upper_bound_nonneg; [|exact Hstd|exact Hb].
    by apply nonneg_nums.
  - by apply assign_float_lower_nonneg.
Qed.

Lemma col_after_numeric name c :
  name ∈ numeric_cols_to_clean →
  col_after name c = clean_numeric_col (fill_col c).
Proof.
  intros Hin. apply list_elem_of_In in Hin. simpl in Hin.
  by destruct Hin as [<-|[<-|[<-|[<-|[<-|[]]]]]].
Qed.

(** X11.  After [clean], no cell of [energy_100g], [fat_100g],
    [sugars_100g], [salt_100g] or [proteins_100g] is negative (a cell may
    still be null), in every arithmetic that has the laws of signs
    [sign_laws]: the negative cells are set to 0, and clipping to three
    standard deviations does not bring a negative number back. *)
Theorem clean_leaves_no_negative f f' name c' :
  wf_frame f → clean f = inr f' →
  name ∈ numeric_cols_to_clean → get_col name f' = Some c' →
  Forall (λ v, is_negative v = false) (col_values c').
Proof.
  intros Hwf Hclean Hname Hc'.
  destruct (df_empty f) eqn:Hempty.
  - destruct (clean_inv f f' Hclean) as [[_ ->]|(Hne & _)]; [|congruence].
    rewrite (empty_frame_values _ _ _ Hwf Hempty Hc'). constructor.
  - rewrite (cleaned_from f f' name Hwf Hclean Hempty) in Hc'.
    destruct (get_col name f) as [c|]; [|done]. injection Hc' as <-.
    rewrite col_after_numeric by done. unfold clean_numeric_col.
    apply clip_outliers_nonneg, fix_negative_nonneg.
Qed.
End Sign.

End Generic.

(** ** Worked runs *)

(** The arithmetic of the worked runs has the laws of signs. *)
Lemma fixed_sum_nonneg (l : list Z) : Forall (λ x, 0 ≤ x) l → 0 ≤ Fixed.sum l.
Proof. induction 1; simpl; lia. Qed.

Lemma fixed_sign_laws : @sign_laws fixed_prims.
Proof.
  split; unfold nonneg; simpl; unfold Fixed.of_Z, Fixed.scale.
  - intros z. destruct (Z.ltb_spec (z * 1000000) (0 * 1000000)),
      (Z.ltb_spec z 0); lia.
  - intros x y Hxy Hy. apply Z.ltb_lt in Hxy, Hy. apply Z.ltb_lt. lia.
  - intros l m Hl. unfold Fixed.mean. destruct l as [|x l]; [done|].
    intros [= <-]. apply Z.ltb_ge. simpl (0 * 1000000).
    apply Z.quot_pos; [|lia]. apply (fixed_sum_nonneg (x :: l)).
    eapply Forall_impl; [exact Hl|]. intros y Hy. simpl in Hy.
    apply Z.ltb_ge in Hy. lia.
  - intros s0 t Hs [= <-]. apply Z.ltb_lt in Hs. apply Z.ltb_ge.
    unfold Fixed.mul, Fixed.scale. simpl (0 * 1000000).
    apply Z.quot_pos; lia.
  - intros m t u Hm Ht [= <-]. apply Z.ltb_ge in Hm, Ht. apply Z.ltb_ge. lia.
Qed.

(** X4 at work: the frame of [test_clean_dataframe_fill_missing_text] behind
    the reference 0. *)
Lemma clean_dataframe_result_object_witness :
  let h : gmap loc frame := {[ 0%nat := DataFrame one_null_name ]} in
  h !! 0%nat = Some (DataFrame one_null_name)
  ∧ ∀ df_clean, (clean_dataframe 0%nat h).1 = inr df_clean →
      df_clean ≠ 0%nat ∧ h !! df_clean = None
      ∧ ∃ f', (clean_dataframe 0%nat h).2 !! df_clean = Some f'
              ∧ clean (DataFrame one_null_name) = inr f'.
Proof.
  intros h.
  assert (Hdf : h !! 0%nat = Some (DataFrame one_null_name))
    by apply lookup_singleton_eq.
  split; [done|].
  exact (clean_dataframe_result_object h 0%nat (DataFrame one_null_name) Hdf).
Defined.

(** X5 at work on the table of [test_clean_dataframe_remove_duplicates]: the
    second row goes, the rows that stay keep the labels 0 and 2. *)
Lemma clean_shape_witness :
  wf_frame (DataFrame duplicate_codes)
  ∧ clean (DataFrame duplicate_codes) = inr duplicate_codes_cleaned
  ∧ names duplicate_codes_cleaned = ["code"; "name"; "value"]
  ∧ sublist [0; 2]%nat [0; 1; 2]%nat
  ∧ df_empty duplicate_codes_cleaned = false
  ∧ wf_frame duplicate_codes_cleaned.
Proof.
  pose proof (wf_frame_DataFrame duplicate_codes) as Hwf.
  assert (Hclean : clean (DataFrame duplicate_codes) = inr duplicate_codes_cleaned)
    by reflexivity.
  destruct (clean_shape _ _ Hwf Hclean) as (Hn & Hs & _ & He & Hwf').
  split_and!; done.
Defined.

(** X6 at work on the table of [test_clean_dataframe_normalize_text]. *)
Lemma clean_normalizes_text_witness :
  wf_frame (DataFrame upper_case_names)
  ∧ clean (DataFrame upper_case_names) = inr upper_case_names_cleaned
  ∧ Forall (λ v, ∃ s, v = VStr s ∧ no_capital s ∧ trimmed s ∧ s ≠ SENTINEL)
      [VStr "test product"].
Proof.
  pose proof (wf_frame_DataFrame upper_case_names) as Hwf.
  assert (Hclean : clean (DataFrame upper_case_names) = inr upper_case_names_cleaned)
    by reflexivity.
  split_and!; [done|done|].
  apply (clean_normalizes_text _ _ "product_name"
           (Column object [VStr "test product"]) Hwf Hclean); [|done].
  by left.
Defined.

(** X7 at work: of the grades [a], [None] and [B] only the first one is
    left. *)
Lemma clean_nutriscore_grade_witness :
  wf_frame (DataFrame three_grades)
  ∧ get_col "nutriscore_grade" (DataFrame three_grades)
    = Some (Column object [VStr "a"; VNone; VStr "B"])
  ∧ ∃ f', clean (DataFrame three_grades) = inr f'
      ∧ get_col "nutriscore_grade" f'
        = Some (Column (category nutriscore_categories true) [VStr "a"; VNaN; VNaN]).
Proof.
  pose proof (wf_frame_DataFrame three_grades) as Hwf.
  assert (Hc : get_col "nutriscore_grade" (DataFrame three_grades)
               = Some (Column object [VStr "a"; VNone; VStr "B"])) by reflexivity.
  destruct (clean (DataFrame three_grades)) as [e|f'] eqn:Hclean; [done|].
  destruct (clean_nutriscore_grade _ f' _ Hwf Hclean eq_refl Hc eq_refl) as [Hcol _].
  split_and!; [done|done|]. by exists f'.
Defined.

(** X8 at work: the labels are joined; the categories are the trimmed
    and lower-cased [repr] of the list. *)
Lemma clean_flattens_lists_witness :
  wf_frame (DataFrame tagged)
  ∧ ∃ (norm : string → string) f',
      clean (DataFrame tagged) = inr f'
      ∧ (∃ c', get_col "labels_tags" f' = Some c'
           ∧ col_values c' = [VStr "en:organic, en:vegan"; VStr "Non renseigné"])
      ∧ (∃ c', get_col "categories" f' = Some c'
           ∧ col_values c' = [VStr "['snacks', 'sweet']";
                              VStr (norm "Non renseigné")]).
Proof.
  pose proof (wf_frame_DataFrame tagged) as Hwf.
  destruct (@clean_flattens_lists fixed_prims) as (norm & Hnorm & Hlists).
  destruct (clean (DataFrame tagged)) as [e|f'] eqn:Hclean; [done|].
  assert (Hlabels : get_col "labels_tags" (DataFrame tagged)
            = Some (Column object [VList ["en:organic"; "en:vegan"]; VNone]))
    by reflexivity.
  assert (Hcategories : get_col "categories" (DataFrame tagged)
            = Some (Column object [VList ["Snacks"; "Sweet"]; VNone]))
    by reflexivity.
  split; [done|]. exists norm, f'. split_and!; [done|..].
  - destruct (Hlists _ f' "labels_tags" _ Hwf Hclean Hlabels eq_refl)
      as (c' & Hc' & Hvalues); [by repeat constructor|].
    exists c'. split; [done|]. rewrite Hvalues. reflexivity.
  - destruct (Hlists _ f' "categories" _ Hwf Hclean Hcategories eq_refl)
      as (c' & Hc' & Hvalues); [by repeat constructor|].
    exists c'. split; [done|]. rewrite Hvalues.
    assert (Hkept : select_rows (kept_rows (DataFrame tagged))
                      [VList ["Snacks"; "Sweet"]; VNone]
                    = [VList ["Snacks"; "Sweet"]; VNone]) by reflexivity.
    simpl col_values. rewrite Hkept. cbn [map String.eqb Ascii.eqb Bool.eqb isnull].
    f_equal. f_equal. rewrite Hnorm; reflexivity.
Defined.

(** X9 at work on the table of [test_clean_dataframe_fill_missing_numeric]:
    the missing value becomes the median, 20. *)
Lemma clean_fills_numeric_witness :
  wf_frame (DataFrame one_null_value)
  ∧ get_col "value" (DataFrame one_null_value)
    = Some (Column float64 [VFloat 10000000; VNaN; VFloat 30000000])
  ∧ ∃ f' c', clean (DataFrame one_null_value) = inr f'
      ∧ get_col "value" f' = Some c'
      ∧ col_dtype c' = float64
      ∧ col_values c' = [VFloat 10000000; VFloat 20000000; VFloat 30000000].
Proof.
  pose proof (wf_frame_DataFrame one_null_value) as Hwf.
  assert (Hc : get_col "value" (DataFrame one_null_value)
               = Some (Column float64 [VFloat 10000000; VNaN; VFloat 30000000]))
    by reflexivity.
  destruct (clean (DataFrame one_null_value)) as [e|f'] eqn:Hclean; [done|].
  destruct (clean_fills_numeric _ f' "value" _ Hwf Hclean Hc eq_refl)
    as (c' & Hc' & Hd & Hvalues);
    [intros H; by not_in H|done|done|intros H; by not_in H|intros H; by not_in H|].
  split_and!; [done|done|]. exists f', c'. split_and!; [done..|].
  rewrite Hvalues. reflexivity.
Defined.

(** [None] and NaN are two different bar codes: both rows are kept, and
    the median that fills [value] is the one of the three rows. *)
Lemma clean_null_codes :
  kept_rows null_codes = [true; true; true]
  ∧ clean null_codes
    = inr (Frame [0; 1; 2]%nat
             [("code", Column object [VStr "a"; VStr "Non renseigné";
                                      VStr "Non renseigné"]);
              ("value", Column float64 [VFloat 1000000; VFloat 3000000;
                                        VFloat 5000000])]).
Proof. split; reflexivity. Qed.

(** X10 at work on the table of [test_clean_dataframe_remove_duplicates]. *)
Lemma clean_keeps_every_code_witness :
  wf_frame (DataFrame duplicate_codes)
  ∧ clean (DataFrame duplicate_codes) = inr duplicate_codes_cleaned
  ∧ (∀ v, v ∈ [VStr "123"; VStr "123"; VStr "456"] →
          VStr (py_str v) ∈ [VStr "123"; VStr "456"])
  ∧ (∀ v', v' ∈ [VStr "123"; VStr "456"] →
           ∃ v, v ∈ [VStr "123"; VStr "123"; VStr "456"] ∧ v' = VStr (py_str v)).
Proof.
  pose proof (wf_frame_DataFrame duplicate_codes) as Hwf.
  assert (Hclean : clean (DataFrame duplicate_codes) = inr duplicate_codes_cleaned)
    by reflexivity.
  split_and!; [done|done|..];
    apply (clean_keeps_every_code _ _
             (Column object [VStr "123"; VStr "123"; VStr "456"])
             (Column object [VStr "123"; VStr "456"]) Hwf Hclean);
    try done; left; repeat constructor; by eexists.
Defined.

(** X11 at work on the table of [test_clean_dataframe_fix_negative_values],
    in the arithmetic of the worked runs. *)
Lemma clean_leaves_no_negative_witness :
  wf_frame (DataFrame negative_values)
  ∧ get_col "energy_100g" (DataFrame negative_values)
    = Some (Column int64 [VInt 100; VInt (-50)])
  ∧ clean (DataFrame negative_values) = inr negative_values_cleaned
  ∧ Forall (λ v, is_negative v = false) [VInt 100; VInt 0].
Proof.
  pose proof (wf_frame_DataFrame negative_values) as Hwf.
  assert (Hclean : clean (DataFrame negative_values) = inr negative_values_cleaned)
    by reflexivity.
  split_and!; [done|done|done|].
  apply (clean_leaves_no_negative fixed_sign_laws _ _ "energy_100g"
           (Column int64 [VInt 100; VInt 0]) Hwf Hclean);
    [by repeat constructor|done].
Defined.

(** X12 at work: the column [value] of the table of
    [test_clean_dataframe_fill_missing_text]. *)
Lemma clean_keeps_other_columns_witness :
  wf_frame (DataFrame one_null_name)
  ∧ clean (DataFrame one_null_name) = inr one_null_name_cleaned
  ∧ get_col "value" (DataFrame one_null_name) = Some (Column int64 [VInt 10; VInt 20])
  ∧ get_col "value" one_null_name_cleaned = Some (Column int64 [VInt 10; VInt 20]).
Proof.
  pose proof (wf_frame_DataFrame one_null_name) as Hwf.
  assert (Hclean : clean (DataFrame one_null_name) = inr one_null_name_cleaned)
    by reflexivity.
  assert (Hc : get_col "value" (DataFrame one_null_name)
               = Some (Column int64 [VInt 10; VInt 20])) by reflexivity.
  split_and!; [done|done|done|].
  rewrite (clean_keeps_other_columns _ _ "value" _ Hwf Hclean Hc);
    [reflexivity|intros H; by not_in H|done|done|intros H; by not_in H
    |intros H; by not_in H|left; by repeat constructor].
Defined.

End TransformerMore.

(** * The paths of the saved files *)

Module StorageProofs.
Import Storage Examples.

Lemma ascii_compare_refl a : Ascii.compare a a = Eq.
Proof. apply N.compare_refl. Qed.

Lemma string_compare_refl s : String.compare s s = Eq.
Proof. induction s as [|a s IH]; simpl; [done|]. by rewrite ascii_compare_refl. Qed.

Lemma string_compare_prefix p s t :
  String.compare (p +:+ s) (p +:+ t) = String.compare s t.
Proof. induction p as [|a p IH]; simpl; [done|]. by rewrite ascii_compare_refl. Qed.

Lemma path_compare_prefix p q r :
  path_compare (p ++ q) (p ++ r) = path_compare q r.
Proof. induction p as [|a p IH]; simpl; [done|]. by rewrite string_compare_refl. Qed.

Lemma digit_compare a b :
  Ascii.compare (digit a) (digit b) = (a mod 10 ?= b mod 10).
Proof.
  unfold digit, Ascii.compare.
  pose proof (Z.mod_pos_bound a 10 eq_refl). pose proof (Z.mod_pos_bound b 10 eq_refl).
  rewrite !N_ascii_embedding by lia.
  rewrite Z2N.inj_compare by lia. apply Z.add_compare_mono_l.
Qed.

(** Quotient and remainder order a number as the number itself. *)
Lemma compare_div_mod a b k :
  0 < k →
  lexicographic (a / k ?= b / k) (a mod k ?= b mod k) = (a ?= b).
Proof.
  intros Hk. pose proof (Z.div_mod a k). pose proof (Z.div_mod b k).
  pose proof (Z.mod_pos_bound a k Hk). pose proof (Z.mod_pos_bound b k Hk).
  unfold lexicographic.
  destruct (Z.compare_spec (a / k) (b / k)), (Z.compare_spec (a mod k) (b mod k)),
    (Z.compare_spec a b); try done; nia.
Qed.

Lemma mod_100 a : a mod 100 = a mod 10 + 10 * ((a / 10) mod 10).
Proof. change 100 with (10 * 10). by rewrite Z.rem_mul_r. Qed.

Lemma units_digit a : (a mod 100) mod 10 = a mod 10.
Proof.
  rewrite mod_100, (Z.mul_comm 10), Z.mod_add by done. by rewrite Z.mod_mod.
Qed.

Lemma tens_digit a : a mod 100 / 10 = (a / 10) mod 10.
Proof.
  pose proof (Z.mod_pos_bound a 10 eq_refl).
  rewrite mod_100, (Z.mul_comm 10), Z.div_add by done.
  by rewrite (Z.div_small (a mod 10)).
Qed.

Lemma two_digits_compare a b s t :
  0 ≤ a < 100 → 0 ≤ b < 100 →
  String.compare (two_digits a +:+ s) (two_digits b +:+ t)
  = lexicographic (a ?= b) (String.compare s t).
Proof.
  intros Ha Hb. simpl. rewrite !digit_compare.
  rewrite <- (compare_div_mod a b 10) by done.
  rewrite (Z.mod_small (a / 10)), (Z.mod_small (b / 10))
    by (split; [apply Z.div_pos|apply Z.div_lt_upper_bound]; lia).
  unfold lexicographic.
  by destruct (a / 10 ?= b / 10), (a mod 10 ?= b mod 10).
Qed.

Lemma four_digits_compare a b s t :
  0 ≤ a < 10000 → 0 ≤ b < 10000 →
  String.compare (four_digits a +:+ s) (four_digits b +:+ t)
  = lexicographic (a ?= b) (String.compare s t).
Proof.
  intros Ha Hb. unfold four_digits.
  change (String.compare
            (String (digit (a / 1000)) (String (digit (a / 100)) (two_digits a +:+ s)))
            (String (digit (b / 1000)) (String (digit (b / 100)) (two_digits b +:+ t)))
          = lexicographic (a ?= b) (String.compare s t)).
  cbn [String.compare]. rewrite !digit_compare.
  assert (Hlow : String.compare (two_digits a +:+ s) (two_digits b +:+ t)
                 = lexicographic (a mod 100 ?= b mod 100) (String.compare s t)).
  { simpl. rewrite !digit_compare.
    rewrite <- (compare_div_mod (a mod 100) (b mod 100) 10) by done.
    rewrite !tens_digit, !units_digit.
    unfold lexicographic.
    by destruct (a / 10 mod 10 ?= b / 10 mod 10), (a mod 10 ?= b mod 10). }
  rewrite Hlow.
  rewrite <- (compare_div_mod a b 100) by done.
  rewrite <- (compare_div_mod (a / 100) (b / 100) 10) by done.
  rewrite !Z.div_div by lia. change (100 * 10) with 1000.
  rewrite (Z.mod_small (a / 1000)), (Z.mod_small (b / 1000))
    by (split; [apply Z.div_pos|apply Z.div_lt_upper_bound]; lia).
  unfold lexicographic.
  by destruct (a / 1000 ?= b / 1000), (a / 100 mod 10 ?= b / 100 mod 10),
    (a mod 100 ?= b mod 100).
Qed.

Lemma append_assoc (s t u : string) : (s +:+ t) +:+ u = s +:+ t +:+ u.
Proof.
  induction s as [|a s IH]; [done|].
  change (String a ((s +:+ t) +:+ u) = String a (s +:+ t +:+ u)). by f_equal.
Qed.

Lemma lexicographic_assoc c1 c2 c3 :
  lexicographic (lexicographic c1 c2) c3 = lexicographic c1 (lexicographic c2 c3).
Proof. by destruct c1. Qed.

(** The timestamps compare as the datetimes they print. *)
Lemma strftime_compare d1 d2 s t :
  valid d1 → valid d2 →
  String.compare (strftime d1 +:+ s) (strftime d2 +:+ t)
  = lexicographic (datetime_compare d1 d2) (String.compare s t).
Proof.
  intros (Hy1 & Hm1 & Hd1 & Hh1 & Hmi1 & Hs1) (Hy2 & Hm2 & Hd2 & Hh2 & Hmi2 & Hs2).
  unfold strftime, datetime_compare. rewrite !append_assoc.
  rewrite four_digits_compare by lia.
  rewrite !two_digits_compare by lia.
  change (String.compare ("_" +:+ ?x) ("_" +:+ ?y)) with (String.compare x y).
  rewrite !two_digits_compare by lia.
  by rewrite !lexicographic_assoc.
Qed.

Lemma datetime_compare_eq d1 d2 : datetime_compare d1 d2 = Eq → d1 = d2.
Proof.
  destruct d1, d2. unfold datetime_compare, lexicographic. simpl.
  repeat match goal with
         | |- context [?a ?= ?b] => destruct (Z.compare_spec a b); try done; subst
         end.
  done.
Qed.

Lemma path_compare_refl p : path_compare p p = Eq.
Proof. induction p as [|a p IH]; simpl; [done|]. by rewrite string_compare_refl. Qed.

(** X13.  For one dataset name, the paths that [save_parquet] and
    [save_raw_json] build compare exactly as the datetimes read from the
    clock (years 1000 to 9999), both as [pathlib] compares paths and as
    strings: a later datetime gives a greater path, and two saves get the
    same path exactly when their datetimes agree to the second. *)
Theorem saved_paths_order name d1 d2 :
  valid d1 → valid d2 →
  path_compare (parquet_path name d1) (parquet_path name d2) = datetime_compare d1 d2
  ∧ path_compare (raw_json_path name d1) (raw_json_path name d2)
    = datetime_compare d1 d2
  ∧ String.compare (str (parquet_path name d1)) (str (parquet_path name d2))
    = datetime_compare d1 d2
  ∧ (parquet_path name d1 = parquet_path name d2 ↔ d1 = d2).
Proof.
  intros H1 H2.
  assert (Hfile : ∀ ext,
    String.compare (name +:+ "_" +:+ strftime d1 +:+ ext)
                   (name +:+ "_" +:+ strftime d2 +:+ ext)
    = datetime_compare d1 d2).
  { intros ext. rewrite string_compare_prefix.
    change (String.compare ("_" +:+ ?x) ("_" +:+ ?y)) with (String.compare x y).
    rewrite strftime_compare, string_compare_refl by done.
    by destruct (datetime_compare d1 d2). }
  assert (Hparquet : path_compare (parquet_path name d1) (parquet_path name d2)
                     = datetime_compare d1 d2).
  { unfold parquet_path. rewrite path_compare_prefix. simpl. rewrite Hfile.
    by destruct (datetime_compare d1 d2). }
  split_and!.
  - done.
  - unfold raw_json_path. rewrite path_compare_prefix. simpl. rewrite Hfile.
    by destruct (datetime_compare d1 d2).
  - change (str (parquet_path name d1))
      with ("data/processed/" +:+ name +:+ "_" +:+ strftime d1 +:+ ".parquet").
    change (str (parquet_path name d2))
      with ("data/processed/" +:+ name +:+ "_" +:+ strftime d2 +:+ ".parquet").
    rewrite (string_compare_prefix "data/processed/").
    apply Hfile.
  - split; [|by intros ->]. intros Heq. apply datetime_compare_eq.
    by rewrite <- Hparquet, Heq, path_compare_refl.
Qed.

(** X13 at work: a file saved in the last second of January sorts before
    one saved in the first second of February. *)
Lemma saved_paths_order_witness :
  valid end_of_january ∧ valid start_of_february
  ∧ str (parquet_path "chocolats_fr" end_of_january)
    = "data/processed/chocolats_fr_20250131_235959.parquet"
  ∧ str (parquet_path "chocolats_fr" start_of_february)
    = "data/processed/chocolats_fr_20250201_000000.parquet"
  ∧ path_compare (parquet_path "chocolats_fr" end_of_january)
      (parquet_path "chocolats_fr" start_of_february) = Lt.
Proof.
  assert (H1 : valid end_of_january) by (unfold valid; simpl; lia).
  assert (H2 : valid start_of_february) by (unfold valid; simpl; lia).
  split_and!; [done|done|reflexivity|reflexivity|].
  rewrite (proj1 (saved_paths_order "chocolats_fr" _ _ H1 H2)). reflexivity.
Defined.
End StorageProofs.

(** * The pipeline *)

Module MainProofs.
Import Transformer TransformerProofs TransformerMore Main Examples.

Section Generic.
Context {prims : PyPrims} {World : Type}.
Variable client_get :
  World → string → Fetcher.params → (Fetcher.exn + Fetcher.body record) * World.
Variable datetime_now : World → Storage.datetime * World.
Variable write_file : World → Storage.path → Storage.content → bool * World.

Abbreviation state := (Main.state World).

(** *** The frame of the records *)

Lemma elem_of_first_occurrences k seen keys :
  k ∈ first_occurrences seen keys ↔ k ∈ keys ∧ k ∉ seen.
Proof.
  revert seen. induction keys as [|x keys IH]; intros seen; simpl.
  - split; [by intros ?%elem_of_nil|by intros [?%elem_of_nil _]].
  - destruct (decide (x ∈ seen)) as [Hx|Hx].
    + rewrite IH, elem_of_cons. split; [tauto|]. intros [[->|?] ?]; tauto.
    + rewrite elem_of_cons, IH, not_elem_of_cons, elem_of_cons.
      destruct (decide (k = x)) as [->|Hne]; tauto.
Qed.

Lemma is_Some_dict_get key (r : record) : is_Some (dict_get key r) ↔ key ∈ r.*1.
Proof.
  induction r as [|[k v] r IH]; simpl.
  - split; [by intros [? ?]|by intros ?%elem_of_nil].
  - rewrite elem_of_cons. destruct (decide (k = key)) as [->|Hne].
    + split; [by left|by eexists].
    + rewrite IH. split; [by right|]. by intros [?|?].
Qed.

Lemma elem_of_concat_map {A B : Type} (g : A → list B) (l : list A) k :
  k ∈ concat (map g l) ↔ ∃ r, r ∈ l ∧ k ∈ g r.
Proof.
  induction l as [|x l IH]; simpl.
  - split; [by intros ?%elem_of_nil|by intros (? & ?%elem_of_nil & _)].
  - rewrite elem_of_app, IH. split.
    + intros [?|(r & ? & ?)]; [exists x; split; [by left|done]|].
      exists r. split; [by right|done].
    + intros (r & [->|?]%elem_of_cons & ?); [by left|]. right. by exists r.
Qed.

Lemma elem_of_keys_of key raw_data :
  key ∈ keys_of raw_data ↔ ∃ r, r ∈ raw_data ∧ is_Some (dict_get key r).
Proof.
  unfold keys_of. rewrite elem_of_first_occurrences, elem_of_concat_map. split.
  - intros [(r & Hr & Hk) _]. exists r. by rewrite is_Some_dict_get.
  - intros (r & Hr & Hk%is_Some_dict_get). split; [by exists r|apply not_elem_of_nil].
Qed.

Lemma get_col_DataFrame key raw_data :
  get_col key (DataFrame raw_data)
  = if decide (key ∈ keys_of raw_data)
    then Some (infer_column (map (cell key) raw_data)) else None.
Proof.
  unfold get_col, DataFrame. simpl.
  induction (keys_of raw_data) as [|k ks IH]; simpl; [done|].
  destruct (decide (k = key)) as [->|Hne].
  - by rewrite decide_True by left.
  - rewrite IH. destruct (decide (key ∈ ks)) as [Hin|Hin].
    + by rewrite decide_True by (by right).
    + rewrite decide_False; [done|]. by intros [?|?]%elem_of_cons.
Qed.

Lemma existsb_is_list_infer_column vs :
  existsb is_list (col_values (infer_column vs)) = existsb is_list vs.
Proof.
  assert (H : ∀ (b : bool) (l : list value),
    existsb is_list (map (λ v, if b then to_float64_cell v else v) l)
    = existsb is_list l).
  { intros b l. induction l as [|v l IH]; [done|]. cbn [existsb map].
    rewrite IH. f_equal. destruct b; by destruct v. }
  rewrite infer_column_values.
  destruct (decide _); [apply (H true)|apply (H false)].
Qed.

Lemma existsb_is_list_cells key raw_data :
  existsb is_list (map (cell key) raw_data) = true
  ↔ ∃ r items, r ∈ raw_data ∧ dict_get key r = Some (VList items).
Proof.
  rewrite existsb_exists. split.
  - intros (v & (r & <- & Hr)%in_map_iff & Hv). apply list_elem_of_In in Hr.
    unfold cell in Hv. destruct (dict_get key r) as [[]|] eqn:E; try done.
    by exists r, items.
  - intros (r & items & Hr & Hget). exists (VList items). split; [|done].
    apply in_map_iff. exists r. split; [|by apply list_elem_of_In].
    unfold cell. by rewrite Hget.
Qed.

(** When [clean_dataframe(raw_to_dataframe(raw_data))] returns a frame that
    is not empty, at least one of the records has a bar code and no bar
    code is a list. *)
Lemma clean_DataFrame_returned raw_data f' :
  clean (DataFrame raw_data) = inr f' → df_empty f' = false →
  (∃ r, r ∈ raw_data ∧ is_Some (dict_get "code" r))
  ∧ (∀ r items, r ∈ raw_data → dict_get "code" r ≠ Some (VList items)).
Proof.
  intros Hclean Hne'.
  pose proof (wf_frame_DataFrame raw_data) as Hwf.
  pose proof (get_col_DataFrame "code" raw_data) as Hcode.
  pose proof (cleaned_empty _ _ Hwf Hclean) as Hsame.
  rewrite Hne' in Hsame.
  destruct (clean_inv _ _ Hclean) as [[He _]|(_ & c & Hc & Hl & _)]; [congruence|].
  rewrite Hcode in Hc. destruct (decide _) as [Hin|]; [|done].
  injection Hc as <-. rewrite existsb_is_list_infer_column in Hl.
  split.
  - by apply elem_of_keys_of.
  - intros r items Hr Hget.
    rewrite (proj2 (existsb_is_list_cells "code" raw_data)) in Hl; [done|by eauto].
Qed.

(** *** The steps of the pipeline *)

Lemma fetch_all_data_nonempty category (s : Fetcher.state record World) raw_data :
  (Fetcher.fetch_all_data client_get category s).1 = inr raw_data → raw_data ≠ [].
Proof.
  unfold Fetcher.fetch_all_data.
  destruct (Fetcher.for_pages _ _ _ _ _) as [[|x l] s']; simpl; [done|].
  by intros [= <-].
Qed.

(** The transformation gives what [clean] gives on the frame of the
    records, and touches neither the world nor the files. *)
Lemma transform_run raw_data (s : state) :
  raw_data ≠ [] →
  (transform raw_data s).1 = clean (DataFrame raw_data)
  ∧ world (transform raw_data s).2 = world s
  ∧ requests (transform raw_data s).2 = requests s
  ∧ written (transform raw_data s).2 = written s.
Proof.
  intros Hne. unfold transform. simpl. split; [|done].
  destruct raw_data as [|r raw_data]; [done|].
  set (f := DataFrame (r :: raw_data)).
  change (result_frame (clean_dataframe (fresh (dom (frames s)))
                          (<[fresh (dom (frames s)) := f]> (frames s)))
          = clean f).
  rewrite (clean_dataframe_run _ _ f) by apply lookup_insert_eq.
  rewrite clean_clean_frame. unfold clean_frame.
  destruct (df_empty f).
  - simpl. by rewrite lookup_insert_eq.
  - cbv zeta. destruct (drop_duplicates_frame "code" f); [done|].
    simpl. by rewrite lookup_insert_eq.
Qed.

Lemma save_raw_json_run data name (s : state) :
  data ≠ [] →
  ∃ timestamp w succeeded w',
    datetime_now (world s) = (timestamp, w)
    ∧ write_file w (Storage.raw_json_path name timestamp) (Storage.JsonDocument data)
      = (succeeded, w')
    ∧ save_raw_json datetime_now write_file data name s
      = (if succeeded then inr (Storage.str (Storage.raw_json_path name timestamp))
         else inl Storage.WriteError,
         State w' (requests s) (frames s)
           (written s ++ [Storage.Write (Storage.raw_json_path name timestamp)
                            (Storage.JsonDocument data) succeeded])).
Proof.
  intros Hne. unfold save_raw_json, Storage.save_raw_json.
  destruct data as [|r data]; [done|]. simpl.
  destruct (datetime_now (world s)) as [t w].
  destruct (write_file w (Storage.raw_json_path name t)
              (Storage.JsonDocument (r :: data))) as [ok w'] eqn:Hw.
  by exists t, w, ok, w'.
Qed.

Lemma save_parquet_run df name (s : state) :
  df_empty df = false →
  ∃ timestamp w succeeded w',
    datetime_now (world s) = (timestamp, w)
    ∧ write_file w (Storage.parquet_path name timestamp)
        (Storage.ParquetTable (df_columns df))
      = (succeeded, w')
    ∧ save_parquet datetime_now write_file df name s
      = (if succeeded then inr (Storage.str (Storage.parquet_path name timestamp))
         else inl Storage.WriteError,
         State w' (requests s) (frames s)
           (written s ++ [Storage.Write (Storage.parquet_path name timestamp)
                            (Storage.ParquetTable (df_columns df)) succeeded])).
Proof.
  intros Hne. unfold save_parquet, Storage.save_parquet. rewrite Hne. simpl.
  destruct (datetime_now (world s)) as [t w].
  destruct (write_file w (Storage.parquet_path name t)
              (Storage.ParquetTable (df_columns df))) as [ok w'] eqn:Hw.
  by exists t, w, ok, w'.
Qed.

Lemma save_parquet_empty df name (s : state) :
  df_empty df = true →
  save_parquet datetime_now write_file df name s
  = (inl (Storage.ValueError "DataFrame vide, rien à sauvegarder"), s).
Proof.
  intros He. unfold save_parquet, Storage.save_parquet. rewrite He. by destruct s.
Qed.

(** X14.  The files [run_pipeline] writes.  When [fetch_all_data] raises,
    the pipeline exits with status 1, and it has written nothing and
    created no frame.  When [fetch_all_data] returns records (never an
    empty list), the first file written is the raw JSON file of exactly
    these records, before any transformation.  A second write follows only
    when the first one succeeded: the Parquet file of the columns of
    [clean(raw_to_dataframe(records))]; the pipeline returns the path of
    that file when the write succeeds and exits with status 1 when it
    fails.  In all the other cases the JSON file is the only write and the
    pipeline exits with status 1. *)
Theorem run_pipeline_writes category name (s : state) :
  let run := run_pipeline client_get datetime_now write_file category name s in
  match (Fetcher.fetch_all_data client_get category
           (Fetcher.State (world s) (requests s))).1 with
  | inl _ =>
      run.1 = inl (SystemExit 1)
      ∧ written run.2 = written s ∧ frames run.2 = frames s
  | inr raw_data =>
      raw_data ≠ []
      ∧ ∃ timestamp succeeded rest,
          written run.2
          = written s
            ++ Storage.Write (Storage.raw_json_path name timestamp)
                 (Storage.JsonDocument raw_data) succeeded :: rest
          ∧ match rest with
            | [] => run.1 = inl (SystemExit 1)
            | [Storage.Write filepath c succeeded'] =>
                succeeded = true
                ∧ run.1 = (if succeeded' then inr (Storage.str filepath)
                           else inl (SystemExit 1))
                ∧ ∃ timestamp' f',
                    filepath = Storage.parquet_path name timestamp'
                    ∧ clean (DataFrame raw_data) = inr f'
                    ∧ c = Storage.ParquetTable (df_columns f')
            | _ => False
            end
  end.
Proof.
  cbv zeta. unfold run_pipeline, pipeline, fetch_all_data.
  pose proof (fetch_all_data_nonempty category
                (Fetcher.State (world s) (requests s))) as Hne.
  destruct (Fetcher.fetch_all_data client_get category _) as [[e|raw_data] s1];
    [done|]. cbn [fst] in Hne |- *. specialize (Hne raw_data eq_refl).
  split; [done|].
  set (s1' := State (Fetcher.world s1) (Fetcher.trace s1) (frames s) (written s)).
  destruct (save_raw_json_run raw_data name s1' Hne)
    as (t1 & w1 & ok1 & w2 & _ & _ & ->).
  exists t1, ok1. destruct ok1; [|by exists []].
  match goal with
  | |- context [transform raw_data ?s2] =>
      destruct (transform_run raw_data s2 Hne) as (Hr & _ & _ & Hwr);
      destruct (transform raw_data s2) as [[e|f'] s3]
  end; cbn [fst snd written] in *; [by exists []|].
  destruct (df_empty f') eqn:Hempty.
  - rewrite save_parquet_empty by done. by exists [].
  - destruct (save_parquet_run f' name s3 Hempty)
      as (t2 & w3 & ok2 & w4 & _ & _ & ->).
    eexists. split; [destruct ok2; simpl; by rewrite Hwr, <- app_assoc|].
    split; [done|]. split; [by destruct ok2|]. by exists t2, f'.
Qed.

(** X15.  [run_pipeline] returns a path only when [fetch_all_data] has
    returned records of which at least one has a key [code] and none has a
    list under [code].  So for records that all lack [code], or with a list
    as bar code, the pipeline ends in [sys.exit(1)], whatever the clock and
    the disk do. *)
Theorem run_pipeline_returns category name (s : state) output_path :
  (run_pipeline client_get datetime_now write_file category name s).1
  = inr output_path →
  ∃ raw_data,
    (Fetcher.fetch_all_data client_get category
       (Fetcher.State (world s) (requests s))).1 = inr raw_data
    ∧ (∃ r, r ∈ raw_data ∧ is_Some (dict_get "code" r))
    ∧ (∀ r items, r ∈ raw_data → dict_get "code" r ≠ Some (VList items)).
Proof.
  unfold run_pipeline, pipeline, fetch_all_data.
  pose proof (fetch_all_data_nonempty category
                (Fetcher.State (world s) (requests s))) as Hne.
  destruct (Fetcher.fetch_all_data client_get category _) as [[e|raw_data] s1];
    cbn [fst] in Hne |- *; [done|].
  specialize (Hne raw_data eq_refl).
  set (s1' := State (Fetcher.world s1) (Fetcher.trace s1) (frames s) (written s)).
  destruct (save_raw_json_run raw_data name s1' Hne)
    as (t1 & w1 & ok1 & w2 & _ & _ & ->).
  destruct ok1; [|done].
  match goal with
  | |- context [transform raw_data ?s2] =>
      destruct (transform_run raw_data s2 Hne) as (Hr & _ & _ & _);
      destruct (transform raw_data s2) as [[e|f'] s3]
  end; cbn [fst snd] in *; [done|].
  destruct (df_empty f') eqn:Hempty.
  { by rewrite save_parquet_empty by done. }
  intros _. exists raw_data. split; [done|].
  by apply (clean_DataFrame_returned raw_data f').
Qed.

End Generic.

(** X15 at work: one page of two products with bar codes. *)
Lemma run_pipeline_returns_witness :
  (run_pipeline Fetcher.scripted still_clock reliable_disk "chocolats"
     "chocolats_fr" (State one_page [] ∅ [])).1
  = inr "data/processed/chocolats_fr_20250201_000000.parquet"
  ∧ ∃ raw_data,
      (Fetcher.fetch_all_data Fetcher.scripted "chocolats"
         (Fetcher.State one_page [])).1 = inr raw_data
      ∧ (∃ r, r ∈ raw_data ∧ is_Some (dict_get "code" r))
      ∧ (∀ r items, r ∈ raw_data → dict_get "code" r ≠ Some (VList items)).
Proof.
  split; [reflexivity|].
  apply (run_pipeline_returns Fetcher.scripted still_clock reliable_disk
           "chocolats" "chocolats_fr" (State one_page [] ∅ [])
           "data/processed/chocolats_fr_20250201_000000.parquet").
  reflexivity.
Defined.
End MainProofs.
